(* ===== verification/_CoqProject ===== *)
-Q . S2P
Prelude.v
BitCodec.v
Samples.v
LSB.v
Echo.v
EchoCarrier.v
Engine.v
App.v
Stoi.v
Snr.v
Pesq.v
