(* ===== verification/Prelude.v ===== *)
(** * Audio-Encoder-Decoder: a verification development

    The repository hides a text message in the samples of a PCM WAV file
    ([src/app.py]), with two schemes:
    - least-significant-bit hiding: bit [i] of the framed message
      replaces the low bit of sample [i] ([encode_lsb], [decode_lsb]);
    - echo hiding: bit [i] adds an attenuated copy of chunk [i] of the
      signal, delayed by [d0] or [d1] samples; decoding compares the
      stego file with the original by correlation ([encode_echo_simple],
      [decode_echo_simple]).
    Both frame the message the same way: ["###"] is appended and every
    character becomes eight bits, most significant first; the decoders
    read eight bits at a time and stop at the first character sequence
    ending in ["###"].  Around the engines, [read_wav_bytes] turns the
    frame bytes of a WAV file into int16 samples and [write_wav_bytes]
    clips, casts and serialises them back.  The Streamlit page (the rest
    of [src/app.py]) calls the four operations; [src/snr.py],
    [src/stoi.py] and [src/pesq_eval.py] are offline quality scripts.

    ** Files and what they model

    - [Prelude.v] (this file): notation scope [stego_scope], the hint
      databases [stego] and [stego_rw], the tactic [decide_concrete], the
      exception monad [pyres] that stands for the Python exceptions the
      code lets escape, bit strings ([bits_value] = [int(s, 2)],
      [to_bits]), Python slices ([slice]), the truncation to the shortest
      of three arrays the quality scripts share ([min_len3]) and the
      sub-list relation [infix_of] with its decision procedure.
    - [BitCodec.v], Module [BitCodec]: the framing, [encode_bits]
      (app.py 36-37, 83-84) and the decoding loop [decode_loop] (58-73
      and 153-172) with its two stop tests [lsb_stop] ([char_val == 0])
      and [echo_stop] ([char_val == 0 or char_val > 127]); a message is
      its list of code points.  [scan_chars] is the same loop on
      characters; [decode_loop_bytes] shows the bit loop refines it.
    - [Samples.v], Module [Samples]: int16 samples as [Z], the
      [.view(np.uint16)]/[.view(np.int16)] reinterpretations ([to_u16],
      [to_i16]), [np.frombuffer]/[tobytes] on little-endian frame bytes,
      the clip and the truncating cast of [write_wav_bytes] ([quantize]),
      and a WAV file as its header parameters and frame bytes.
    - [LSB.v], Module [LSB]: [encode_lsb] and [decode_lsb], on samples
      ([encode_lsb_samples], [decode_lsb_samples]) and on WAV files; the
      index loop of line 44 is [embed_loop], its closed form [embed_ref].
    - [Echo.v], Module [Echo]: [encode_echo_simple] and
      [decode_echo_simple]; the encoder's loop is [echo_loop] (with its
      [break] and bounds test), the decoder's is [chunk_loop] over
      [chunk_diag]; [echo_sum] is the closed form of the encoder, an
      abstract specification of what it computes.
    - [EchoCarrier.v], Module [EchoCarrier]: a class of carriers on which
      echo decoding provably works, the pulse train [pulse] (one pulse
      of amplitude [A] at the start of every chunk): the encoder's output
      on it sample by sample ([pulse_stego], the int16 cast included) and
      the decoder's two correlations on each chunk ([corr_pulse]).
    - [Engine.v], Module [Engine]: the interface between the page and
      the engines, a type class [Engine] (encode, decode, samples needed,
      the messages the framing carries, the carrier condition for
      decoding) with its abstract contract [EngineLaws]; the instances
      [lsb_engine] and [echo_engine d0 d1 alpha] are the engines as the
      page calls them, and [pipeline] is the read-encode-write shape both
      encoders share.
    - [App.v], Module [App]: the Streamlit page (app.py 175-312):
      [app_page] is its configuration, title and two tabs, each tab a
      function, [encode_tab] and [decode_tab], from the widget values
      (uploads as [option wav], the text area, the technique, the sliders,
      the button) to the list of elements the page shows; the
      [try]/[except Exception] blocks are [encode_action] and
      [decode_action], which turn a [PyRaise] into an error element
      carrying [exn_text] ([str(e)]).  [engine_of] is the dispatch on the
      select box; the page's theorems are proved against [EngineLaws].
    - [Snr.v], Module [Snr]: [src/snr.py] as a whole ([snr_main]): the
      three reads ([wavfile_read]), the truncation of the arrays
      ([pcm_take]), [calculate_snr] on arrays of one shape
      ([calculate_snr_arr]) with the powers in [Z] and [np.log10] in [R]
      ([pyfloat] adds the two infinities); the noise of the echo stego
      file of a pulse train is computed from [EchoCarrier].
    - [Stoi.v], Module [Stoi]: [src/stoi.py] as a whole ([stoi_main]):
      the three [wavfile.read] calls ([wavfile_read]: the int16 frames as
      a one-dimensional [pcm] for one channel, as rows of [nchannels]
      samples otherwise), the rate check, the channel mean and the
      truncation before the calls to [stoi], a variable of the Section.
    - [Pesq.v], Module [Pesq]: [src/pesq_eval.py] as a whole
      ([pesq_main]): the reads, [convert_to_mono], [resample_audio], the
      rate and mode selection ([pesq_inputs]) and the calls; [resample]
      and [pesq] are variables of the Section.

    ** What is proved (claim ids C1-C40 in the doc comments)

    - Framing (BitCodec): the round trip for messages of characters in
      [1..255] (LSB) or [1..127] (echo) with no ["###"] before their own
      terminator (C17, C23); that the decoder returns at the *first*
      terminator, so ["a###b"] decodes to ["a"] (C3); that a rejected
      character ends decoding (C18); that code points of 256 and more are
      not checked and lengthen the stream (C16).
    - LSB: the round trip on any buffer with room for
      [8 * (len(m) + 3)] samples (C1), on WAV files through the engine
      contract (C38) and the page (C24); the capacity
      boundary (C2); the exact effect on every sample (C4), the
      preservation of the upper fifteen bits (C5); re-encoding a stego
      file with the same message gives the same file, the low bit being
      set and not toggled (C19); "No hidden message found" on a buffer
      whose first eight samples are even, a silent one among them
      (C11).
    - Echo: the encoder's closed form (C7), its untouched prefix (C15)
      and suffix past the last echo window (C6), its capacity test (C8);
      the decoder visits every chunk (C14), truncates to the shorter
      buffer (C13), finds nothing in an unmodified buffer (C10) and
      nothing at all when [d0 = d1] (C9); the round trip on pulse-train
      carriers, one pulse per chunk, through the int16 cast (C40), and on
      such a recording end to end through the page at the real chunk
      size of 8192 (C12).
    - Container: [np.frombuffer] after [tobytes] (C20), [ValueError] on
      an odd frame buffer (C21), the range of the cast (C22).
    - Engines against their contract: the LSB engine refines
      [EngineLaws] with no condition on the carrier (C38); the echo
      engine meets it when each chunk's correlation test reads back its
      bit ([echo_engine_laws], a lemma the page uses; C40 and C12
      discharge that condition on pulse trains).
    - Page: the round trip through both tabs for either technique, the
      download button carrying a file of the upload's length and header
      (C24); the "too large" error for either technique exactly when the
      file lacks the samples (C25); a file that does not read is reported
      as an error, not propagated (C26); every click gets a success or
      exactly one error (C37).
    - SNR: [float('inf')] exactly for an unchanged signal (C27); the
      noise of an LSB embedding is the number of flipped low bits (C28),
      so its SNR is at least [10 * log10(signal_power / n)] dB for [n]
      framed bits (C29); the noise of echo hiding on a pulse train is
      exactly [n * E^2], [E] the int16 echo of one pulse, which gives its
      SNR in closed form (C35); run on an uploaded original and two page
      downloads, the first by LSB, the script never raises and reports
      that bound for the LSB file (C36).
    - STOI: run on an uploaded original and two files the encode tab
      offered for download from it, the script never raises and compares
      arrays of the original's length (C30); in general [stoi] is called
      on prefixes of one length, that of the shortest file (C31).
    - PESQ: the call is at 8 kHz narrow-band or 16 kHz wide-band on
      signals of one length (C32); the stego files' own rates are ignored
      when the original is at 8 or 16 kHz (C33, a finding); the mono mix
      stays in the int16 range (C34); run on an uploaded original at a
      nonzero rate and two page downloads, the script never raises, and
      at 8 or 16 kHz it compares the whole mono original with stego
      signals of its length (C39).
    Each claim with a hypothesis has a witness lemma ([..._witness],
    ending in [Defined]) that applies it to concrete data.

    ** Modelling choices, bounds and fuel

    - Python strings are lists of code points ([list N]); bits are
      [bool]s; Python integers are [Z]; indices and lengths are [nat]
      (Python's negative differences, as in [len(samples) - max_delay],
      only ever reach a [break] or an empty [range], which the truncated
      subtraction reproduces).
    - No fuel is needed: every loop is structural ([decode_loop] on the
      bit list, eight bits per step; [embed_loop] and [echo_loop] on the
      bit list; [chunk_loop] on its iteration count).
    - The echo engine computes in [float32]; here the encoder computes
      exactly in [Q] (exact in [float32] too for [alpha = 0.5] and int16
      input) and the decoder exactly in [Z] (the difference of two int16
      buffers is exact in [float32]; the products and sums are not).
      Decisions of the real decoder on near-ties may therefore differ.
    - The chunk size is a parameter of the echo definitions; the source
      fixes it at [chunk_size = 8192].  Concrete echo witnesses use small
      chunks to keep evaluation fast; the capacity example of the
      specification is evaluated at 8192.
    - The WAV header ([wave] module) is library code: its parameters are
      carried unchanged; only the frame bytes are modelled.
    - The quality scripts compute in [float64] and [float32].  Their sums
      of squares of int16 values are exact in [float64] below 2^21
      samples, so the SNR powers are [Z]; the ratio and the logarithm are
      real numbers (Stdlib [Reals], whose axioms the kernel check lists),
      so the rounding of the division and of [np.log10] is not modelled.
      The channel means are exact in [Q] (exact in [float32] for one or
      two int16 channels); [astype(np.int16)] truncates toward zero and
      keeps the low sixteen bits ([float_to_int16]), as the x86
      conversion does for values beyond the int16 range.
    - The library metrics and [scipy.signal.resample] are variables of
      Sections: the theorems hold for every function in their place.

    ** Not modelled

    - The rendering of the Streamlit widgets (columns, spinner, the
      [st.audio] players) and its rerun-on-interaction execution model:
      one run of the script with given widget values is modelled.
    - The [print] calls of the quality scripts and their float formatting
      (output only); the header parsing of [wave] and [wavfile.read]
      (library code: the header is an opaque record, [wavfile_read] only
      shapes the int16 frames, and every file is read as 16-bit PCM);
      what [pystoi.stoi], [pesq.pesq] and
      [scipy.signal.resample] compute (libraries the scripts only call).
    - [float32] and [float64] rounding, as said above: the echo
      decoder's correlations and the SNR's logarithm are exact here.
    - Echo decoding on carriers other than pulse trains: the per-chunk
      correlation test is a hypothesis there ([echo_roundtrip_samples],
      [echo_engine_laws]), since whether it holds depends on the audio,
      and on real audio it can fail.
    - numpy broadcasting between arrays of different shapes in snr.py
      ([original - stego]): the model raises [ValueError] on every shape
      mismatch, where numpy accepts a few (a one-frame array, or a frame
      count equal to the channel count).  The files the page writes
      always have the original's shape. *)

(** * Prelude: what the components of the development share

    - [pyres], a small exception monad standing for the Python exceptions
      that the source lets propagate (a malformed frame buffer makes
      [np.frombuffer] raise [ValueError], a zero sampling rate makes the
      PESQ script divide by zero); it is made a stdpp monad so
      that [x ← m; k] reads like the straight-line Python code;
    - bit strings as [list bool], most significant bit first, with
      [bits_value] (Python's [int(s, 2)]) and [to_bits] (fixed-width
      binary), and their round trip;
    - Python slices [l[a:b]] as [slice];
    - [endswith] through stdpp's [suffix_of], and an [infix_of] relation
      with its decision procedure, used to state where a terminator
      occurs;
    - the hint databases and the tactics shared by the proofs. *)

From stdpp Require Export base list numbers.
From Stdlib Require Export ZArith Lia.

Declare Scope stego_scope.
Delimit Scope stego_scope with stego.
Create HintDb stego.
Create Rewrite HintDb stego_rw.

(** ** Tactics *)

(** Close a decidable goal on concrete data by evaluating its decision
    procedure. *)
Ltac decide_concrete := apply (bool_decide_unpack _); vm_compute; reflexivity.

(** ** Python built-ins *)

(** [min(len(a), len(b), len(c))] *)
Definition min_len3 (a b c : nat) : nat := Nat.min a (Nat.min b c).

(** ** Python exceptions *)

Inductive py_exn : Type :=
| ValueError
| ZeroDivisionError.

Inductive pyres (A : Type) : Type :=
| PyOk (a : A)
| PyRaise (e : py_exn).
Arguments PyOk {A} a.
Arguments PyRaise {A} e.

#[export] Instance pyres_ret : MRet pyres := λ A a, PyOk a.
#[export] Instance pyres_bind : MBind pyres :=
  λ A B f m, match m with PyOk a => f a | PyRaise e => PyRaise e end.

Lemma pyres_bind_ok {A B} (a : A) (f : A → pyres B) : (PyOk a ≫= f) = f a.
Proof. reflexivity. Qed.

Lemma pyres_bind_raise {A B} e (f : A → pyres B) : (PyRaise e ≫= f) = PyRaise e.
Proof. reflexivity. Qed.

#[export] Hint Rewrite @pyres_bind_ok @pyres_bind_raise : stego_rw.

(** ** Bit strings, most significant bit first *)

(** Python's [int("".join(bits), 2)]. *)
Definition bits_value (bs : list bool) : N :=
  fold_left (λ acc b, 2 * acc + N.b2n b)%N bs 0%N.

(** [w] binary digits of [n], most significant first: the digits of
    [format(n, "0wb")] when [n < 2^w]. *)
Fixpoint to_bits (w : nat) (n : N) : list bool :=
  match w with
  | O => []
  | S w' => N.testbit n (N.of_nat w') :: to_bits w' n
  end.

(** ** Python slices and membership of a sub-list *)

(** [l[a:b]] for non-negative [a] and [b]. *)
Definition slice {A} (l : list A) (a b : nat) : list A := take (b - a) (drop a l).

(** [k] occurs contiguously in [l] (Python's [k in l] on strings). *)
Definition infix_of {A} (k l : list A) : Prop := ∃ l1 l2, l = l1 ++ k ++ l2.

Fixpoint infixb `{EqDecision A} (k l : list A) : bool :=
  bool_decide (k `prefix_of` l) ||
  match l with [] => false | _ :: l' => infixb k l' end.

(** ** Lemmas on bit strings *)

Section BitLemmas.
Local Open Scope N_scope.

Let step (acc : N) (b : bool) : N := 2 * acc + N.b2n b.

Lemma bits_value_acc (bs : list bool) (acc : N) :
  fold_left step bs acc = acc * 2 ^ N.of_nat (length bs) + bits_value bs.
Proof.
  revert acc. induction bs as [|b bs IH]; intros acc; cbn [fold_left length].
  - change (N.of_nat 0) with 0. rewrite N.pow_0_r. cbn. lia.
  - unfold bits_value. cbn [fold_left]. fold step.
    rewrite !IH, Nat2N.inj_succ, N.pow_succ_r'. unfold step. destruct b; cbn; nia.
Qed.

Lemma bits_value_cons (b : bool) (bs : list bool) :
  bits_value (b :: bs) = N.b2n b * 2 ^ N.of_nat (length bs) + bits_value bs.
Proof. unfold bits_value at 1. cbn [fold_left]. fold step. rewrite bits_value_acc. destruct b; cbn; lia. Qed.

Lemma bits_value_app (xs ys : list bool) :
  bits_value (xs ++ ys) = bits_value xs * 2 ^ N.of_nat (length ys) + bits_value ys.
Proof. unfold bits_value at 1. rewrite fold_left_app. fold step. apply bits_value_acc. Qed.

Lemma bits_value_lt (bs : list bool) : bits_value bs < 2 ^ N.of_nat (length bs).
Proof.
  induction bs as [|b bs IH]; [cbn; lia|].
  rewrite bits_value_cons. cbn [length]. rewrite Nat2N.inj_succ, N.pow_succ_r'.
  destruct b; cbn; lia.
Qed.

Lemma length_to_bits (w : nat) (n : N) : length (to_bits w n) = w.
Proof. induction w; cbn; auto. Qed.

Lemma bits_value_to_bits (w : nat) (n : N) : bits_value (to_bits w n) = n mod 2 ^ N.of_nat w.
Proof.
  induction w as [|w IH]; [cbn; rewrite N.mod_1_r; reflexivity|].
  cbn [to_bits]. rewrite bits_value_cons, length_to_bits, IH, N.testbit_eqb.
  rewrite Nat2N.inj_succ, N.pow_succ_r', (N.mul_comm 2), N.Private_NDivProp.mod_mul_r by
    (try apply N.pow_nonzero; lia).
  assert ((n / 2 ^ N.of_nat w) mod 2 < 2) by (apply N.mod_lt; lia).
  set (P := 2 ^ N.of_nat w) in *. set (M := n mod P).
  set (q := (n / P) mod 2) in *.
  destruct (N.eqb_spec q 1) as [->|E]; [|replace q with 0 by lia]; cbn [N.b2n]; lia.
Qed.

Lemma bits_value_to_bits_small (w : nat) (n : N) :
  n < 2 ^ N.of_nat w → bits_value (to_bits w n) = n.
Proof. intros. rewrite bits_value_to_bits. apply N.mod_small; lia. Qed.
End BitLemmas.

#[export] Hint Rewrite length_to_bits bits_value_app : stego_rw.

(** ** Lemmas on slices and sub-lists *)

(** Three arrays of one length are not truncated. *)
Lemma min_len3_same (n : nat) : min_len3 n n n = n.
Proof. unfold min_len3. lia. Qed.

Lemma length_slice {A} (l : list A) (a b : nat) :
  length (slice l a b) = Nat.min (b - a) (length l - a).
Proof. unfold slice. rewrite length_take, length_drop. lia. Qed.

Lemma lookup_slice {A} (l : list A) (a b i : nat) :
  slice l a b !! i = if bool_decide (i < b - a) then l !! (a + i) else None.
Proof.
  unfold slice. case_bool_decide; [by rewrite lookup_take_lt, lookup_drop by done|].
  by rewrite lookup_take_ge by lia.
Qed.

Lemma slice_take {A} (l : list A) (n a b : nat) :
  b ≤ n → slice (take n l) a b = slice l a b.
Proof. intros Hb. unfold slice. rewrite skipn_firstn_comm, take_take. f_equal. lia. Qed.

Lemma Forall_slice {A} (P : A → Prop) (l : list A) (a b : nat) :
  Forall P l → Forall P (slice l a b).
Proof. intros H. by apply Forall_take, Forall_drop. Qed.

#[export] Hint Resolve Forall_slice : stego.

Lemma infixb_spec `{EqDecision A} (k l : list A) : infixb k l = true ↔ infix_of k l.
Proof.
  induction l as [|x l IH]; cbn [infixb]; rewrite orb_true_iff, bool_decide_eq_true.
  - split.
    + intros [Hp|?]; [|done]. apply prefix_nil_inv in Hp as ->. by exists [], [].
    + intros (l1 & l2 & E). left. destruct l1, k; done.
  - rewrite IH. split.
    + intros [[r ->]|(l1 & l2 & ->)].
      * by exists [], r.
      * by exists (x :: l1), l2.
    + intros ([|y l1] & l2 & E); cbn in E.
      * left. by exists l2.
      * injection E as -> ->. right. by exists l1, l2.
Qed.

#[export] Instance infix_of_dec `{EqDecision A} (k l : list A) : Decision (infix_of k l).
Proof. destruct (infixb k l) eqn:E; [left | right]; rewrite <- infixb_spec; congruence. Defined.

Lemma not_infix_of_infixb `{EqDecision A} (k l : list A) : infixb k l = false → ¬ infix_of k l.
Proof. rewrite <- infixb_spec. congruence. Qed.

#[export] Instance Forall_decision {A} (P : A → Prop) {H : ∀ x, Decision (P x)} (l : list A) :
  Decision (Forall P l) := Forall_dec P H l.

Lemma suffix_infix_of {A} (k l : list A) : k `suffix_of` l → infix_of k l.
Proof. intros [r ->]. by exists r, []; rewrite app_nil_r. Qed.

Lemma infix_of_app_r {A} (k l r : list A) : infix_of k l → infix_of k (l ++ r).
Proof. intros (l1 & l2 & ->). exists l1, (l2 ++ r). by rewrite <- !app_assoc. Qed.

Lemma infix_of_app_l {A} (k l r : list A) : infix_of k l → infix_of k (r ++ l).
Proof. intros (l1 & l2 & ->). exists (r ++ l1), l2. by rewrite <- !app_assoc. Qed.

#[export] Hint Resolve suffix_infix_of infix_of_app_r infix_of_app_l : stego.
