(* ===== verification/BitCodec.v ===== *)
(** * BitCodec: the framing between a text message and a bit stream

    Models the framing that [src/app.py] writes inline in each engine:
    - [message += "###"] and
      [bits = "".join(format(ord(c), "08b") for c in message)]
      (lines 36-37 and 83-84), as [encode_bits];
    - the loop that reads the bits back eight at a time and stops at the
      terminator (lines 58-73 of [decode_lsb], lines 151-172 of
      [decode_echo_simple]), as [decode_loop], with the two stop tests of
      the two decoders ([lsb_stop], [echo_stop]).
    A Python [str] is its list of code points ([list N]); a bit string is
    a [list bool], most significant bit first.  [scan_chars] is the same
    loop one character at a time; [decode_loop_bytes] shows that the
    bit-level loop refines it on any stream of 8-bit characters. *)

From Stdlib Require Import String Ascii.
From S2P Require Import Prelude.

Module BitCodec.

(** A Python string, as its sequence of code points. *)
Definition message : Type := list N.

(** The code points of a string literal (ASCII only). *)
Fixpoint codes (s : string) : message :=
  match s with
  | EmptyString => []
  | String a s' => N_of_ascii a :: codes s'
  end.

Definition hash : N := 35.

(** ["###"] *)
Definition terminator : message := [hash; hash; hash].

(** [format(c, "08b")]: the binary digits of [c], zero-padded to eight;
    a code point of more than eight bits keeps all of its digits. *)
Definition format_08b (c : N) : list bool :=
  to_bits (Nat.max 8 (N.to_nat (N.size c))) c.

(** [message += "###"; bits = "".join(format(ord(c), "08b") for c in message)] *)
Definition encode_bits (m : message) : list bool :=
  flat_map format_08b (m ++ terminator).

(** ["".join(chars).endswith("###")] *)
Definition endswith_terminator (chars : message) : bool :=
  bool_decide (terminator `suffix_of` chars).

(** The decoding loop: [for i in range(0, len(bits), 8)], with
    [byte = bits[i:i+8]], the break on a short tail, the break on a
    rejected value ([stop]), the append, and the return of
    ["".join(chars)[:-3]] once the characters end with the terminator.
    [None] is the fall-through to "No hidden message found". *)
Fixpoint decode_loop (stop : N → bool) (chars : message) (bits : list bool)
    : option message :=
  match bits with
  | b0 :: b1 :: b2 :: b3 :: b4 :: b5 :: b6 :: b7 :: rest =>
      let char_val := bits_value [b0; b1; b2; b3; b4; b5; b6; b7] in
      if stop char_val then None
      else
        let chars' := chars ++ [char_val] in
        if endswith_terminator chars' then Some (take (length chars' - 3) chars')
        else decode_loop stop chars' rest
  | _ => None
  end.

(** [if char_val == 0: break] in [decode_lsb] (line 65). *)
Definition lsb_stop (v : N) : bool := bool_decide (v = 0%N).

(** [if char_val == 0 or char_val > 127: break] in [decode_echo_simple]
    (line 161); the [try]/[except] around [chr] never fires on
    [1..127]. *)
Definition echo_stop (v : N) : bool := bool_decide (v = 0%N) || bool_decide (127 < v)%N.

Definition decode_bits_lsb (bits : list bool) : option message := decode_loop lsb_stop [] bits.
Definition decode_bits_echo (bits : list bool) : option message := decode_loop echo_stop [] bits.

(** The string both decoders return when no terminator is found. *)
Definition not_found : message := codes "No hidden message found".

(** The decoding loop one character at a time: [inl r] when the loop
    has returned [r], [inr chars] when it is still running. *)
Fixpoint scan_chars (stop : N → bool) (chars : message) (cs : message)
    : option message + message :=
  match cs with
  | [] => inr chars
  | c :: cs' =>
      if stop c then inl None
      else
        let chars' := chars ++ [c] in
        if endswith_terminator chars' then inl (Some (take (length chars' - 3) chars'))
        else scan_chars stop chars' cs'
  end.

(** A character the decoder reads back as itself: eight bits, not
    rejected by the stop test. *)
Definition byte_char (stop : N → bool) (c : N) : Prop := (c < 256)%N ∧ stop c = false.

(** ** Encoding *)

Lemma size_byte (c : N) : (c < 256)%N → N.to_nat (N.size c) ≤ 8.
Proof.
  intros Hc. destruct (decide (c = 0%N)) as [->|Hc0]; [cbn; lia|].
  rewrite N.size_log2 by done.
  assert (N.log2 c < 8)%N by (apply N.log2_lt_pow2; lia). lia.
Qed.

Lemma format_08b_byte (c : N) : (c < 256)%N → format_08b c = to_bits 8 c.
Proof. intros Hc. unfold format_08b. f_equal. pose proof (size_byte c Hc). lia. Qed.

Lemma flat_map_format_bytes (cs : message) :
  Forall (λ c, c < 256)%N cs → flat_map format_08b cs = flat_map (to_bits 8) cs.
Proof.
  induction 1 as [|c cs Hc _ IH]; [done|]. cbn. by rewrite format_08b_byte, IH.
Qed.

Lemma length_flat_map_bytes (cs : message) :
  Forall (λ c, c < 256)%N cs → length (flat_map format_08b cs) = 8 * length cs.
Proof.
  induction 1 as [|c cs Hc _ IH]; [done|].
  cbn [flat_map length]. rewrite length_app, format_08b_byte, length_to_bits, IH by done. lia.
Qed.

(** ** The decoding loop *)

(** One iteration of the loop, on the eight bits of one character. *)
Lemma decode_loop_byte (stop : N → bool) (chars : message) (bs rest : list bool) :
  length bs = 8 →
  decode_loop stop chars (bs ++ rest) =
    let char_val := bits_value bs in
    if stop char_val then None
    else
      let chars' := chars ++ [char_val] in
      if endswith_terminator chars' then Some (take (length chars' - 3) chars')
      else decode_loop stop chars' rest.
Proof.
  intros Hl. do 8 (destruct bs as [|? bs]; [discriminate|]).
  destruct bs; [reflexivity | discriminate].
Qed.

(** Fewer than eight bits left: the loop ends ([break]). *)
Lemma decode_loop_short (stop : N → bool) (chars : message) (bits : list bool) :
  length bits < 8 → decode_loop stop chars bits = None.
Proof. intros Hl. do 8 (destruct bits as [|? bits]; [done|]). cbn in Hl. lia. Qed.

Lemma bits_value_zeros (bs : list bool) : Forall (λ b, b = false) bs → bits_value bs = 0%N.
Proof.
  induction 1 as [|b bs -> _ IH]; [done|].
  rewrite bits_value_cons, IH. cbn. lia.
Qed.

(** A zero byte ends the loop with no message, for both stop tests. *)
Lemma decode_loop_zero_byte (stop : N → bool) (chars : message) (bs rest : list bool) :
  stop 0%N = true → length bs = 8 → Forall (λ b, b = false) bs →
  decode_loop stop chars (bs ++ rest) = None.
Proof. intros Hs Hl Hz. rewrite decode_loop_byte by done. cbn zeta. by rewrite bits_value_zeros, Hs. Qed.

(** A stream of zero bits holds no message. *)
Lemma decode_loop_zeros (stop : N → bool) (chars : message) (bits : list bool) :
  stop 0%N = true → Forall (λ b, b = false) bits → decode_loop stop chars bits = None.
Proof.
  intros Hs Hz. destruct (decide (length bits < 8)) as [Hl|Hl]; [by apply decode_loop_short|].
  rewrite <- (take_drop 8 bits). apply decode_loop_zero_byte; [done| |].
  - rewrite length_take. lia.
  - by apply Forall_take.
Qed.

Lemma decode_loop_bytes (stop : N → bool) (chars cs : message) (rest : list bool) :
  Forall (λ c, c < 256)%N cs →
  decode_loop stop chars (flat_map format_08b cs ++ rest) =
    match scan_chars stop chars cs with
    | inl r => r
    | inr chars' => decode_loop stop chars' rest
    end.
Proof.
  intros Hcs. revert chars. induction Hcs as [|c cs Hc _ IH]; intros chars; [done|].
  cbn [flat_map scan_chars]. rewrite format_08b_byte, <- app_assoc, decode_loop_byte
    by (done || apply length_to_bits).
  cbn zeta. rewrite bits_value_to_bits_small by (cbn; lia).
  destruct (stop c); [done|]. destruct (endswith_terminator _); [done|]. apply IH.
Qed.

Lemma scan_chars_app (stop : N → bool) (chars xs ys : message) :
  scan_chars stop chars (xs ++ ys) =
    match scan_chars stop chars xs with
    | inl r => inl r
    | inr chars' => scan_chars stop chars' ys
    end.
Proof.
  revert chars. induction xs as [|x xs IH]; intros chars; [done|]. cbn.
  destruct (stop x); [done|]. destruct (endswith_terminator _); [done|]. apply IH.
Qed.

(** Characters that are read back, with no terminator among the
    characters read so far, leave the loop running. *)
Lemma scan_chars_clean (stop : N → bool) (chars xs : message) :
  Forall (λ c, stop c = false) xs →
  ¬ infix_of terminator (chars ++ xs) →
  scan_chars stop chars xs = inr (chars ++ xs).
Proof.
  intros Hxs. revert chars. induction Hxs as [|x xs Hx _ IH]; intros chars Hinf.
  - by rewrite app_nil_r.
  - cbn. rewrite Hx. unfold endswith_terminator. case_bool_decide as Hsuf.
    + exfalso. apply Hinf. replace (chars ++ x :: xs) with ((chars ++ [x]) ++ xs)
        by by rewrite <- app_assoc. eauto with stego.
    + rewrite IH; [by rewrite <- app_assoc|]. by rewrite <- app_assoc.
Qed.

(** ** The decoder returns at the first terminator *)

Section FirstTerminator.
Context (stop : N → bool).
Hypothesis stop_hash : stop hash = false.

Lemma scan_chars_first_terminator (p : message) :
  Forall (λ c, stop c = false) p →
  ¬ infix_of terminator (p ++ [hash; hash]) →
  scan_chars stop [] (p ++ terminator) = inl (Some p).
Proof.
  intros Hp Hinf.
  replace (p ++ terminator) with ((p ++ [hash; hash]) ++ [hash])
    by by rewrite <- app_assoc.
  rewrite scan_chars_app, scan_chars_clean.
  - cbn. rewrite stop_hash. unfold endswith_terminator.
    rewrite bool_decide_eq_true_2.
    + f_equal. f_equal. rewrite <- !app_assoc. cbn.
      rewrite take_app_length' by (rewrite length_app; cbn; lia). done.
    + rewrite <- app_assoc. by exists p.
  - apply Forall_app. split; [done|]. repeat constructor; apply stop_hash.
  - done.
Qed.
End FirstTerminator.

(** ** Properties of the codec *)

Lemma byte_chars_accepted (stop : N → bool) (p : message) :
  Forall (byte_char stop) p → Forall (λ c, stop c = false) p.
Proof. apply Forall_impl. by intros c []. Qed.

Lemma byte_chars_small (stop : N → bool) (p : message) :
  Forall (byte_char stop) p → Forall (λ c, c < 256)%N p.
Proof. apply Forall_impl. by intros c []. Qed.

Lemma terminator_small : Forall (λ c, c < 256)%N terminator.
Proof. repeat constructor; cbv; done. Qed.

#[local] Hint Resolve byte_chars_accepted byte_chars_small terminator_small : stego.

(** For a message of 8-bit characters, [encode_bits] emits exactly
    eight bits per character and eight per terminator character. *)
Lemma length_encode_bits (m : message) :
  Forall (λ c, c < 256)%N m → length (encode_bits m) = 8 * (length m + 3).
Proof.
  intros Hm. unfold encode_bits. rewrite length_flat_map_bytes, length_app by
    (apply Forall_app; split; [done|]; repeat constructor; cbv; done).
  cbn. lia.
Qed.

(** The decoder stops at the first terminator of the framed stream: any
    prefix [p] of 8-bit, accepted characters, with no terminator inside
    [p ++ "##"], is returned whatever follows it. *)
Lemma decode_first_terminator (stop : N → bool) (p : message) (rest : list bool) :
  stop hash = false →
  Forall (byte_char stop) p →
  ¬ infix_of terminator (p ++ [hash; hash]) →
  decode_loop stop [] (flat_map format_08b (p ++ terminator) ++ rest) = Some p.
Proof.
  intros Hh Hp Hinf.
  rewrite decode_loop_bytes, scan_chars_first_terminator; eauto with stego.
  apply Forall_app; split; eauto with stego.
Qed.

(** C17. Round trip of the framing: [decode_bits_lsb]
    recovers every message of characters in [1..255] that holds no
    ["###"] before its own terminator, whatever bits follow the frame. *)
Theorem decode_encode_lsb (m : message) (rest : list bool) :
  Forall (byte_char lsb_stop) m →
  ¬ infix_of terminator (m ++ [hash; hash]) →
  decode_bits_lsb (encode_bits m ++ rest) = Some m.
Proof. intros. by apply decode_first_terminator. Qed.

(** C23. The same round trip for the echo decoder, on characters in
    [1..127]. *)
Theorem decode_encode_echo (m : message) (rest : list bool) :
  Forall (byte_char echo_stop) m →
  ¬ infix_of terminator (m ++ [hash; hash]) →
  decode_bits_echo (encode_bits m ++ rest) = Some m.
Proof. intros. by apply decode_first_terminator. Qed.

(** C3. A message with ["###"] in its body decodes to the part before
    the first ["###"]: the rest of the message is lost (the check runs
    after every character, so it finds the first terminator, not the
    trailing one). *)
Theorem decode_embedded_terminator (p s : message) (rest : list bool) :
  Forall (byte_char lsb_stop) p →
  ¬ infix_of terminator (p ++ [hash; hash]) →
  decode_bits_lsb (encode_bits (p ++ terminator ++ s) ++ rest) = Some p.
Proof.
  intros Hp Hinf. unfold encode_bits, decode_bits_lsb.
  rewrite <- !app_assoc, (app_assoc p terminator), (flat_map_app _ (p ++ terminator)),
    <- app_assoc.
  by apply decode_first_terminator.
Qed.

(** C18. A character that the decoder rejects ([0], or above [127] for
    the echo decoder) ends decoding with "no message", whatever follows
    it. *)
Theorem decode_rejected_char (stop : N → bool) (p : message) (c : N) (rest : list bool) :
  Forall (byte_char stop) p →
  ¬ infix_of terminator p →
  (c < 256)%N → stop c = true →
  decode_loop stop [] (flat_map format_08b (p ++ [c]) ++ rest) = None.
Proof.
  intros Hp Hinf Hc Hs.
  rewrite decode_loop_bytes, scan_chars_app, scan_chars_clean by
    (done || eauto with stego || (apply Forall_app; split; eauto with stego)).
  cbn. by rewrite Hs.
Qed.

(** ** Characters wider than a byte *)

Lemma size_wide (c : N) : (256 ≤ c)%N → 8 < N.to_nat (N.size c).
Proof.
  intros Hc. rewrite N.size_log2 by lia.
  assert (8 ≤ N.log2 c)%N by (change 8%N with (N.log2 (2 ^ 8)); apply N.log2_le_mono; lia).
  lia.
Qed.

Lemma length_format_08b (c : N) : 8 ≤ length (format_08b c).
Proof. unfold format_08b. rewrite length_to_bits. lia. Qed.

Lemma length_flat_map_format (cs : message) : 8 * length cs ≤ length (flat_map format_08b cs).
Proof.
  induction cs as [|c cs IH]; [done|]. cbn [flat_map length].
  rewrite length_app. pose proof (length_format_08b c). lia.
Qed.

(** C16. [encode_bits] does not check that a character fits in a byte:
    a code point of 256 or more keeps all its binary digits, so the
    stream is longer than eight bits per character and every later
    character is read out of alignment. *)
Theorem length_encode_bits_wide (m : message) :
  Exists (λ c, 256 ≤ c)%N m → 8 * (length m + 3) < length (encode_bits m).
Proof.
  unfold encode_bits. rewrite flat_map_app, length_app.
  replace (length (flat_map format_08b terminator)) with 24 by reflexivity.
  induction 1 as [c m Hc|c m _ IH]; cbn [flat_map length]; rewrite length_app.
  - pose proof (length_flat_map_format m).
    assert (8 < length (format_08b c)) by
      (unfold format_08b; rewrite length_to_bits; pose proof (size_wide c Hc); lia).
    lia.
  - pose proof (length_format_08b c). lia.
Qed.

Lemma length_encode_bits_wide_witness :
  8 * (length [256%N] + 3) < length (encode_bits [256%N]) ∧
  decode_bits_lsb (encode_bits [256%N]) = None.
Proof.
  split; [apply length_encode_bits_wide; by repeat constructor | vm_compute; reflexivity].
Defined.

(** ** Concrete instances *)

Lemma decode_encode_lsb_witness : decode_bits_lsb (encode_bits (codes "HI") ++ []) = Some (codes "HI").
Proof.
  apply decode_encode_lsb; [repeat constructor | apply not_infix_of_infixb; reflexivity].
Defined.

Lemma decode_encode_echo_witness :
  decode_bits_echo (encode_bits (codes "Hi") ++ [true; false]) = Some (codes "Hi").
Proof.
  apply decode_encode_echo; [repeat constructor | apply not_infix_of_infixb; reflexivity].
Defined.

(** "a###b" decodes to "a". *)
Lemma decode_embedded_terminator_witness :
  decode_bits_lsb (encode_bits (codes "a" ++ terminator ++ codes "b") ++ []) = Some (codes "a").
Proof.
  apply (decode_embedded_terminator (codes "a") (codes "b"));
    [repeat constructor | apply not_infix_of_infixb; reflexivity].
Defined.

(** "A", a NUL character, then "B": no message. *)
Lemma decode_rejected_char_witness :
  decode_loop lsb_stop [] (flat_map format_08b (codes "A" ++ [0%N]) ++ encode_bits (codes "B"))
    = None.
Proof.
  apply (decode_rejected_char lsb_stop (codes "A") 0%N);
    [repeat constructor | apply not_infix_of_infixb; reflexivity | reflexivity | reflexivity].
Defined.

End BitCodec.
