(* ===== verification/Samples.v ===== *)
(** * Samples: the sample buffer and the container collaborator

    Models what [src/app.py] does to samples around the two engines:
    - [read_wav_bytes] (lines 8-14): the frame bytes of a parsed WAV
      file are read by [np.frombuffer(frames, dtype=np.int16)], two
      little-endian bytes per sample ([samples_of_frames]), which raises
      [ValueError] on an odd number of bytes;
    - [write_wav_bytes] (lines 17-28): [np.clip] to the int16 range, the
      [np.int16] cast that truncates toward zero ([quantize]), and
      [tobytes] ([frames_of_samples]);
    - the reinterpretations [.view(np.uint16)] and [.view(np.int16)] of
      a 16-bit pattern ([to_u16], [to_i16]).
    The WAV header parser and writer ([wave.open]) are library code: a
    WAV file is modelled as its header parameters (carried unchanged) and
    its frame bytes.  Samples that the source holds as [float32] are
    int16 values there, which [float32] represents exactly; they are [Z]
    here, and the echo engine's fractional samples are [Q]. *)

From Stdlib Require Import QArith Qround Qminmax Strings.Byte String.
From S2P Require Import Prelude.

Module Samples.
Local Open Scope Z_scope.

(** ** 16-bit samples *)

Definition int16_min : Z := -32768.
Definition int16_max : Z := 32767.

Definition is_int16 (z : Z) : Prop := int16_min ≤ z ≤ int16_max.

#[export] Instance is_int16_dec (z : Z) : Decision (is_int16 z) := _.

(** [.view(np.uint16)] of an int16 sample: its two's-complement bits. *)
Definition to_u16 (s : Z) : Z := s mod 2 ^ 16.

(** [.view(np.int16)] of a 16-bit pattern. *)
Definition to_i16 (u : Z) : Z := (u + 2 ^ 15) mod 2 ^ 16 - 2 ^ 15.

(** ** Bytes *)

Definition byte_val (b : byte) : Z := Z.of_N (Byte.to_N b).

(** The low eight bits of [z] as a byte. *)
Definition byte_of_Z (z : Z) : byte :=
  match Byte.of_N (Z.to_N (z mod 256)) with
  | Some b => b
  | None => Byte.x00
  end.

(** [np.frombuffer(frames, dtype=np.int16)]: little-endian pairs;
    [None] is the [ValueError] on a buffer of odd length. *)
Fixpoint samples_of_frames (bs : list byte) : option (list Z) :=
  match bs with
  | [] => Some []
  | lo :: hi :: rest =>
      s ← samples_of_frames rest;
      Some (to_i16 (byte_val lo + 256 * byte_val hi) :: s)
  | [_] => None
  end.

(** [samples.tobytes()] of an int16 array, little-endian. *)
Definition frames_of_samples (xs : list Z) : list byte :=
  flat_map (λ s, [byte_of_Z s; byte_of_Z (Z.shiftr s 8)]) xs.

(** ** Clipping and the int16 cast *)

(** [np.clip(x, -32768, 32767)], that is [minimum(maximum(x, lo), hi)]. *)
Definition clip (q : Q) : Q := Qmin (inject_Z int16_max) (Qmax (inject_Z int16_min) q).

(** The C cast to an integer type: truncation toward zero. *)
Definition q_trunc (q : Q) : Z := if Qle_bool 0 q then Qfloor q else Qceiling q.

(** [np.int16(np.clip(x, -32768, 32767))] on one sample. *)
Definition quantize (q : Q) : Z := q_trunc (clip q).

(** ** The container *)

(** [audio.getparams()]: carried unchanged from the input file to the
    output file. *)
Record wav_params : Type := {
  nchannels : Z; sampwidth : Z; framerate : Z; nframes : Z;
  comptype : string; compname : string }.

Record wav : Type := { wav_header : wav_params; wav_frames : list byte }.

(** [read_wav_bytes]: the samples and the parameters. *)
Definition read_wav_bytes (w : wav) : pyres (list Z * wav_params) :=
  match samples_of_frames (wav_frames w) with
  | Some s => PyOk (s, wav_header w)
  | None => PyRaise ValueError
  end.

(** [write_wav_bytes]: clip, cast, serialise. *)
Definition write_wav_bytes (samples : list Q) (params : wav_params) : wav :=
  {| wav_header := params; wav_frames := frames_of_samples (quantize <$> samples) |}.

(** ** The 16-bit views *)

Lemma to_u16_range (s : Z) : 0 ≤ to_u16 s < 65536.
Proof. unfold to_u16. apply Z.mod_pos_bound. lia. Qed.

Lemma to_i16_range (u : Z) : is_int16 (to_i16 u).
Proof.
  unfold is_int16, to_i16, int16_min, int16_max.
  pose proof (Z.mod_pos_bound (u + 2 ^ 15) (2 ^ 16)). lia.
Qed.

Lemma to_i16_to_u16 (s : Z) : is_int16 s → to_i16 (to_u16 s) = s.
Proof.
  unfold is_int16, to_i16, to_u16, int16_min, int16_max. intros Hs.
  rewrite Zplus_mod_idemp_l, Z.mod_small; lia.
Qed.

Lemma to_u16_to_i16 (u : Z) : 0 ≤ u < 65536 → to_u16 (to_i16 u) = u.
Proof.
  unfold to_i16, to_u16. intros Hu.
  rewrite <- Zminus_mod_idemp_l, Zmod_mod, Zminus_mod_idemp_l.
  replace (u + 2 ^ 15 - 2 ^ 15) with u by lia. apply Z.mod_small. lia.
Qed.

#[export] Hint Resolve to_i16_range to_i16_to_u16 to_u16_to_i16 : stego.

(** ** Frame bytes *)

Lemma byte_val_of_Z (z : Z) : byte_val (byte_of_Z z) = z mod 256.
Proof.
  unfold byte_val, byte_of_Z.
  pose proof (Z.mod_pos_bound z 256 ltac:(lia)).
  destruct (Byte.of_N _) as [b|] eqn:E.
  - apply Byte.to_of_N in E. rewrite E. lia.
  - apply Byte.of_N_None_iff in E. lia.
Qed.

Lemma le_pair_int16 (s : Z) :
  is_int16 s → to_i16 (s mod 256 + 256 * (Z.shiftr s 8 mod 256)) = s.
Proof.
  intros Hs. rewrite Z.shiftr_div_pow2 by lia.
  replace (s mod 256 + 256 * ((s / 2 ^ 8) mod 256)) with (to_u16 s)
    by (unfold to_u16; Z.div_mod_to_equations; lia).
  by apply to_i16_to_u16.
Qed.

Lemma length_frames_of_samples (xs : list Z) :
  length (frames_of_samples xs) = (2 * length xs)%nat.
Proof. unfold frames_of_samples. induction xs; cbn; lia. Qed.

(** [np.frombuffer] inverts [tobytes] on int16 samples. *)
Lemma samples_of_frames_of_samples (xs : list Z) :
  Forall is_int16 xs → samples_of_frames (frames_of_samples xs) = Some xs.
Proof.
  unfold frames_of_samples. induction 1 as [|x xs Hx _ IH]; [done|]. cbn.
  rewrite IH. cbn. by rewrite !byte_val_of_Z, le_pair_int16.
Qed.

(** Every sample [np.frombuffer] produces is an int16 value. *)
Lemma samples_of_frames_int16 (bs : list byte) (xs : list Z) :
  samples_of_frames bs = Some xs → Forall is_int16 xs.
Proof.
  revert xs. induction bs as [[|b0 [|b1 bs]] IH] using (induction_ltof1 _ (@length _));
    intros xs Hxs; cbn in Hxs; simplify_eq; [constructor|].
  destruct (samples_of_frames bs) as [ys|] eqn:E; cbn in Hxs; simplify_eq.
  constructor; [apply to_i16_range|]. apply (IH bs); [unfold ltof; cbn; lia|done].
Qed.

(** C21. [np.frombuffer] raises on a frame buffer of odd length. *)
Lemma samples_of_frames_odd (bs : list byte) :
  Nat.Odd (length bs) → samples_of_frames bs = None.
Proof.
  induction bs as [[|b0 [|b1 bs]] IH] using (induction_ltof1 _ (@length _));
    intros [k Hk]; cbn in *; [lia|done|].
  rewrite IH; [done| unfold ltof; cbn; lia | exists (k - 1)%nat; lia].
Qed.

(** ** Clipping and the cast *)

#[export] Instance q_trunc_proper : Proper (Qeq ==> eq) q_trunc.
Proof.
  intros x y E. unfold q_trunc. rewrite E. by rewrite (Qfloor_comp _ _ E), (Qceiling_comp _ _ E).
Qed.

#[export] Instance clip_proper : Proper (Qeq ==> Qeq) clip.
Proof. intros x y E. unfold clip. by rewrite E. Qed.

#[export] Instance quantize_proper : Proper (Qeq ==> eq) quantize.
Proof. intros x y E. unfold quantize. by rewrite E. Qed.

Lemma q_trunc_Z (z : Z) : q_trunc (inject_Z z) = z.
Proof. unfold q_trunc. destruct (Qle_bool _ _); [apply Qfloor_Z | apply Qceiling_Z]. Qed.

Lemma clip_int16 (q : Q) :
  (inject_Z int16_min <= q)%Q → (q <= inject_Z int16_max)%Q → (clip q == q)%Q.
Proof. intros Hlo Hhi. unfold clip. rewrite Q.max_r, Q.min_r; [reflexivity|done|done]. Qed.

Lemma clip_bounds (q : Q) : (inject_Z int16_min <= clip q <= inject_Z int16_max)%Q.
Proof.
  unfold clip. split.
  - apply Q.min_glb; [rewrite <- Zle_Qle; cbv; discriminate | apply Q.le_max_l].
  - apply Q.le_min_l.
Qed.

Lemma q_trunc_bounds (lo hi : Z) (q : Q) :
  lo ≤ 0 ≤ hi → (inject_Z lo <= q)%Q → (q <= inject_Z hi)%Q → lo ≤ q_trunc q ≤ hi.
Proof.
  intros Hz Hlo Hhi. unfold q_trunc. destruct (Qle_bool 0 q) eqn:E.
  - apply Qle_bool_iff in E. apply Qfloor_resp_le in E, Hhi.
    rewrite Qfloor_Z in Hhi. change (Qfloor 0%Q) with 0 in E. lia.
  - assert (q <= 0)%Q as Hq.
    { apply Qnot_lt_le. intros Hlt. apply Qlt_le_weak, Qle_bool_iff in Hlt. congruence. }
    apply Qceiling_resp_le in Hq, Hlo. rewrite Qceiling_Z in Hlo.
    change (Qceiling 0%Q) with 0 in Hq. lia.
Qed.

Lemma quantize_int16 (q : Q) : is_int16 (quantize q).
Proof.
  unfold quantize, is_int16. destruct (clip_bounds q).
  apply q_trunc_bounds; [cbv; intuition discriminate|done|done].
Qed.

(** C22. The clip and cast of [write_wav_bytes] always yield an int16
    sample, whatever the value. *)
Lemma quantize_range (q : Q) : is_int16 (quantize q).
Proof. apply quantize_int16. Qed.

(** ... and leaves an int16 sample as it is. *)
Lemma quantize_Z (z : Z) : is_int16 z → quantize (inject_Z z) = z.
Proof.
  unfold is_int16. intros [Hlo Hhi]. unfold quantize.
  rewrite (clip_int16 (inject_Z z)) by (rewrite <- Zle_Qle; done).
  apply q_trunc_Z.
Qed.

(** ** The container *)

Lemma read_write_wav_Z (xs : list Z) (p : wav_params) :
  Forall is_int16 xs →
  read_wav_bytes (write_wav_bytes (inject_Z <$> xs) p) = PyOk (xs, p).
Proof.
  intros Hxs. unfold read_wav_bytes, write_wav_bytes. cbn.
  rewrite <- list_fmap_compose, (list_fmap_ext _ id), list_fmap_id.
  - by rewrite samples_of_frames_of_samples.
  - intros i x Hx. apply quantize_Z. by eapply Forall_lookup_1.
Qed.

(** Any written file reads back, as the quantised samples. *)
Lemma read_write_wav_any (xs : list Q) (p : wav_params) :
  read_wav_bytes (write_wav_bytes xs p) = PyOk (quantize <$> xs, p).
Proof.
  unfold read_wav_bytes, write_wav_bytes. cbn.
  rewrite samples_of_frames_of_samples; [done|].
  apply Forall_fmap, Forall_true. intros q. apply quantize_int16.
Qed.

Lemma read_wav_bytes_header (f : wav) (s : list Z) (p : wav_params) :
  read_wav_bytes f = PyOk (s, p) → p = wav_header f.
Proof. unfold read_wav_bytes. destruct (samples_of_frames _); by intros [= _ <-]. Qed.

Lemma read_wav_bytes_int16 (f : wav) (s : list Z) (p : wav_params) :
  read_wav_bytes f = PyOk (s, p) → Forall is_int16 s.
Proof.
  unfold read_wav_bytes. destruct (samples_of_frames _) eqn:E; [|done].
  intros [= <- _]. by eapply samples_of_frames_int16.
Qed.

(** C20. Reading back a written file gives the samples written, when
    they are int16 values, and the same parameters. *)
Theorem read_write_wav (xs : list Z) (p : wav_params) :
  Forall is_int16 xs →
  read_wav_bytes (write_wav_bytes (inject_Z <$> xs) p) = PyOk (xs, p).
Proof. apply read_write_wav_Z. Qed.

Lemma read_write_wav_witness :
  let p := {| nchannels := 1; sampwidth := 2; framerate := 44100; nframes := 3;
              comptype := "NONE"; compname := "not compressed" |} in
  read_wav_bytes (write_wav_bytes (inject_Z <$> [-32768; -1; 32767]) p) =
    PyOk ([-32768; -1; 32767], p).
Proof. intros p. apply read_write_wav. decide_concrete. Defined.

Lemma samples_of_frames_odd_witness : samples_of_frames [Byte.x01; Byte.x02; Byte.x03] = None.
Proof. apply samples_of_frames_odd. exists 1%nat. reflexivity. Defined.

End Samples.
