(* ===== verification/LSB.v ===== *)
(** * LSB: the least-significant-bit engine

    Models [encode_lsb] (src/app.py, lines 31-47) and [decode_lsb]
    (lines 50-73).  The encoder reads the samples, frames the message
    ([BitCodec.encode_bits]), views the samples as unsigned 16-bit
    patterns, refuses a bit stream longer than the buffer, overwrites the
    low bit of sample [i] with bit [i] in an index loop ([embed_loop]),
    and writes the patterns back as int16 samples.  The decoder collects
    the low bit of every sample ([lsb_bits]) and runs the framing decoder
    with the [char_val == 0] stop test.

    [embed_ref] is the loop's closed form: the first [length bits]
    patterns updated, the others untouched.  Because the loop sets the
    low bit rather than toggling it, encoding a stego file again with
    the same message gives the same file. *)

From Stdlib Require Import QArith String Strings.Byte.
From S2P Require Import Prelude BitCodec Samples.

Module LSB.
Import BitCodec Samples.
Local Open Scope Z_scope.

(** [(flat[i] & 0xFFFE) | int(b)] *)
Definition set_lsb (u : Z) (b : bool) : Z := Z.lor (Z.land u 0xFFFE) (Z.b2z b).

(** [for i, b in enumerate(bits): flat[i] = (flat[i] & 0xFFFE) | int(b)],
    from index [i] on. *)
Fixpoint embed_loop (i : nat) (bits : list bool) (flat : list Z) : list Z :=
  match bits with
  | [] => flat
  | b :: bs => embed_loop (S i) bs (<[i := set_lsb (flat !!! i) b]> flat)
  end.

(** The loop's closed form. *)
Definition embed_ref (bits : list bool) (flat : list Z) : list Z :=
  zip_with set_lsb flat bits ++ drop (length bits) flat.

(** Lines 34-47 on the samples: [None] is the [return None] of a
    message too large for the buffer. *)
Definition encode_lsb_samples (samples : list Z) (msg : message) : option (list Z) :=
  let bits := encode_bits msg in
  let flat := to_u16 <$> samples in
  if bool_decide (length flat < length bits)%nat then None
  else Some (to_i16 <$> embed_loop 0 bits flat).

(** [encode_lsb(audio_bytes, message)] *)
Definition encode_lsb (audio : wav) (msg : message) : pyres (option wav) :=
  '(samples, params) ← read_wav_bytes audio;
  match encode_lsb_samples samples msg with
  | None => mret None
  | Some out => mret (Some (write_wav_bytes (inject_Z <$> out) params))
  end.

(** [str(s & 1)] on the unsigned view. *)
Definition lsb_of (u : Z) : bool := Z.land u 1 =? 1.

(** [bits = [str(s & 1) for s in samples]] *)
Definition lsb_bits (samples : list Z) : list bool := (λ s, lsb_of (to_u16 s)) <$> samples.

(** Lines 55-73 on the samples. *)
Definition decode_lsb_samples (samples : list Z) : message :=
  match decode_bits_lsb (lsb_bits samples) with
  | Some m => m
  | None => not_found
  end.

(** [decode_lsb(stego_bytes)] *)
Definition decode_lsb (stego : wav) : pyres message :=
  '(samples, _) ← read_wav_bytes stego;
  mret (decode_lsb_samples samples).

(** ** One sample *)

Lemma set_lsb_arith (u : Z) (b : bool) :
  0 ≤ u < 2 ^ 16 → set_lsb u b = 2 * (u / 2) + Z.b2z b.
Proof.
  intros Hu. unfold set_lsb.
  assert (Z.land u 0xFFFE = 2 * (u / 2)) as ->.
  { change 0xFFFE with (Z.land (Z.ones 16) (Z.lnot (Z.ones 1))).
    rewrite Z.land_assoc, Z.land_ones, Z.mod_small, <- Z.ldiff_land, Z.ldiff_ones_r by lia.
    rewrite Z.shiftl_mul_pow2, Z.shiftr_div_pow2 by lia. change (2 ^ 1) with 2. lia. }
  rewrite <- Z.lxor_lor, <- Z.add_nocarry_lxor; [done| |].
  all: destruct b; cbn; try (rewrite Z.land_0_r; done).
  all: change 1 with (Z.ones 1); rewrite Z.land_ones by lia; rewrite Z.mul_comm, Z.mod_mul; lia.
Qed.

Lemma set_lsb_range (u : Z) (b : bool) : 0 ≤ u < 2 ^ 16 → 0 ≤ set_lsb u b < 2 ^ 16.
Proof. intros Hu. rewrite set_lsb_arith by done. destruct b; cbn; Z.div_mod_to_equations; lia. Qed.

Lemma lsb_of_set_lsb (u : Z) (b : bool) : 0 ≤ u < 2 ^ 16 → lsb_of (set_lsb u b) = b.
Proof.
  intros Hu. unfold lsb_of. rewrite set_lsb_arith by done.
  change 1 with (Z.ones 1) at 1. rewrite Z.land_ones by lia. change (2 ^ 1) with 2.
  rewrite Z.add_comm, Z.mul_comm, Z.mod_add by lia. by destruct b.
Qed.

(** The effect on an int16 sample: its upper fifteen bits are kept and
    its low bit is [b]. *)
Lemma to_i16_set_lsb (x : Z) (b : bool) :
  is_int16 x → to_i16 (set_lsb (to_u16 x) b) = 2 * (x / 2) + Z.b2z b.
Proof.
  unfold is_int16, int16_min, int16_max. intros Hx.
  pose proof (to_u16_range x). rewrite set_lsb_arith by lia.
  unfold to_i16, to_u16 in *. destruct b; cbn; Z.div_mod_to_equations; lia.
Qed.

(** ** The embedding loop *)

Lemma embed_loop_take_drop (bits : list bool) (i : nat) (flat : list Z) :
  (i + length bits ≤ length flat)%nat →
  embed_loop i bits flat = take i flat ++ embed_ref bits (drop i flat).
Proof.
  revert i flat. induction bits as [|b bs IH]; intros i flat Hlen; cbn [embed_loop].
  - unfold embed_ref. rewrite zip_with_nil_r, drop_0. symmetry. apply take_drop.
  - cbn [length] in Hlen. rewrite IH by (rewrite length_insert; lia).
    destruct (lookup_lt_is_Some_2 flat i) as [x Hx]; [lia|].
    rewrite (take_S_r _ _ (set_lsb (flat !!! i) b)) by (apply list_lookup_insert_eq; lia).
    rewrite take_insert, decide_False, drop_insert_lt, (drop_S flat x i Hx) by lia.
    rewrite list_lookup_total_alt, Hx. cbn [default].
    unfold embed_ref. cbn [zip_with length drop]. by rewrite <- app_assoc.
Qed.

Definition u16 (u : Z) : Prop := 0 ≤ u < 2 ^ 16.

Lemma Forall_u16_zip (bits : list bool) (flat : list Z) :
  Forall u16 flat → Forall u16 (zip_with set_lsb flat bits).
Proof.
  intros Hf. revert bits. induction Hf as [|u flat Hu _ IH]; intros [|b bits]; cbn;
    try constructor; [by apply set_lsb_range | apply IH].
Qed.

Lemma Forall_u16_to_u16 (s : list Z) : Forall u16 (to_u16 <$> s).
Proof. apply Forall_fmap, Forall_forall. intros x _. apply to_u16_range. Qed.

Lemma lsb_of_zip (bits : list bool) (flat : list Z) :
  (length bits ≤ length flat)%nat → Forall u16 flat →
  lsb_of <$> zip_with set_lsb flat bits = bits.
Proof.
  intros Hl Hf. revert bits Hl. induction Hf as [|u flat Hu _ IH]; intros [|b bits] Hl;
    cbn in *; try done; [lia|].
  rewrite lsb_of_set_lsb, IH by (done || lia). done.
Qed.

Lemma lsb_bits_to_i16 (l : list Z) : Forall u16 l → lsb_bits (to_i16 <$> l) = lsb_of <$> l.
Proof.
  intros Hl. unfold lsb_bits. rewrite <- list_fmap_compose. apply list_fmap_ext.
  intros i x Hx. cbn. pose proof (Forall_lookup_1 _ _ _ _ Hl Hx) as Hu.
  unfold u16 in Hu. rewrite to_u16_to_i16; [done|lia].
Qed.

Lemma encode_lsb_samples_Some (s : list Z) (m : message) (out : list Z) :
  encode_lsb_samples s m = Some out →
  (length (encode_bits m) ≤ length s)%nat ∧
  out = to_i16 <$> embed_ref (encode_bits m) (to_u16 <$> s).
Proof.
  unfold encode_lsb_samples. rewrite length_fmap. case_bool_decide; intros; simplify_eq.
  split; [lia|]. rewrite embed_loop_take_drop; [done|]. rewrite length_fmap. lia.
Qed.

Lemma Forall_u16_embed_ref (bits : list bool) (s : list Z) :
  Forall u16 (embed_ref bits (to_u16 <$> s)).
Proof.
  unfold embed_ref. apply Forall_app. split.
  - apply Forall_u16_zip, Forall_u16_to_u16.
  - apply Forall_drop, Forall_u16_to_u16.
Qed.

Lemma lsb_bits_encode (s : list Z) (m : message) (out : list Z) :
  encode_lsb_samples s m = Some out →
  lsb_bits out = encode_bits m ++ drop (length (encode_bits m)) (lsb_bits s).
Proof.
  intros [Hl ->]%encode_lsb_samples_Some.
  rewrite lsb_bits_to_i16 by apply Forall_u16_embed_ref.
  unfold embed_ref. rewrite fmap_app, lsb_of_zip, fmap_drop, <- list_fmap_compose.
  - done.
  - by rewrite length_fmap.
  - apply Forall_u16_to_u16.
Qed.

(** ** Properties of the LSB engine *)

(** Capacity: [encode_lsb] refuses a message exactly when its framed
    bit stream is longer than the buffer. *)
Lemma encode_lsb_capacity (s : list Z) (m : message) :
  encode_lsb_samples s m = None ↔ (length s < length (encode_bits m))%nat.
Proof.
  unfold encode_lsb_samples. rewrite length_fmap.
  case_bool_decide; split; (done || lia).
Qed.

Lemma decode_encode_lsb_samples (s : list Z) (m : message) (out : list Z) :
  Forall (byte_char lsb_stop) m →
  ¬ infix_of terminator (m ++ [hash; hash]) →
  encode_lsb_samples s m = Some out →
  decode_lsb_samples out = m.
Proof.
  intros Hm Hinf E. unfold decode_lsb_samples. rewrite (lsb_bits_encode s m out E).
  unfold decode_bits_lsb, encode_bits. by rewrite decode_first_terminator.
Qed.

(** C1. Round trip: the LSB decoder recovers every message of
    characters in [1..255] without an early ["###"] from a buffer with
    room for its [8 * (length m + 3)] bits. *)
Theorem lsb_roundtrip (s : list Z) (m : message) :
  Forall (byte_char lsb_stop) m →
  ¬ infix_of terminator (m ++ [hash; hash]) →
  (8 * (length m + 3) ≤ length s)%nat →
  decode_lsb_samples <$> encode_lsb_samples s m = Some m.
Proof.
  intros Hm Hinf Hcap.
  destruct (encode_lsb_samples s m) as [out|] eqn:E.
  - cbn. f_equal. by apply (decode_encode_lsb_samples s).
  - apply encode_lsb_capacity in E.
    rewrite length_encode_bits in E by by apply (byte_chars_small lsb_stop). lia.
Qed.

Lemma lookup_encode_lsb (s : list Z) (m : message) (out : list Z) (i : nat) :
  Forall is_int16 s →
  encode_lsb_samples s m = Some out →
  out !! i = (λ x, match encode_bits m !! i with
                   | Some b => 2 * (x / 2) + Z.b2z b
                   | None => x
                   end) <$> s !! i.
Proof.
  intros Hs [Hl ->]%encode_lsb_samples_Some.
  unfold embed_ref. rewrite list_lookup_fmap, lookup_app, lookup_zip_with, list_lookup_fmap.
  destruct (s !! i) as [x|] eqn:Hx; cbn.
  - destruct (encode_bits m !! i) as [b|] eqn:Hb; cbn.
    + rewrite to_i16_set_lsb; [done|]. by eapply Forall_lookup_1.
    + apply lookup_ge_None in Hb.
      rewrite lookup_drop, length_zip_with, length_fmap, list_lookup_fmap.
      replace (length (encode_bits m) + (i - length s `min` length (encode_bits m)))%nat
        with i by lia.
      rewrite Hx. cbn. rewrite to_i16_to_u16; [done|]. by eapply Forall_lookup_1.
  - apply lookup_ge_None in Hx.
    rewrite lookup_drop, length_zip_with, length_fmap, list_lookup_fmap, lookup_ge_None_2;
      [done|lia].
Qed.

(** C4. What [encode_lsb] does to every sample: sample [i] keeps its
    upper fifteen bits and takes bit [i] of the stream as its low bit;
    the samples past the stream are unchanged. *)
Theorem encode_lsb_lookup (s : list Z) (m : message) (out : list Z) (i : nat) :
  Forall is_int16 s →
  encode_lsb_samples s m = Some out →
  out !! i = (λ x, match encode_bits m !! i with
                   | Some b => 2 * (x / 2) + Z.b2z b
                   | None => x
                   end) <$> s !! i.
Proof. apply lookup_encode_lsb. Qed.

(** C5. The invariant of the embedding: every sample keeps its upper
    fifteen bits. *)
Theorem encode_lsb_upper_bits (s : list Z) (m : message) (out : list Z) (i : nat) (x y : Z) :
  Forall is_int16 s →
  encode_lsb_samples s m = Some out →
  s !! i = Some x → out !! i = Some y →
  Z.shiftr y 1 = Z.shiftr x 1.
Proof.
  intros Hs E Hx Hy. rewrite (lookup_encode_lsb s m out i Hs E), Hx in Hy. cbn in Hy.
  rewrite !Z.shiftr_div_pow2 by lia. change (2 ^ 1) with 2.
  destruct (encode_bits m !! i) as [[]|]; simplify_eq; cbn; Z.div_mod_to_equations; lia.
Qed.

(** The encoder's output is a buffer of int16 samples of the same length. *)
Lemma encode_lsb_shape (s : list Z) (m : message) (out : list Z) :
  encode_lsb_samples s m = Some out → length out = length s ∧ Forall is_int16 out.
Proof.
  intros [Hl ->]%encode_lsb_samples_Some. split.
  - unfold embed_ref. rewrite length_fmap, length_app, length_zip_with, length_drop, !length_fmap.
    lia.
  - apply Forall_fmap, Forall_forall. intros. apply to_i16_range.
Qed.

Lemma lsb_of_even (x : Z) : Z.even x = true → lsb_of (to_u16 x) = false.
Proof.
  intros He. unfold lsb_of, to_u16. change 1 with (Z.ones 1) at 1.
  rewrite Z.land_ones, Z.mod_mod_divide by (lia || by exists 32768).
  rewrite Zmod_even, He. done.
Qed.

(** Encoding twice with one message changes nothing the second time. *)
Lemma encode_lsb_samples_idem (s : list Z) (m : message) (out : list Z) :
  Forall is_int16 s →
  encode_lsb_samples s m = Some out → encode_lsb_samples out m = Some out.
Proof.
  intros Hs E. destruct (encode_lsb_shape s m out E) as [Hl Hout].
  destruct (encode_lsb_samples out m) as [out'|] eqn:E'.
  - f_equal. apply list_eq. intros i.
    rewrite (lookup_encode_lsb out m out' i Hout E'), (lookup_encode_lsb s m out i Hs E).
    destruct (s !! i) as [x|]; [|done]. cbn. f_equal.
    destruct (encode_bits m !! i) as [[]|]; cbn; [..|done]; Z.div_mod_to_equations; lia.
  - apply encode_lsb_capacity in E'. rewrite Hl in E'.
    apply encode_lsb_capacity in E'. congruence.
Qed.

(** C11. Not found: a buffer whose first eight samples are even (a
    silent buffer, say) decodes to "No hidden message found". *)
Theorem decode_lsb_even_prefix (s : list Z) :
  Forall (λ x, Z.even x = true) (take 8 s) →
  decode_lsb_samples s = not_found.
Proof.
  intros He. unfold decode_lsb_samples, decode_bits_lsb.
  destruct (decide (length s < 8)%nat) as [Hs|Hs].
  - rewrite decode_loop_short; [done|]. unfold lsb_bits. by rewrite length_fmap.
  - rewrite <- (take_drop 8 (lsb_bits s)), decode_loop_zero_byte; [done|done| |].
    + unfold lsb_bits. rewrite length_take, length_fmap. lia.
    + unfold lsb_bits. rewrite <- fmap_take. apply Forall_fmap.
      eapply Forall_impl; [|exact He]. intros x Hx. by apply lsb_of_even.
Qed.

(** C2. The capacity boundary for a message of 8-bit characters: it is
    refused exactly when [8 * (length m + 3)] bits exceed the number of
    samples (a stream exactly as long as the buffer is accepted). *)
Theorem encode_lsb_capacity_bytes (s : list Z) (m : message) :
  Forall (λ c, c < 256)%N m →
  encode_lsb_samples s m = None ↔ (length s < 8 * (length m + 3))%nat.
Proof. intros Hm. by rewrite encode_lsb_capacity, length_encode_bits. Qed.

Lemma encode_lsb_capacity_bytes_witness :
  encode_lsb_samples (replicate 39 0) (codes "HI") = None ∧
  is_Some (encode_lsb_samples (replicate 40 0) (codes "HI")).
Proof.
  split.
  - apply (encode_lsb_capacity_bytes (replicate 39 0) (codes "HI")); [repeat constructor|].
    rewrite length_replicate. cbn. lia.
  - destruct (encode_lsb_samples (replicate 40 0) (codes "HI")) eqn:E; [by eexists|].
    apply (encode_lsb_capacity_bytes (replicate 40 0) (codes "HI")) in E; [|repeat constructor].
    rewrite length_replicate in E. cbn in E. lia.
Defined.

(** C19. Re-encoding is idempotent: a stego file written by
    [encode_lsb], encoded again with the same message, gives back the
    same file (same header, same frame bytes).  Each sample's low bit is
    set to the bit, not toggled, and the int16 samples survive the
    write and the read unchanged. *)
Theorem encode_lsb_idempotent (w w' : wav) (m : message) :
  encode_lsb w m = PyOk (Some w') → encode_lsb w' m = PyOk (Some w').
Proof.
  unfold encode_lsb. destruct (read_wav_bytes w) as [[s p]|] eqn:Hr; [|done].
  cbn [mbind pyres_bind]. destruct (encode_lsb_samples s m) as [out|] eqn:E; [|done].
  intros [= <-]. destruct (encode_lsb_shape s m out E) as [_ Hout].
  rewrite read_write_wav_Z by done. cbn [mbind pyres_bind].
  by rewrite (encode_lsb_samples_idem s m out (read_wav_bytes_int16 w s p Hr) E).
Qed.

(** C19 on a 40-sample silent file, which holds "HI" exactly. *)
Lemma encode_lsb_idempotent_witness :
  let w := {| wav_header := {| nchannels := 1; sampwidth := 2; framerate := 8000; nframes := 40;
                               comptype := "NONE"; compname := "not compressed" |};
              wav_frames := replicate 80 Byte.x00 |} in
  ∃ w', encode_lsb w (codes "HI") = PyOk (Some w') ∧ encode_lsb w' (codes "HI") = PyOk (Some w').
Proof.
  intros w. destruct (encode_lsb w (codes "HI")) as [[w'|]|e] eqn:E.
  - exists w'. split; [done|]. exact (encode_lsb_idempotent w w' (codes "HI") E).
  - vm_compute in E. discriminate.
  - vm_compute in E. discriminate.
Defined.

(** C1 on concrete data: a 16000-sample silent buffer carries "HI". *)
Lemma lsb_roundtrip_witness :
  decode_lsb_samples <$> encode_lsb_samples (replicate 16000 0) (codes "HI") = Some (codes "HI").
Proof.
  apply lsb_roundtrip.
  - repeat constructor.
  - apply not_infix_of_infixb. reflexivity.
  - rewrite length_replicate. cbn. lia.
Defined.

Lemma encode_lsb_lookup_witness :
  let s := replicate 32 9 ++ [100] in
  ∃ out, encode_lsb_samples s [] = Some out ∧ out !! 32%nat = Some 100.
Proof.
  intros s. destruct (encode_lsb_samples s []) as [out|] eqn:E.
  - exists out. split; [done|].
    rewrite (encode_lsb_lookup s [] out 32); [reflexivity|decide_concrete|exact E].
  - apply encode_lsb_capacity in E. unfold s in E.
    rewrite length_app, length_replicate, length_encode_bits in E by constructor. cbn in E. lia.
Defined.

Lemma encode_lsb_upper_bits_witness :
  ∃ out y, encode_lsb_samples (replicate 24 (-7)) [] = Some out ∧ out !! 0%nat = Some y ∧
           Z.shiftr y 1 = Z.shiftr (-7) 1.
Proof.
  destruct (encode_lsb_samples (replicate 24 (-7)) []) as [out|] eqn:E.
  - destruct (out !! 0%nat) as [y|] eqn:Ey.
    + exists out, y. split; [done|]. split; [done|].
      apply (encode_lsb_upper_bits (replicate 24 (-7)) [] out 0 (-7) y);
        [decide_concrete | done | reflexivity | done].
    + apply lookup_ge_None in Ey. apply encode_lsb_shape in E as [El _].
      rewrite El, length_replicate in Ey. lia.
  - apply encode_lsb_capacity in E.
    rewrite length_replicate, length_encode_bits in E by constructor. cbn in E. lia.
Defined.

Lemma decode_lsb_even_prefix_witness : decode_lsb_samples (replicate 16000 0) = not_found.
Proof. apply decode_lsb_even_prefix. repeat constructor. Defined.

End LSB.
