(* ===== verification/Echo.v ===== *)
(** * Echo: the echo-hiding engine

    Models [encode_echo_simple] (src/app.py, lines 76-110) and
    [decode_echo_simple] (lines 113-172).

    Encoding frames the message, refuses it when
    [len(bits) * chunk_size + max_delay > len(samples)], and for bit [i]
    adds [alpha] times chunk [i] of the *original* samples into a copy of
    the buffer, [d1] samples later for a 1 and [d0] samples later for a 0
    ([echo_loop], with the loop's [break] and its bounds test kept).
    The samples are [float32] in the source and [Q] here: arithmetic is
    exact (for [alpha = 0.5] and int16 input the [float32] sums are exact
    too, being multiples of [1/2] below [2^24]).

    Decoding takes [min(len(original), len(stego))], cuts
    [(n - max_delay) // chunk_size] chunks, and for each correlates the
    original chunk with the difference signal at offsets [d0] and [d1]
    ([chunk_diag]); the bit is 1 when the [d1] correlation is the larger.
    Both buffers are int16 values, so the difference is exact; the
    products and the sum are computed exactly in [Z] here, where the
    source accumulates them in [float32].  The bits go to the framing
    decoder with the [0 < v <= 127] test.

    The chunk size is a parameter [cs] of the definitions;
    [chunk_size = 8192] is the value the source fixes. *)

From Stdlib Require Import QArith String.
From S2P Require Import Prelude BitCodec Samples.

Module Echo.
Import BitCodec Samples.
Local Open Scope nat_scope.

(** [chunk_size = 8192] *)
Definition chunk_size : nat := 8192.

(** [out[a:a+len(xs)] += xs] on a float array. *)
Definition add_slice (out : list Q) (a : nat) (xs : list Q) : list Q :=
  take a out ++ zip_with Qplus (slice out a (a + length xs)) xs ++ drop (a + length xs) out.

(** ** Encoding *)

Section EchoEncode.
Variable cs : nat.
Variables (samples : list Q) (d0 d1 : nat) (alpha : Q).

(** [for i, bit in enumerate(bits)]: the body of lines 95-108. *)
Fixpoint echo_loop (i : nat) (bits : list bool) (out : list Q) : list Q :=
  match bits with
  | [] => out
  | bit :: bs =>
      let max_delay := Nat.max d0 d1 in
      let start := i * cs in
      let end_ := Nat.min (start + cs) (length samples - max_delay) in
      if bool_decide (end_ ≤ start) then out
      else
        let delay := if bit then d1 else d0 in
        let chunk := slice samples start end_ in
        let echo_start := start + delay in
        let echo_end := echo_start + length chunk in
        let out' :=
          if bool_decide (echo_end ≤ length out)
          then add_slice out echo_start ((λ x, alpha * x)%Q <$> chunk)
          else out in
        echo_loop (S i) bs out'
  end.
End EchoEncode.

(** Lines 83-108 on the samples; [None] is the [return None] of a
    message too large for the buffer. *)
Definition encode_echo_samples (cs : nat) (samples : list Q) (msg : message)
    (d0 d1 : nat) (alpha : Q) : option (list Q) :=
  let bits := encode_bits msg in
  let max_delay := Nat.max d0 d1 in
  if bool_decide (length samples < length bits * cs + max_delay) then None
  else Some (echo_loop cs samples d0 d1 alpha 0 bits samples).

(** [encode_echo_simple(audio_bytes, message, d0, d1, alpha)] *)
Definition encode_echo_simple (audio : wav) (msg : message) (d0 d1 : nat) (alpha : Q)
    : pyres (option wav) :=
  '(samples, params) ← read_wav_bytes audio;
  match encode_echo_samples chunk_size (inject_Z <$> samples) msg d0 d1 alpha with
  | None => mret None
  | Some out => mret (Some (write_wav_bytes out params))
  end.

(** ** Decoding *)

(** One entry of [debug_info]: the chunk, the two correlations, the bit. *)
Record diag : Type := { diag_chunk : nat; corr_d0 : Z; corr_d1 : Z; diag_bit : bool }.

(** [np.sum(a * b)] *)
Definition dot (xs ys : list Z) : Z := foldr Z.add 0%Z (zip_with Z.mul xs ys).

Section EchoDecode.
Variable cs : nat.
Variables (original stego : list Z) (d0 d1 : nat).

(** The body of the loop for chunk [i] (lines 135-149). *)
Definition chunk_diag (i : nat) : diag :=
  let max_delay := Nat.max d0 d1 in
  let start := i * cs in
  let end_ := start + cs in
  let echo := zip_with Z.sub (slice stego start (end_ + max_delay))
                             (slice original start (end_ + max_delay)) in
  let orig_chunk := slice original start end_ in
  let echo_d0 := slice echo d0 (d0 + length orig_chunk) in
  let echo_d1 := slice echo d1 (d1 + length orig_chunk) in
  let c0 := Z.abs (dot orig_chunk echo_d0) in
  let c1 := Z.abs (dot orig_chunk echo_d1) in
  {| diag_chunk := i; corr_d0 := c0; corr_d1 := c1; diag_bit := bool_decide (c0 < c1)%Z |}.

(** [for i in range(num_chunks)] from chunk [i], [k] iterations left,
    with the [break] of line 132. *)
Fixpoint chunk_loop (k i : nat) : list diag :=
  match k with
  | O => []
  | S k' =>
      let n := Nat.min (length original) (length stego) in
      if bool_decide (n < i * cs + cs + Nat.max d0 d1) then []
      else chunk_diag i :: chunk_loop k' (S i)
  end.
End EchoDecode.

(** [num_chunks = (min(len(original), len(stego)) - max_delay) // chunk_size];
    a negative difference gives an empty range, as the truncated
    subtraction does here. *)
Definition num_chunks (cs : nat) (original stego : list Z) (d0 d1 : nat) : nat :=
  (Nat.min (length original) (length stego) - Nat.max d0 d1) / cs.

(** Lines 121-172 on the samples: the message (or "No hidden message
    found"), the diagnostics and the bits. *)
Definition decode_echo_samples (cs : nat) (original stego : list Z) (d0 d1 : nat)
    : message * list diag * list bool :=
  let ds := chunk_loop cs original stego d0 d1 (num_chunks cs original stego d0 d1) 0 in
  let bits := diag_bit <$> ds in
  (match decode_bits_echo bits with Some m => m | None => not_found end, ds, bits).

(** [decode_echo_simple(original_bytes, stego_bytes, d0, d1)] *)
Definition decode_echo_simple (original_audio stego_audio : wav) (d0 d1 : nat)
    : pyres (message * list diag * list bool) :=
  '(original, _) ← read_wav_bytes original_audio;
  '(stego, _) ← read_wav_bytes stego_audio;
  mret (decode_echo_samples chunk_size original stego d0 d1).

(** ** A test signal

    A deterministic pseudo-random signal in [-1000, 1000] (a linear
    congruential generator), used as the carrier of the concrete
    round trip below. *)
Fixpoint lcg_noise (n : nat) (seed : Z) : list Z :=
  match n with
  | O => []
  | S n' =>
      let seed' := ((seed * 1103515245 + 12345) mod 2147483648)%Z in
      ((seed' / 65536) mod 2001 - 1000)%Z :: lcg_noise n' seed'
  end.

(** ** The closed form of the encoder (a specification)

    Sample [k] of the output is sample [k] of the input plus, for each
    bit [j] whose echo window [[j*cs + delay_j, j*cs + cs + delay_j)]
    covers [k], [alpha] times the original sample [k - delay_j]; the
    additions come in the order of the bits. *)
Fixpoint echo_sum (cs : nat) (samples : list Q) (d0 d1 : nat) (alpha : Q)
    (j : nat) (bits : list bool) (k : nat) (acc : Q) : Q :=
  match bits with
  | [] => acc
  | bit :: bs =>
      let delay := if bit then d1 else d0 in
      let acc' := if bool_decide (j * cs + delay ≤ k ∧ k < j * cs + cs + delay)
                  then (acc + alpha * default 0 (samples !! (k - delay)%nat))%Q
                  else acc in
      echo_sum cs samples d0 d1 alpha (S j) bs k acc'
  end.

(** ** The decoder *)

Lemma dot_zeros_r (xs ys : list Z) : Forall (λ y, y = 0%Z) ys → dot xs ys = 0%Z.
Proof.
  unfold dot. revert ys. induction xs as [|x xs IH]; intros ys Hys; [done|].
  destruct Hys as [|y ys -> Hys]; [done|]. cbn. rewrite IH by done. lia.
Qed.

Lemma zip_with_sub_diag (l : list Z) : Forall (λ y, y = 0%Z) (zip_with Z.sub l l).
Proof. induction l; constructor; [lia|done]. Qed.

Section DecodeFacts.
Variable cs : nat.

(** The [break] of line 132 never fires: the loop visits every chunk
    of [range(num_chunks)]. *)
Lemma chunk_loop_seq (original stego : list Z) (d0 d1 k i : nat) :
  (k ≠ 0 → i * cs + k * cs + Nat.max d0 d1 ≤ Nat.min (length original) (length stego)) →
  chunk_loop cs original stego d0 d1 k i = chunk_diag cs original stego d0 d1 <$> seq i k.
Proof.
  revert i. induction k as [|k IH]; intros i Hk; [done|].
  specialize (Hk ltac:(done)).
  cbn [chunk_loop seq]. rewrite bool_decide_false by nia. rewrite fmap_cons. f_equal.
  apply IH. nia.
Qed.

Lemma num_chunks_fit (original stego : list Z) (d0 d1 : nat) :
  0 < cs →
  num_chunks cs original stego d0 d1 ≠ 0 →
  0 * cs + num_chunks cs original stego d0 d1 * cs + Nat.max d0 d1
    ≤ Nat.min (length original) (length stego).
Proof.
  intros Hcs. unfold num_chunks.
  pose proof (Nat.Div0.mul_div_le (Nat.min (length original) (length stego) - Nat.max d0 d1) cs).
  nia.
Qed.

Lemma decode_echo_bits_seq (original stego : list Z) (d0 d1 : nat) :
  0 < cs →
  (decode_echo_samples cs original stego d0 d1).2 =
    (λ i, diag_bit (chunk_diag cs original stego d0 d1 i)) <$>
      seq 0 (num_chunks cs original stego d0 d1).
Proof.
  intros Hcs. cbn. rewrite chunk_loop_seq by (by apply num_chunks_fit).
  by rewrite <- list_fmap_compose.
Qed.

(** C14. The decoder visits every chunk of [range(num_chunks)]: its
    [break] never fires, and bit [i] is the decision on chunk [i]. *)
Theorem decode_echo_bits (original stego : list Z) (d0 d1 : nat) :
  0 < cs →
  (decode_echo_samples cs original stego d0 d1).2 =
    (λ i, diag_bit (chunk_diag cs original stego d0 d1 i)) <$>
      seq 0 (num_chunks cs original stego d0 d1).
Proof. apply decode_echo_bits_seq. Qed.

Lemma chunk_loop_self (original : list Z) (d0 d1 k i : nat) :
  Forall (λ d, diag_bit d = false) (chunk_loop cs original original d0 d1 k i).
Proof.
  revert i. induction k as [|k IH]; intros i; cbn [chunk_loop]; [constructor|].
  case_bool_decide; constructor; [|apply IH].
  unfold chunk_diag. cbn. rewrite !dot_zeros_r; [done| |];
    apply Forall_slice, zip_with_sub_diag.
Qed.

Lemma chunk_loop_same_delay (original stego : list Z) (d k i : nat) :
  Forall (λ dg, diag_bit dg = false) (chunk_loop cs original stego d d k i).
Proof.
  revert i. induction k as [|k IH]; intros i; cbn [chunk_loop]; [constructor|].
  case_bool_decide; constructor; [|apply IH].
  unfold chunk_diag. cbn. apply bool_decide_false. lia.
Qed.

Lemma decode_echo_no_ones (original stego : list Z) (d0 d1 : nat) :
  Forall (λ dg, diag_bit dg = false)
    (chunk_loop cs original stego d0 d1 (num_chunks cs original stego d0 d1) 0) →
  (decode_echo_samples cs original stego d0 d1).1.1 = not_found.
Proof.
  intros H. cbn. unfold decode_bits_echo. rewrite decode_loop_zeros; [done|done|].
  by apply Forall_fmap.
Qed.

(** C10. Decoding a buffer against itself (no echo was added) finds no
    message, whatever the buffer: every correlation is zero. *)
Theorem decode_echo_self (original : list Z) (d0 d1 : nat) :
  (decode_echo_samples cs original original d0 d1).1.1 = not_found.
Proof. apply decode_echo_no_ones, chunk_loop_self. Qed.

(** C9. With equal delays [d0 = d1] (which the code never rejects)
    the two correlations coincide, every bit is 0, and no message is
    ever decoded. *)
Theorem decode_echo_same_delay (original stego : list Z) (d : nat) :
  (decode_echo_samples cs original stego d d).1.1 = not_found.
Proof. apply decode_echo_no_ones, chunk_loop_same_delay. Qed.

(** C13. Buffers of different lengths are cut to the shorter one:
    decoding them gives exactly what decoding the two prefixes of
    that length gives. *)
Theorem decode_echo_truncate (original stego : list Z) (d0 d1 : nat) :
  0 < cs →
  let n := Nat.min (length original) (length stego) in
  decode_echo_samples cs original stego d0 d1 =
    decode_echo_samples cs (take n original) (take n stego) d0 d1.
Proof.
  intros Hcs n.
  assert (num_chunks cs (take n original) (take n stego) d0 d1 =
          num_chunks cs original stego d0 d1) as Hk.
  { unfold num_chunks. rewrite !length_take. f_equal. lia. }
  unfold decode_echo_samples. rewrite Hk, !chunk_loop_seq.
  - assert (chunk_diag cs (take n original) (take n stego) d0 d1 <$>
              seq 0 (num_chunks cs original stego d0 d1) =
            chunk_diag cs original stego d0 d1 <$> seq 0 (num_chunks cs original stego d0 d1))
      as ->; [|done].
    apply list_fmap_ext. intros j x [-> Hj]%lookup_seq.
    pose proof (num_chunks_fit original stego d0 d1 Hcs ltac:(lia)).
    assert ((0 + j) * cs + cs ≤ num_chunks cs original stego d0 d1 * cs) by nia.
    unfold chunk_diag. rewrite !slice_take by lia. done.
  - intros Hk0. pose proof (num_chunks_fit original stego d0 d1 Hcs Hk0).
    rewrite !length_take. lia.
  - by apply num_chunks_fit.
Qed.
End DecodeFacts.

(** ** The encoder *)

Lemma length_add_slice (out : list Q) (a : nat) (xs : list Q) :
  a + length xs ≤ length out → length (add_slice out a xs) = length out.
Proof.
  intros H. unfold add_slice.
  rewrite !length_app, length_take, length_zip_with, length_slice, length_drop. lia.
Qed.

Lemma lookup_add_slice (out : list Q) (a : nat) (xs : list Q) (k : nat) :
  a + length xs ≤ length out →
  add_slice out a xs !! k =
    if bool_decide (a ≤ k ∧ k < a + length xs)
    then (λ x, x + default 0 (xs !! (k - a)%nat))%Q <$> out !! k
    else out !! k.
Proof.
  intros H. unfold add_slice.
  assert (length (zip_with Qplus (slice out a (a + length xs)) xs) = length xs) as Hz
    by (rewrite length_zip_with, length_slice; lia).
  rewrite lookup_app, lookup_take. destruct (decide (k < a)) as [Hk|Hk].
  - rewrite bool_decide_false by lia.
    destruct (out !! k) eqn:E; [done|]. apply lookup_ge_None in E. lia.
  - rewrite length_take, Nat.min_l by lia. rewrite lookup_app, Hz.
    case_bool_decide as Hw.
    + rewrite lookup_zip_with. unfold slice. rewrite lookup_take, decide_True by lia.
      rewrite lookup_drop. replace (a + (k - a)) with k by lia.
      destruct (lookup_lt_is_Some_2 xs (k - a)) as [y Hy]; [lia|].
      destruct (lookup_lt_is_Some_2 out k) as [x Hx]; [lia|].
      by rewrite Hx, Hy.
    + rewrite lookup_zip_with. unfold slice.
      rewrite lookup_take, decide_False by lia. cbn.
      rewrite lookup_drop. f_equal. lia.
Qed.

Section EncodeFacts.
Variable cs : nat.
Hypothesis cs_pos : 0 < cs.
Variables (samples : list Q) (d0 d1 : nat) (alpha : Q).

(** The loop, from bit [i] on, when every remaining chunk and its
    echo fit in the buffer: the [break] and the bounds test never
    fire, and each sample receives the echoes of [echo_sum]. *)
Lemma echo_loop_lookup (bits : list bool) (i : nat) (out : list Q) (k : nat) :
  (i + length bits) * cs + Nat.max d0 d1 ≤ length samples →
  length out = length samples →
  echo_loop cs samples d0 d1 alpha i bits out !! k =
    echo_sum cs samples d0 d1 alpha i bits k <$> out !! k.
Proof.
  revert i out. induction bits as [|bit bs IH]; intros i out Hfit Hlen; cbn [echo_loop echo_sum].
  - by destruct (out !! k).
  - cbn [length] in Hfit.
    rewrite Nat.min_l by nia. rewrite bool_decide_false by lia.
    set (delay := if bit then d1 else d0).
    assert (delay ≤ Nat.max d0 d1) by (unfold delay; destruct bit; lia).
    rewrite length_slice, Nat.min_l by nia. replace (i * cs + cs - i * cs) with cs by lia.
    rewrite bool_decide_true by nia.
    set (xs := (λ x, alpha * x)%Q <$> slice samples (i * cs) (i * cs + cs)).
    assert (length xs = cs) as Hxs by (unfold xs; rewrite length_fmap, length_slice; nia).
    rewrite IH by (rewrite ?length_add_slice; nia).
    rewrite lookup_add_slice by nia. rewrite Hxs.
    destruct (out !! k) as [x|] eqn:Hx; [|by case_bool_decide]. cbn.
    replace (i * cs + delay + cs) with (i * cs + cs + delay) by lia.
    case_bool_decide as Hw; [|done]. cbn. do 3 f_equal.
    unfold xs, slice. rewrite list_lookup_fmap, lookup_take, decide_True by lia.
    rewrite lookup_drop. replace (i * cs + (k - (i * cs + delay))) with (k - delay) by lia.
    destruct (lookup_lt_is_Some_2 samples (k - delay)) as [y Hy]; [lia|]. by rewrite Hy.
Qed.
End EncodeFacts.

(** Capacity: [encode_echo_simple] refuses a message exactly when
    [len(bits) * chunk_size + max(d0, d1)] exceeds the number of
    samples. *)
Lemma encode_echo_capacity (cs : nat) (s : list Q) (m : message) (d0 d1 : nat) (alpha : Q) :
  encode_echo_samples cs s m d0 d1 alpha = None ↔
  length s < length (encode_bits m) * cs + Nat.max d0 d1.
Proof. unfold encode_echo_samples. case_bool_decide; split; (done || lia). Qed.

Lemma lookup_encode_echo (cs : nat) (s : list Q) (m : message) (d0 d1 : nat) (alpha : Q)
    (out : list Q) (k : nat) :
  0 < cs →
  encode_echo_samples cs s m d0 d1 alpha = Some out →
  out !! k = echo_sum cs s d0 d1 alpha 0 (encode_bits m) k <$> s !! k.
Proof.
  intros Hcs. unfold encode_echo_samples. case_bool_decide; intros; simplify_eq.
  apply echo_loop_lookup; [done|lia|done].
Qed.

(** C7. The encoder's closed form: when it accepts the message, every
    output sample is the input sample plus [alpha] times the original
    samples that the chunks echo onto it, in the order of the bits. *)
Theorem encode_echo_lookup (cs : nat) (s : list Q) (m : message) (d0 d1 : nat) (alpha : Q)
    (out : list Q) (k : nat) :
  0 < cs →
  encode_echo_samples cs s m d0 d1 alpha = Some out →
  out !! k = echo_sum cs s d0 d1 alpha 0 (encode_bits m) k <$> s !! k.
Proof. apply lookup_encode_echo. Qed.

Lemma encode_echo_lookup_witness :
  let s := inject_Z <$> seqZ 1 60 in
  ∃ out, encode_echo_samples 2 s [] 3 5 (1#2) = Some out ∧
         out !! 7%nat = echo_sum 2 s 3 5 (1#2) 0 (encode_bits []) 7 <$> s !! 7%nat.
Proof.
  intros s. destruct (encode_echo_samples 2 s [] 3 5 (1#2)) as [out|] eqn:E.
  - exists out. split; [reflexivity|]. exact (encode_echo_lookup 2 s [] 3 5 (1#2) out 7 ltac:(lia) E).
  - apply encode_echo_capacity in E. unfold s in E.
    rewrite length_fmap, length_seqZ, length_encode_bits in E by constructor. cbn in E. lia.
Defined.

(** Before the shorter delay no window reaches a sample. *)
Lemma echo_sum_before (cs : nat) (s : list Q) (d0 d1 : nat) (alpha : Q)
    (j : nat) (bits : list bool) (k : nat) (acc : Q) :
  k < Nat.min d0 d1 → echo_sum cs s d0 d1 alpha j bits k acc = acc.
Proof.
  revert j acc. induction bits as [|bit bs IH]; intros j acc Hk; [done|]. cbn.
  rewrite bool_decide_false by (destruct bit; lia). by apply IH.
Qed.

(** C15. The samples before [min(d0, d1)] are never changed by the
    encoder. *)
Theorem encode_echo_prefix (cs : nat) (s : list Q) (m : message) (d0 d1 : nat) (alpha : Q)
    (out : list Q) (k : nat) :
  0 < cs →
  encode_echo_samples cs s m d0 d1 alpha = Some out →
  k < Nat.min d0 d1 →
  out !! k = s !! k.
Proof.
  intros Hcs E Hk. rewrite (lookup_encode_echo cs s m d0 d1 alpha out k Hcs E).
  destruct (s !! k); cbn; [|done]. by rewrite echo_sum_before.
Qed.

Lemma encode_echo_prefix_witness :
  let s := inject_Z <$> seqZ 1 60 in
  ∃ out, encode_echo_samples 2 s [] 3 5 (1#2) = Some out ∧ out !! 2 = Some (inject_Z 3).
Proof.
  intros s. destruct (encode_echo_samples 2 s [] 3 5 (1#2)) as [out|] eqn:E.
  - exists out. split; [done|].
    rewrite (encode_echo_prefix 2 s [] 3 5 (1#2) out 2); [reflexivity|lia|done|lia].
  - apply encode_echo_capacity in E. unfold s in E.
    rewrite length_fmap, length_seqZ, length_encode_bits in E by constructor. cbn in E. lia.
Defined.

(** Past the last echo window no window reaches a sample. *)
Lemma echo_sum_after (cs : nat) (s : list Q) (d0 d1 : nat) (alpha : Q)
    (j : nat) (bits : list bool) (k : nat) (acc : Q) :
  (j + length bits) * cs + Nat.max d0 d1 ≤ k → echo_sum cs s d0 d1 alpha j bits k acc = acc.
Proof.
  revert j acc. induction bits as [|bit bs IH]; intros j acc Hk; [done|]. cbn in Hk |- *.
  rewrite bool_decide_false by (destruct bit; nia). apply IH. lia.
Qed.

(** C6. The samples from [len(bits) * chunk_size + max(d0, d1)] on are
    never changed by the encoder: the chunks beyond the last encoded bit
    carry no echo, and no echo reaches past the last window. *)
Theorem encode_echo_suffix (cs : nat) (s : list Q) (m : message) (d0 d1 : nat) (alpha : Q)
    (out : list Q) (k : nat) :
  0 < cs →
  encode_echo_samples cs s m d0 d1 alpha = Some out →
  length (encode_bits m) * cs + Nat.max d0 d1 ≤ k →
  out !! k = s !! k.
Proof.
  intros Hcs E Hk. rewrite (lookup_encode_echo cs s m d0 d1 alpha out k Hcs E).
  destruct (s !! k); cbn; [|done]. by rewrite echo_sum_after.
Qed.

(** The empty message frames to 24 bits; with chunks of 2 and delays 3
    and 5 the last echo window ends before sample 53, which keeps its
    value 54. *)
Lemma encode_echo_suffix_witness :
  let s := inject_Z <$> seqZ 1 60 in
  ∃ out, encode_echo_samples 2 s [] 3 5 (1#2) = Some out ∧ out !! 53 = Some (inject_Z 54).
Proof.
  intros s. destruct (encode_echo_samples 2 s [] 3 5 (1#2)) as [out|] eqn:E.
  - exists out. split; [done|].
    rewrite (encode_echo_suffix 2 s [] 3 5 (1#2) out 53); [reflexivity|lia|done|].
    rewrite length_encode_bits by constructor. cbn. lia.
  - apply encode_echo_capacity in E. unfold s in E.
    rewrite length_fmap, length_seqZ, length_encode_bits in E by constructor. cbn in E. lia.
Defined.

(** C8. The capacity test for a message of 8-bit characters: it is
    refused exactly when [8 * (len(m) + 3) * chunk_size + max(d0, d1)]
    exceeds the number of samples. *)
Theorem encode_echo_capacity_bytes (cs : nat) (s : list Q) (m : message) (d0 d1 : nat)
    (alpha : Q) :
  Forall (λ c, c < 256)%N m →
  encode_echo_samples cs s m d0 d1 alpha = None ↔
  length s < 8 * (length m + 3) * cs + Nat.max d0 d1.
Proof. intros Hm. by rewrite encode_echo_capacity, length_encode_bits. Qed.

(** The example of the specification: "HI" (40 framed bits) at
    [d0 = 200], [d1 = 400] needs [40 * 8192 + 400 = 328080] samples,
    more than 50000. *)
Lemma encode_echo_capacity_bytes_witness :
  encode_echo_samples chunk_size (replicate 50000 0%Q) (codes "HI") 200 400 (1#2) = None.
Proof.
  apply encode_echo_capacity_bytes; [repeat constructor|].
  rewrite length_replicate. apply Nat.ltb_lt. vm_compute. reflexivity.
Defined.

Lemma length_echo_loop (cs : nat) (s : list Q) (d0 d1 : nat) (alpha : Q)
    (i : nat) (bits : list bool) (out : list Q) :
  length (echo_loop cs s d0 d1 alpha i bits out) = length out.
Proof.
  revert i out. induction bits as [|bit bs IH]; intros i out; [done|]. cbn [echo_loop].
  case_bool_decide; [done|]. cbn zeta. rewrite IH.
  case_bool_decide as Hfit; [|done]. apply length_add_slice.
  rewrite length_fmap. lia.
Qed.

Lemma encode_echo_length (cs : nat) (s : list Q) (m : message) (d0 d1 : nat) (alpha : Q)
    (out : list Q) :
  encode_echo_samples cs s m d0 d1 alpha = Some out → length out = length s.
Proof.
  unfold encode_echo_samples. case_bool_decide; intros; simplify_eq. apply length_echo_loop.
Qed.

Lemma decode_echo_message (cs : nat) (original stego : list Z) (d0 d1 : nat) :
  (decode_echo_samples cs original stego d0 d1).1.1 =
    match decode_bits_echo (decode_echo_samples cs original stego d0 d1).2 with
    | Some m => m
    | None => not_found
    end.
Proof. reflexivity. Qed.

(** The sample-level echo round trip, given that the correlation test
    of each of the first [len(bits)] chunks reads back its bit: the
    capacity test leaves the decoder enough chunks, and what the later
    chunks read is never looked at.  The engine interface ([Engine.v])
    states it as its round-trip law. *)
Lemma echo_roundtrip_samples (cs : nat) (s : list Z) (m : message) (d0 d1 : nat) (alpha : Q)
    (out : list Q) :
  0 < cs →
  Forall (byte_char echo_stop) m →
  ¬ infix_of terminator (m ++ [hash; hash]) →
  encode_echo_samples cs (inject_Z <$> s) m d0 d1 alpha = Some out →
  Forall (λ j, Some (diag_bit (chunk_diag cs s (quantize <$> out) d0 d1 j)) = encode_bits m !! j)
    (seq 0 (length (encode_bits m))) →
  (decode_echo_samples cs s (quantize <$> out) d0 d1).1.1 = m.
Proof.
  intros Hcs Hm Hinf E Hbits.
  set (stego := quantize <$> out) in *.
  set (eb := encode_bits m) in *.
  assert (length stego = length s) as Hls
    by (unfold stego; rewrite length_fmap, (encode_echo_length _ _ _ _ _ _ _ E), length_fmap; done).
  assert (length s ≥ length eb * cs + Nat.max d0 d1) as Hcap.
  { destruct (decide (length s < length eb * cs + Nat.max d0 d1)) as [Hlt|]; [|lia].
    assert (encode_echo_samples cs (inject_Z <$> s) m d0 d1 alpha = None) as Hn
      by (apply encode_echo_capacity; rewrite length_fmap; done). congruence. }
  assert (length eb ≤ num_chunks cs s stego d0 d1) as Hnc.
  { unfold num_chunks. rewrite Hls, Nat.min_id. apply Nat.div_le_lower_bound; lia. }
  rewrite decode_echo_message, decode_echo_bits_seq by done.
  rewrite <- (take_drop (length eb) (_ <$> seq 0 _)).
  assert (take (length eb) ((λ i, diag_bit (chunk_diag cs s stego d0 d1 i)) <$>
            seq 0 (num_chunks cs s stego d0 d1)) = eb) as ->.
  { apply list_eq. intros i. rewrite lookup_take. case_decide as Hi.
    - rewrite list_lookup_fmap, lookup_seq_lt by lia. cbn.
      apply Forall_seq with (j := i) in Hbits; [done|lia].
    - symmetry. apply lookup_ge_None_2. lia. }
  unfold eb, decode_bits_echo, encode_bits. by rewrite decode_first_terminator.
Qed.

Lemma decode_echo_truncate_witness :
  let o := lcg_noise 40 3 in
  let st := lcg_noise 45 5 in
  decode_echo_samples 4 o st 1 2 =
    decode_echo_samples 4 (take (Nat.min (length o) (length st)) o)
      (take (Nat.min (length o) (length st)) st) 1 2.
Proof. intros o st. exact (decode_echo_truncate 4 o st 1 2 ltac:(lia)). Defined.

Lemma decode_echo_bits_witness :
  let o := lcg_noise 40 3 in
  (decode_echo_samples 4 o o 1 2).2 =
    (λ i, diag_bit (chunk_diag 4 o o 1 2 i)) <$> seq 0 (num_chunks 4 o o 1 2).
Proof. intros o. exact (decode_echo_bits 4 o o 1 2 ltac:(lia)). Defined.

End Echo.
