(* ===== verification/EchoCarrier.v ===== *)
(** * EchoCarrier: echo hiding on a pulse-train carrier

    The lemma [Echo.echo_roundtrip_samples] reads the message back when
    the correlation test of every chunk decides the bit that was
    embedded there.  This file discharges that condition for a class of carriers:
    a pulse train with one pulse of amplitude [A] at the start of every
    chunk of [cs] samples and silence elsewhere.  The echo of chunk [j]
    is then one sample, [alpha * A] cast to int16 ([E]), at
    [j * cs + delay_j]; in the decoder the chunk's correlation with the
    echo at its own delay is [|A * E|] and with the echo at the other
    delay [0].  So every bit is read back as soon as [E ≠ 0] and
    [0 < d0, d1 < cs], [d0 ≠ d1]: that condition holds and the
    message comes back, quantisation to int16 included. *)

From Stdlib Require Import QArith String.
From S2P Require Import Prelude BitCodec Samples Echo.

Module EchoCarrier.
Import BitCodec Samples Echo.
Local Open Scope nat_scope.

(** Sample [k] of the pulse train: [A] at multiples of [cs]. *)
Definition pulse_at (cs : nat) (A : Z) (k : nat) : Z :=
  if bool_decide (k mod cs = 0) then A else 0%Z.

(** The first [n] samples of the pulse train. *)
Definition pulse (cs n : nat) (A : Z) : list Z := pulse_at cs A <$> seq 0 n.

(** The delay the encoder uses for a bit. *)
Definition delay_of (d0 d1 : nat) (b : bool) : nat := if b then d1 else d0.

(** Whether sample [k] receives the echo of a chunk [j >= j0] of [bits]:
    [k = j * cs + delay_j]. *)
Definition echo_hit (cs d0 d1 j0 : nat) (bits : list bool) (k : nat) : bool :=
  bool_decide (j0 ≤ k / cs) &&
  match bits !! (k / cs - j0) with
  | Some b => bool_decide (k mod cs = delay_of d0 d1 b)
  | None => false
  end.

(** The stego sample at [k] the pulse train gives. *)
Definition pulse_stego (cs d0 d1 : nat) (bits : list bool) (A E : Z) (k : nat) : Z :=
  if bool_decide (k mod cs = 0) then A
  else if echo_hit cs d0 d1 0 bits k then E else 0%Z.

(** ** Index arithmetic *)

Section Arith.
Variables (cs j0 delay k : nat).
Hypothesis Hdelay : 0 < delay < cs.

Lemma window_mod :
  j0 * cs + delay ≤ k < j0 * cs + cs + delay →
  (k - delay) mod cs = 0 ↔ k / cs = j0 ∧ k mod cs = delay.
Proof.
  intros Hw. split.
  - intros Hm. pose proof (Nat.div_mod (k - delay) cs ltac:(lia)) as Hd.
    rewrite Hm, Nat.add_0_r in Hd.
    assert ((k - delay) / cs = j0) as Hq by nia.
    assert (k = cs * j0 + delay) as Hk by lia.
    split; [symmetry; apply (Nat.div_unique _ _ _ delay)|symmetry; apply (Nat.mod_unique _ _ j0)]; lia.
  - intros [Hq Hr]. pose proof (Nat.div_mod k cs ltac:(lia)) as Hd.
    symmetry. apply (Nat.mod_unique _ _ j0); lia.
Qed.

Lemma outside_window :
  ¬ (j0 * cs + delay ≤ k < j0 * cs + cs + delay) → ¬ (k / cs = j0 ∧ k mod cs = delay).
Proof.
  intros Hw [Hq Hr]. pose proof (Nat.div_mod k cs ltac:(lia)). nia.
Qed.
End Arith.

Lemma lookup_pulse (cs n k : nat) (A : Z) :
  pulse cs n A !! k = if bool_decide (k < n) then Some (pulse_at cs A k) else None.
Proof.
  unfold pulse. rewrite list_lookup_fmap. case_bool_decide.
  - by rewrite lookup_seq_lt.
  - by rewrite lookup_seq_ge by lia.
Qed.

Lemma length_pulse (cs n : nat) (A : Z) : length (pulse cs n A) = n.
Proof. unfold pulse. by rewrite length_fmap, length_seq. Qed.

Lemma pulse_int16 (cs n : nat) (A : Z) : is_int16 A → Forall is_int16 (pulse cs n A).
Proof.
  intros HA. unfold pulse. apply Forall_fmap, Forall_true. intros k. cbn. unfold pulse_at.
  case_bool_decide; [done|]. unfold is_int16, int16_min, int16_max. lia.
Qed.

Lemma echo_hit_nil (cs d0 d1 j0 k : nat) : echo_hit cs d0 d1 j0 [] k = false.
Proof. unfold echo_hit. by rewrite lookup_nil, andb_false_r. Qed.

Lemma echo_hit_cons (cs d0 d1 j0 k : nat) (b : bool) (bs : list bool) :
  echo_hit cs d0 d1 j0 (b :: bs) k =
  bool_decide (k / cs = j0 ∧ k mod cs = delay_of d0 d1 b) || echo_hit cs d0 d1 (S j0) bs k.
Proof.
  unfold echo_hit. destruct (lt_eq_lt_dec (k / cs) j0) as [[Hlt| ->]|Hgt].
  - rewrite !bool_decide_false by lia. done.
  - rewrite Nat.sub_diag. cbn. rewrite (bool_decide_true (j0 ≤ j0)) by lia.
    rewrite (bool_decide_false (S j0 ≤ j0)) by lia. cbn.
    rewrite orb_false_r. apply bool_decide_ext. tauto.
  - rewrite (bool_decide_false (k / cs = j0 ∧ _)) by lia.
    rewrite !bool_decide_true by lia. cbn.
    by replace (k / cs - j0) with (S (k / cs - S j0)) by lia.
Qed.

(** ** Correlations with a single pulse *)

Lemma dot_zeros_l (xs ys : list Z) : Forall (λ x, x = 0%Z) xs → dot xs ys = 0%Z.
Proof.
  unfold dot. intros Hxs. revert ys. induction Hxs as [|x xs -> _ IH]; intros [|y ys]; cbn; try done.
  rewrite IH. lia.
Qed.

(** A chunk that is one pulse followed by silence correlates with a
    signal as the pulse times the signal's first sample. *)
Lemma dot_head (xs ys : list Z) (a y : Z) :
  xs !! 0 = Some a → ys !! 0 = Some y →
  (∀ t x, xs !! S t = Some x → x = 0%Z) →
  dot xs ys = (a * y)%Z.
Proof.
  destruct xs as [|x xs], ys as [|y' ys]; cbn; try done. intros [= ->] [= ->] Hz.
  unfold dot in *. cbn. fold (dot xs ys). rewrite dot_zeros_l; [lia|].
  apply Forall_lookup. intros t x Hx. by apply (Hz t).
Qed.

Lemma div_mod_chunk (cs i t : nat) : t < cs → (i * cs + t) / cs = i ∧ (i * cs + t) mod cs = t.
Proof.
  intros Ht. split.
  - symmetry. apply (Nat.div_unique _ _ _ t); lia.
  - symmetry. apply (Nat.mod_unique _ _ i); lia.
Qed.

(** ** The encoder on a pulse train *)

Section Encoder.
Variables (cs n d0 d1 : nat) (A : Z) (alpha : Q).
Hypothesis Hd0 : 0 < d0 < cs.
Hypothesis Hd1 : 0 < d1 < cs.

Lemma delay_of_bounds (b : bool) : 0 < delay_of d0 d1 b < cs.
Proof. destruct b; cbn; lia. Qed.

(** Each chunk adds [alpha * A] at its echo position and nothing
    elsewhere. *)
Lemma echo_sum_pulse (bits : list bool) (j0 k : nat) (acc : Q) :
  k < n →
  (echo_sum cs (inject_Z <$> pulse cs n A) d0 d1 alpha j0 bits k acc ==
   acc + if echo_hit cs d0 d1 j0 bits k then alpha * inject_Z A else 0)%Q.
Proof.
  intros Hk. revert j0 acc. induction bits as [|b bs IH]; intros j0 acc.
  - rewrite echo_hit_nil. cbn. ring.
  - cbn [echo_sum]. rewrite IH, echo_hit_cons. fold (delay_of d0 d1 b).
    pose proof (delay_of_bounds b) as Hb. set (δ := delay_of d0 d1 b) in *.
    rewrite list_lookup_fmap, lookup_pulse, (bool_decide_true (k - δ < n)) by lia.
    cbn [fmap option_fmap option_map default].
    unfold pulse_at.
    case_bool_decide as Hw.
    + pose proof (window_mod cs j0 δ k Hb Hw) as Hm.
      case_bool_decide as Hz; case_bool_decide as Hh; try tauto.
      * assert (echo_hit cs d0 d1 (S j0) bs k = false) as ->.
        { unfold echo_hit. rewrite bool_decide_false by lia. done. }
        cbn. ring.
      * cbn. ring.
    + rewrite (bool_decide_false (k / cs = j0 ∧ _)) by (by apply outside_window). cbn. ring.
Qed.
Lemma echo_hit_mod (bits : list bool) (j0 k : nat) :
  echo_hit cs d0 d1 j0 bits k = true → 0 < k mod cs.
Proof.
  unfold echo_hit. destruct (bits !! _) as [b|]; rewrite ?andb_false_r; [|done].
  intros [_ ?%bool_decide_eq_true]%andb_prop. pose proof (delay_of_bounds b). lia.
Qed.

Section Stego.
Variables (m : message) (out : list Q).
Hypothesis HA : is_int16 A.
Hypothesis Henc : encode_echo_samples cs (inject_Z <$> pulse cs n A) m d0 d1 alpha = Some out.

(** The int16 stego buffer the page writes for a pulse-train carrier. *)
Lemma lookup_pulse_stego (k : nat) :
  (quantize <$> out) !! k =
  if bool_decide (k < n)
  then Some (pulse_stego cs d0 d1 (encode_bits m) A (quantize (alpha * inject_Z A)) k)
  else None.
Proof.
  rewrite list_lookup_fmap, (lookup_encode_echo cs _ m d0 d1 alpha out k) by (lia || done).
  rewrite list_lookup_fmap, lookup_pulse. case_bool_decide as Hk; [|done]. cbn. f_equal.
  rewrite echo_sum_pulse by done. unfold pulse_stego, pulse_at. case_bool_decide as Hz.
  - destruct (echo_hit _ _ _ _ _ _) eqn:Eh; [apply echo_hit_mod in Eh; lia|].
    rewrite Qplus_0_r. by apply quantize_Z.
  - destruct (echo_hit _ _ _ _ _ _); rewrite Qplus_0_l; [done|reflexivity].
Qed.
End Stego.
End Encoder.

(** ** The decoder on the stego buffer *)

Section Decoder.
Variables (cs n d0 d1 : nat) (A E : Z) (bits : list bool) (st : list Z).
Hypothesis Hd0 : 0 < d0 < cs.
Hypothesis Hd1 : 0 < d1 < cs.
Hypothesis Hst : ∀ k, st !! k =
  if bool_decide (k < n) then Some (pulse_stego cs d0 d1 bits A E k) else None.

Lemma pulse_at_chunk (i t : nat) : t < cs → pulse_at cs A (i * cs + t) = if bool_decide (t = 0) then A else 0%Z.
Proof.
  intros Ht. unfold pulse_at. destruct (div_mod_chunk cs i t Ht) as [_ ->]. done.
Qed.

(** The correlation of chunk [i] of the pulse train with the echo at
    delay [d] is the pulse times the stego sample [d] after the chunk's
    start. *)
Lemma corr_pulse (i d : nat) :
  0 < d < cs → d ≤ Nat.max d0 d1 → i * cs + cs + Nat.max d0 d1 ≤ n →
  let start := i * cs in
  let end_ := start + cs in
  let echo := zip_with Z.sub (slice st start (end_ + Nat.max d0 d1))
                             (slice (pulse cs n A) start (end_ + Nat.max d0 d1)) in
  let oc := slice (pulse cs n A) start end_ in
  dot oc (slice echo d (d + length oc)) = (A * pulse_stego cs d0 d1 bits A E (i * cs + d))%Z.
Proof.
  intros Hd Hdm Hn start end_ echo oc.
  assert (length oc = cs) as Hoc.
  { unfold oc. rewrite length_slice, length_pulse. lia. }
  rewrite (dot_head _ _ A (pulse_stego cs d0 d1 bits A E (i * cs + d) - 0)); [lia|..].
  - unfold oc. rewrite lookup_slice, bool_decide_true by lia.
    rewrite lookup_pulse, bool_decide_true by lia. unfold start.
    rewrite Nat.add_0_r, <- (Nat.add_0_r (i * cs)), pulse_at_chunk by lia. done.
  - rewrite lookup_slice, bool_decide_true by lia. rewrite Nat.add_0_r.
    unfold echo. rewrite lookup_zip_with, !lookup_slice, !bool_decide_true by lia.
    rewrite Hst, lookup_pulse, !bool_decide_true by lia. cbn.
    unfold start. rewrite pulse_at_chunk, bool_decide_false by lia. done.
  - intros t x. unfold oc. rewrite lookup_slice. case_bool_decide; [|done].
    rewrite lookup_pulse. case_bool_decide; [|done]. unfold start.
    rewrite pulse_at_chunk, bool_decide_false by lia. by intros [= <-].
Qed.
Lemma pulse_stego_echo (i d : nat) (b : bool) :
  0 < d < cs → bits !! i = Some b →
  pulse_stego cs d0 d1 bits A E (i * cs + d) =
  if bool_decide (d = delay_of d0 d1 b) then E else 0%Z.
Proof.
  intros Hd Hb. destruct (div_mod_chunk cs i d ltac:(lia)) as [Hq Hr].
  unfold pulse_stego, echo_hit. rewrite Hr, Hq, bool_decide_false, bool_decide_true by lia.
  rewrite Nat.sub_0_r, Hb. cbn. by repeat case_bool_decide.
Qed.

(** Chunk [i] of a message reads back its bit. *)
Lemma chunk_diag_pulse (i : nat) (b : bool) :
  d0 ≠ d1 → A ≠ 0%Z → E ≠ 0%Z → bits !! i = Some b →
  i * cs + cs + Nat.max d0 d1 ≤ n →
  diag_bit (chunk_diag cs (pulse cs n A) st d0 d1 i) = b.
Proof.
  intros Hne HA HE Hb Hn. unfold chunk_diag. cbv zeta. cbn [diag_bit].
  pose proof (corr_pulse i d0 ltac:(lia) ltac:(lia) Hn) as C0. cbv zeta in C0.
  pose proof (corr_pulse i d1 ltac:(lia) ltac:(lia) Hn) as C1. cbv zeta in C1.
  rewrite C0, C1, !(pulse_stego_echo i _ b) by (lia || done).
  assert (A * E ≠ 0)%Z by (intros [|]%Z.mul_eq_0; tauto).
  destruct b; cbn [delay_of]; repeat case_bool_decide; try lia; done.
Qed.
End Decoder.

(** ** The round trip *)

(** Every chunk that carries a bit of the message reads it back: the
    condition of [echo_roundtrip_samples] holds for a pulse-train
    carrier. *)
Lemma pulse_reads_back (cs n : nat) (A : Z) (m : message) (d0 d1 : nat) (alpha : Q)
    (out : list Q) :
  0 < d0 < cs → 0 < d1 < cs → d0 ≠ d1 →
  is_int16 A → A ≠ 0%Z → quantize (alpha * inject_Z A) ≠ 0%Z →
  encode_echo_samples cs (inject_Z <$> pulse cs n A) m d0 d1 alpha = Some out →
  Forall (λ j, Some (diag_bit (chunk_diag cs (pulse cs n A) (quantize <$> out) d0 d1 j)) =
               encode_bits m !! j)
    (seq 0 (length (encode_bits m))).
Proof.
  intros Hd0 Hd1 Hne HA16 HA HE Henc.
  assert (length (encode_bits m) * cs + Nat.max d0 d1 ≤ n) as Hcap.
  { destruct (decide (n < length (encode_bits m) * cs + Nat.max d0 d1)) as [Hlt|]; [|lia].
    rewrite <- (length_pulse cs n A), <- (length_fmap inject_Z) in Hlt.
    apply (proj2 (encode_echo_capacity cs _ m d0 d1 alpha)) in Hlt. congruence. }
  apply Forall_seq. intros j Hj.
  destruct (lookup_lt_is_Some_2 (encode_bits m) j ltac:(lia)) as [b Hb]. rewrite Hb. f_equal.
  apply (chunk_diag_pulse cs n d0 d1 A (quantize (alpha * inject_Z A)) (encode_bits m)); try done.
  - intros k. by apply (lookup_pulse_stego cs n d0 d1 A alpha Hd0 Hd1 m out).
  - nia.
Qed.

(** C40. Echo hiding reads back every message from a pulse-train
    carrier: one int16 pulse [A ≠ 0] at the start of each chunk, delays
    [0 < d0 ≠ d1 < cs], and a strength whose echo [alpha * A] survives
    the cast to int16.  The condition on the correlation tests is
    discharged: the decoder of the int16 stego buffer returns the
    message whenever the encoder accepted it. *)
Theorem echo_pulse_roundtrip (cs n : nat) (A : Z) (m : message) (d0 d1 : nat) (alpha : Q)
    (out : list Q) :
  0 < d0 < cs → 0 < d1 < cs → d0 ≠ d1 →
  is_int16 A → A ≠ 0%Z → quantize (alpha * inject_Z A) ≠ 0%Z →
  Forall (byte_char echo_stop) m →
  ¬ infix_of terminator (m ++ [hash; hash]) →
  encode_echo_samples cs (inject_Z <$> pulse cs n A) m d0 d1 alpha = Some out →
  (decode_echo_samples cs (pulse cs n A) (quantize <$> out) d0 d1).1.1 = m.
Proof.
  intros Hd0 Hd1 Hne HA16 HA HE Hm Hinf Henc.
  apply (echo_roundtrip_samples cs _ m d0 d1 alpha out); [lia|done|done|done|].
  by apply (pulse_reads_back cs n A m d0 d1 alpha out).
Qed.

(** C40 on concrete data: "HI" on a pulse train of amplitude 1000 with
    16-sample chunks, delays 2 and 5, strength 1/2. *)
Lemma echo_pulse_roundtrip_witness :
  ∃ out, encode_echo_samples 16 (inject_Z <$> pulse 16 645 1000) (codes "HI") 2 5 (1 # 2) = Some out ∧
         (decode_echo_samples 16 (pulse 16 645 1000) (quantize <$> out) 2 5).1.1 = codes "HI".
Proof.
  eexists; split; [vm_compute; reflexivity|].
  apply (echo_pulse_roundtrip 16 645 1000 (codes "HI") 2 5 (1 # 2)).
  - lia.
  - lia.
  - lia.
  - decide_concrete.
  - discriminate.
  - vm_compute. discriminate.
  - repeat constructor.
  - apply not_infix_of_infixb. reflexivity.
  - vm_compute. reflexivity.
Defined.

End EchoCarrier.
