(* ===== verification/Engine.v ===== *)
(** * Engine: what a steganography engine promises the page

    The page ([App.v]) calls an encoder on the uploaded file and a
    decoder on the stego file (and, for echo hiding, the original).
    [Engine] is the interface it relies on: the two operations, the
    number of samples a message needs, the messages the framing carries
    back, and the condition on the carrier under which decoding reads
    the message back.  [EngineLaws] is the abstract contract: an
    unreadable file is reported and nothing else raises; a message that
    does not fit is refused exactly when the file is too short; an
    accepted message gives a file of the same length and header; and
    that file decodes to the message.
    Both engines meet the contract ([lsb_engine_laws],
    [echo_engine_laws]): the LSB engine with no condition on the carrier,
    the echo engine under the condition that the correlation test of each
    chunk reads back its bit, which [EchoCarrier.v] discharges for
    pulse-train carriers.

    Both encoders have the shape of [pipeline]: read the samples, run
    the sample-level encoder, write the result with the input's
    parameters (app.py 31-34 and 80-110). *)

From Stdlib Require Import QArith String.
From S2P Require Import Prelude BitCodec Samples LSB Echo.

Module Engine.
Import BitCodec Samples LSB Echo.

Class Engine : Type := {
  eng_encode : wav → message → pyres (option wav);
  (** the original file, then the stego file *)
  eng_decode : wav → wav → pyres message;
  eng_needed : message → nat;
  eng_admissible : message → Prop;
  (** original samples, stego samples, message *)
  eng_reads_back : list Z → list Z → message → Prop
}.

Class EngineLaws (E : Engine) : Prop := {
  eng_read_error w m e :
    read_wav_bytes w = PyRaise e → eng_encode w m = PyRaise e;
  eng_total w s p m :
    read_wav_bytes w = PyOk (s, p) → ∃ r, eng_encode w m = PyOk r;
  eng_too_large w s p m :
    read_wav_bytes w = PyOk (s, p) →
    eng_encode w m = PyOk None ↔ (length s < eng_needed m)%nat;
  eng_output w s p m w' :
    read_wav_bytes w = PyOk (s, p) → eng_encode w m = PyOk (Some w') →
    ∃ s', read_wav_bytes w' = PyOk (s', p) ∧ length s' = length s;
  eng_roundtrip w s p m w' s' :
    read_wav_bytes w = PyOk (s, p) → eng_admissible m →
    eng_encode w m = PyOk (Some w') → read_wav_bytes w' = PyOk (s', p) →
    eng_reads_back s s' m → eng_decode w w' = PyOk m
}.

(** Read, encode the samples, write with the same parameters. *)
Definition pipeline (enc : list Z → option (list Q)) (w : wav) : pyres (option wav) :=
  '(samples, params) ← read_wav_bytes w;
  match enc samples with
  | None => mret None
  | Some out => mret (Some (write_wav_bytes out params))
  end.

(** [encode_lsb] and [decode_lsb]. *)
#[export] Instance lsb_engine : Engine := {
  eng_encode := encode_lsb;
  eng_decode _ stego := decode_lsb stego;
  eng_needed m := length (encode_bits m);
  eng_admissible m := Forall (byte_char lsb_stop) m ∧ ¬ infix_of terminator (m ++ [hash; hash]);
  eng_reads_back _ _ _ := True
}.

(** [encode_echo_simple] and [decode_echo_simple] at the page's delays
    and strength; [result, debug_info, bits = ...] keeps the message. *)
Definition echo_engine (d0 d1 : nat) (alpha : Q) : Engine := {|
  eng_encode w m := encode_echo_simple w m d0 d1 alpha;
  eng_decode original stego :=
    r ← decode_echo_simple original stego d0 d1; mret r.1.1;
  eng_needed m := length (encode_bits m) * chunk_size + Nat.max d0 d1;
  eng_admissible m := Forall (byte_char echo_stop) m ∧ ¬ infix_of terminator (m ++ [hash; hash]);
  eng_reads_back s s' m :=
    Forall (λ j, Some (diag_bit (chunk_diag chunk_size s s' d0 d1 j)) = encode_bits m !! j)
      (seq 0 (length (encode_bits m)))
|}.

(** ** The pipeline *)

Section Pipeline.
Variable enc : list Z → option (list Q).

Lemma pipeline_read_error (w : wav) (e : py_exn) :
  read_wav_bytes w = PyRaise e → pipeline enc w = PyRaise e.
Proof. unfold pipeline. by intros ->. Qed.

Lemma pipeline_total (w : wav) (s : list Z) (p : wav_params) :
  read_wav_bytes w = PyOk (s, p) → ∃ r, pipeline enc w = PyOk r.
Proof. unfold pipeline. intros ->. cbn. destruct (enc s); eauto. Qed.

Lemma pipeline_none (w : wav) (s : list Z) (p : wav_params) :
  read_wav_bytes w = PyOk (s, p) → pipeline enc w = PyOk None ↔ enc s = None.
Proof. unfold pipeline. intros ->. cbn. by destruct (enc s). Qed.

Lemma pipeline_some (w w' : wav) (s : list Z) (p : wav_params) :
  read_wav_bytes w = PyOk (s, p) → pipeline enc w = PyOk (Some w') →
  ∃ out, enc s = Some out ∧ read_wav_bytes w' = PyOk (quantize <$> out, p).
Proof.
  unfold pipeline. intros ->. cbn. destruct (enc s) as [out|]; [|done].
  intros [= <-]. exists out. split; [done|]. apply read_write_wav_any.
Qed.

(** The written file has as many samples as the input when the
    sample-level encoder keeps the length. *)
Lemma pipeline_output (w w' : wav) (s : list Z) (p : wav_params) :
  (∀ s out, enc s = Some out → length out = length s) →
  read_wav_bytes w = PyOk (s, p) → pipeline enc w = PyOk (Some w') →
  ∃ s', read_wav_bytes w' = PyOk (s', p) ∧ length s' = length s.
Proof.
  intros Hlen Hr Hw. destruct (pipeline_some w w' s p Hr Hw) as (out & He & Hr').
  exists (quantize <$> out). split; [done|]. rewrite length_fmap. by apply Hlen.
Qed.
End Pipeline.

Lemma encode_lsb_pipeline (w : wav) (m : message) :
  encode_lsb w m = pipeline (λ s, option_map (λ out : list Z, inject_Z <$> out) (encode_lsb_samples s m)) w.
Proof.
  unfold encode_lsb, pipeline. destruct (read_wav_bytes w) as [[s p]|]; [|done]. cbn.
  by destruct (encode_lsb_samples s m).
Qed.

Lemma encode_echo_pipeline (w : wav) (m : message) (d0 d1 : nat) (alpha : Q) :
  encode_echo_simple w m d0 d1 alpha =
  pipeline (λ s, encode_echo_samples chunk_size (inject_Z <$> s) m d0 d1 alpha) w.
Proof. reflexivity. Qed.

Lemma read_wav_bytes_Some_inj (w : wav) (s s' : list Z) (p p' : wav_params) :
  read_wav_bytes w = PyOk (s, p) → read_wav_bytes w = PyOk (s', p') → s = s' ∧ p = p'.
Proof. intros -> [= -> ->]. done. Qed.

(** ** The two engines meet the contract *)

Lemma lsb_engine_laws : EngineLaws lsb_engine.
Proof.
  split; cbn; intros *; rewrite ?encode_lsb_pipeline.
  - apply pipeline_read_error.
  - apply pipeline_total.
  - intros Hr. rewrite (pipeline_none _ w s p Hr).
    destruct (encode_lsb_samples s m) eqn:E; cbn.
    + split; [done|]. by intros ?%encode_lsb_capacity; simplify_eq.
    + split; [|done]. intros _. by apply encode_lsb_capacity.
  - apply pipeline_output. intros s0 out.
    destruct (encode_lsb_samples s0 m) as [o|] eqn:E; cbn; [|done].
    intros [= <-]. rewrite length_fmap. by apply (encode_lsb_shape s0 m).
  - intros Hr [Hm Hinf] Hw Hr' _.
    destruct (pipeline_some _ w w' s p Hr Hw) as (out & He & Hr'').
    destruct (encode_lsb_samples s m) as [o|] eqn:E; cbn in He; [|done]. injection He as <-.
    destruct (read_wav_bytes_Some_inj _ _ _ _ _ Hr' Hr'') as [-> _].
    unfold decode_lsb. rewrite Hr''. cbn. f_equal.
    destruct (encode_lsb_shape s m o E) as [_ Hint].
    rewrite <- list_fmap_compose, (list_fmap_ext _ id), list_fmap_id.
    + by apply (decode_encode_lsb_samples s m o).
    + intros i x Hx. apply quantize_Z. by eapply Forall_lookup_1.
Qed.
#[export] Existing Instance lsb_engine_laws.

Lemma echo_engine_laws (d0 d1 : nat) (alpha : Q) : EngineLaws (echo_engine d0 d1 alpha).
Proof.
  split; cbn [eng_encode eng_decode eng_needed eng_admissible eng_reads_back echo_engine];
    intros *; rewrite ?encode_echo_pipeline.
  - apply pipeline_read_error.
  - apply pipeline_total.
  - intros Hr. rewrite (pipeline_none _ w s p Hr), encode_echo_capacity, length_fmap. done.
  - apply pipeline_output. intros s0 out E. apply encode_echo_length in E.
    by rewrite E, length_fmap.
  - intros Hr [Hm Hinf] Hw Hr' Hbits.
    destruct (pipeline_some _ w w' s p Hr Hw) as (out & He & Hr'').
    destruct (read_wav_bytes_Some_inj _ _ _ _ _ Hr' Hr'') as [-> _].
    unfold decode_echo_simple. rewrite Hr, Hr''. cbn [mbind pyres_bind mret pyres_ret]. f_equal.
    apply (echo_roundtrip_samples chunk_size s m d0 d1 alpha out); [|exact Hm|exact Hinf|exact He|exact Hbits].
    apply Nat.ltb_lt. reflexivity.
Qed.
#[export] Existing Instance echo_engine_laws.

(** C38. The LSB engine refines the abstract contract, with no
    condition on the carrier: [encode_lsb] reports an unreadable file
    and raises nothing else, refuses a message exactly when the file has
    fewer samples than the framed message has bits, writes a file of
    the same length and header, and [decode_lsb] reads the message back
    from it. *)
Theorem lsb_engine_refines : EngineLaws lsb_engine.
Proof. exact lsb_engine_laws. Qed.

End Engine.
