(* ===== verification/App.v ===== *)
(** * App: the Streamlit page around the engines

    Models the control flow of the page (src/app.py, lines 175-313) as
    functions from the state of the widgets to the list of elements the
    page shows: the encode tab ([encode_tab], lines 181-235) and the
    decode tab ([decode_tab], lines 238-312).  Uploads are [option wav]
    (no file, or a parsed file), the text area is a [message], a click
    of the button is a [bool].  Each action runs the engine inside
    [try]/[except Exception] ([encode_action], [decode_action]): an
    exception becomes an error element with [str(e)].  The page's
    theorems are proved against the engine contract of [Engine.v]
    through [engine_of]; the echo round trip on a pulse-train recording
    also uses [EchoCarrier.v].  Layout (tabs, columns, spinner) is not
    modelled. *)

From Stdlib Require Import QArith String.
From S2P Require Import Prelude BitCodec Samples LSB Echo EchoCarrier Engine.

Module App.
Import BitCodec Samples LSB Echo EchoCarrier Engine.

(** [st.selectbox("Steganography Technique", ["LSB", "Echo Hiding"])] *)
Inductive technique : Type :=
| TechLSB
| TechEcho.

(** The elements the page shows. *)
Inductive element : Type :=
| PageConfig (page_title : string) (layout : string)
| Title (text : string)
| Subheader (text : string)
| Success (text : string)
| Error (text : string)
| Warning (text : string)
| DownloadButton (label : string) (data : wav) (file_name : string) (mime : string)
| Markdown (text : string)
| CodeBlock (text : message).

(** [str(e)]: the engines raise only [ValueError], from [np.frombuffer]
    on an odd number of bytes. *)
Definition exn_text (e : py_exn) : string :=
  match e with
  | ValueError => "buffer size must be a multiple of element size"
  | ZeroDivisionError => "division by zero"
  end.

(** The encode tab's widgets.  The three sliders exist only for echo
    hiding; their values are in [enc_d0], [enc_d1], [enc_alpha]. *)
Record encode_inputs : Type := {
  enc_file : option wav;
  enc_message : message;
  enc_tech : technique;
  enc_d0 : nat; enc_d1 : nat; enc_alpha : Q;
  enc_clicked : bool }.

(** The call of lines 210-215. *)
Definition run_encoder (i : encode_inputs) (audio : wav) : pyres (option wav) :=
  match enc_tech i with
  | TechLSB => encode_lsb audio (enc_message i)
  | TechEcho => encode_echo_simple audio (enc_message i) (enc_d0 i) (enc_d1 i) (enc_alpha i)
  end.

(** Lines 209-235, the [try] block: what the page shows for the
    encoder's result. *)
Definition encode_action (t : technique) (r : pyres (option wav)) : list element :=
  match r with
  | PyOk (Some stego) =>
      [Success "Encoding successful";
       DownloadButton "Download Stego Audio" stego "stego_audio.wav" "audio/wav"] ++
      match t with
      | TechEcho => [Warning "Keep your original audio file! You'll need it to decode the message."]
      | TechLSB => []
      end
  | PyOk None => [Error "Message is too large for this audio file"]
  | PyRaise e => [Error ("Error during encoding: " ++ exn_text e)]
  end.

(** Lines 204-235: [if audio_file and message: if st.button(...): try ...]. *)
Definition encode_tab (i : encode_inputs) : list element :=
  match enc_file i with
  | None => []
  | Some audio =>
      if bool_decide (enc_message i = []) then []
      else if negb (enc_clicked i) then []
      else encode_action (enc_tech i) (run_encoder i audio)
  end.

(** The decode tab's widgets; [dec_original] is the upload shown only
    for echo hiding. *)
Record decode_inputs : Type := {
  dec_tech : technique;
  dec_stego : option wav;
  dec_original : option wav;
  dec_d0 : nat; dec_d1 : nat;
  dec_clicked : bool }.

(** What a finished decoding shows (lines 258-260 and 307-309). *)
Definition show_result (result : message) : list element :=
  [Success "Decoding complete"; Markdown "### Decoded Message:"; CodeBlock result].

(** Lines 255-263 and 299-312, the [try] blocks of the decode tab. *)
Definition decode_action (r : pyres message) : list element :=
  match r with
  | PyOk result => show_result result
  | PyRaise e => [Error ("Error during decoding: " ++ exn_text e)]
  end.

(** Lines 247-312. *)
Definition decode_tab (i : decode_inputs) : list element :=
  match dec_tech i with
  | TechLSB =>
      match dec_stego i with
      | Some stego =>
          if negb (dec_clicked i) then [] else decode_action (decode_lsb stego)
      | None => []
      end
  | TechEcho =>
      match dec_original i, dec_stego i with
      | Some original, Some stego =>
          if negb (dec_clicked i) then []
          else
            decode_action ('(result, _, _) ← decode_echo_simple original stego (dec_d0 i) (dec_d1 i);
                           mret result)
      | _, _ => []
      end
  end.

(** Lines 175-182 and 238-239: one run of the script shows the page
    configuration and the title, then each tab under its subheader. *)
Definition app_page (i : encode_inputs) (d : decode_inputs) :
    list element * list element * list element :=
  ([PageConfig "Audio Steganography" "centered"; Title "Audio Steganography System"],
   Subheader "Encode Secret Message" :: encode_tab i,
   Subheader "Decode Hidden Message" :: decode_tab d).

(** The engine behind each choice of the select box, at the sliders'
    values. *)
Definition engine_of (t : technique) (d0 d1 : nat) (alpha : Q) : Engine :=
  match t with
  | TechLSB => lsb_engine
  | TechEcho => echo_engine d0 d1 alpha
  end.

(** The number of samples an engine needs for [n] framed bits: one per
    bit for LSB (app.py:37), one chunk per bit plus the larger delay
    for echo hiding (app.py:101). *)
Definition samples_needed (t : technique) (nbits d0 d1 : nat) : nat :=
  match t with
  | TechLSB => nbits
  | TechEcho => nbits * chunk_size + Nat.max d0 d1
  end.

(** The uploads the decode tab waits for before it shows its button:
    the stego file for LSB, both files for echo hiding. *)
Definition decode_ready (d : decode_inputs) : Prop :=
  match dec_tech d with
  | TechLSB => is_Some (dec_stego d)
  | TechEcho => is_Some (dec_original d) ∧ is_Some (dec_stego d)
  end.

(** A status element: what a finished action shows first. *)
Definition status_first (els : list element) : Prop :=
  (∃ t rest, els = Success t :: rest) ∨ (∃ t, els = [Error t]).

(** ** The page's guarantees *)

#[export] Instance engine_of_laws (t : technique) (d0 d1 : nat) (alpha : Q) :
  EngineLaws (engine_of t d0 d1 alpha).
Proof. destruct t; cbn; apply _. Qed.

Lemma run_encoder_engine (i : encode_inputs) (f : wav) :
  run_encoder i f =
  @eng_encode (engine_of (enc_tech i) (enc_d0 i) (enc_d1 i) (enc_alpha i)) f (enc_message i).
Proof. unfold run_encoder. by destruct (enc_tech i). Qed.

Lemma samples_needed_engine (t : technique) (d0 d1 : nat) (alpha : Q) (m : message) :
  samples_needed t (length (encode_bits m)) d0 d1 = @eng_needed (engine_of t d0 d1 alpha) m.
Proof. by destruct t. Qed.

Lemma encode_tab_clicked (i : encode_inputs) (f : wav) :
  enc_file i = Some f → enc_message i ≠ [] → enc_clicked i = true →
  encode_tab i =
  encode_action (enc_tech i)
    (@eng_encode (engine_of (enc_tech i) (enc_d0 i) (enc_d1 i) (enc_alpha i)) f (enc_message i)).
Proof.
  intros Hf Hne Hc. unfold encode_tab. rewrite Hf, Hc, bool_decide_eq_false_2 by done.
  cbn. by rewrite run_encoder_engine.
Qed.

Lemma decode_tab_clicked (d : decode_inputs) (o st : wav) (alpha : Q) :
  dec_stego d = Some st → (dec_tech d = TechEcho → dec_original d = Some o) →
  dec_clicked d = true →
  decode_tab d = decode_action (@eng_decode (engine_of (dec_tech d) (dec_d0 d) (dec_d1 d) alpha) o st).
Proof.
  intros Hs Ho Hc. unfold decode_tab.
  destruct (dec_tech d); [|rewrite (Ho eq_refl)]; rewrite Hs, Hc; cbn; [done|].
  by destruct (decode_echo_simple o st _ _) as [[[r ?] ?]|].
Qed.

Lemma encode_action_status (t : technique) (r : pyres (option wav)) :
  status_first (encode_action t r).
Proof. unfold status_first. destruct r as [[stego|]|e]; cbn; eauto. Qed.

Lemma decode_action_status (r : pyres message) : status_first (decode_action r).
Proof. unfold status_first. destruct r; cbn; eauto. Qed.

Lemma encode_action_download (t : technique) (r : pyres (option wav)) (w : wav)
    (label fname mime : string) :
  DownloadButton label w fname mime ∈ encode_action t r → r = PyOk (Some w).
Proof.
  intros Hin%list_elem_of_In. destruct r as [[stego|]|e]; [destruct t|..]; cbn in Hin;
    repeat match goal with H : _ ∨ _ |- _ => destruct H as [H|H] end; simplify_eq; done.
Qed.

(** A file the encode tab offers for download is what the selected
    encoder returned for the upload. *)
Lemma encode_tab_download_run (i : encode_inputs) (f w : wav) (label fname mime : string) :
  enc_file i = Some f →
  DownloadButton label w fname mime ∈ encode_tab i →
  run_encoder i f = PyOk (Some w).
Proof.
  intros Hf Hin. unfold encode_tab in Hin. rewrite Hf in Hin.
  case_bool_decide; [by apply elem_of_nil in Hin|].
  destruct (enc_clicked i); cbn in Hin; [|by apply elem_of_nil in Hin].
  by apply encode_action_download in Hin.
Qed.

(** Whatever the engine, the download reads back with the upload's
    parameters and length. *)
Lemma encode_tab_download_output (i : encode_inputs) (f w : wav) (label fname mime : string) :
  enc_file i = Some f →
  DownloadButton label w fname mime ∈ encode_tab i →
  ∃ s0 s, read_wav_bytes f = PyOk (s0, wav_header f) ∧
          read_wav_bytes w = PyOk (s, wav_header f) ∧ length s = length s0.
Proof.
  intros Hf Hin. pose proof (encode_tab_download_run i f w _ _ _ Hf Hin) as Hrun.
  rewrite run_encoder_engine in Hrun.
  set (E := engine_of (enc_tech i) (enc_d0 i) (enc_d1 i) (enc_alpha i)) in Hrun.
  destruct (read_wav_bytes f) as [[s0 p]|e] eqn:Hr;
    [|by rewrite (@eng_read_error E _ f _ e Hr) in Hrun].
  pose proof (read_wav_bytes_header f s0 p Hr) as ->.
  destruct (@eng_output E _ f s0 _ _ w Hr Hrun) as (s & Hr' & Hl). eauto.
Qed.

(** An LSB download holds the samples [encode_lsb] computed from the
    upload's. *)
Lemma encode_tab_lsb_download (i : encode_inputs) (f w : wav) (label fname mime : string) :
  enc_tech i = TechLSB → enc_file i = Some f →
  DownloadButton label w fname mime ∈ encode_tab i →
  ∃ s out, read_wav_bytes f = PyOk (s, wav_header f) ∧
           encode_lsb_samples s (enc_message i) = Some out ∧
           read_wav_bytes w = PyOk (out, wav_header f).
Proof.
  intros Ht Hf Hin. pose proof (encode_tab_download_run i f w _ _ _ Hf Hin) as Hrun.
  unfold run_encoder, encode_lsb in Hrun. rewrite Ht in Hrun.
  destruct (read_wav_bytes f) as [[s p]|e] eqn:Hr; [|done].
  cbn [mbind pyres_bind] in Hrun.
  destruct (encode_lsb_samples s (enc_message i)) as [out|] eqn:E; [|done].
  injection Hrun as <-. pose proof (read_wav_bytes_header f s p Hr) as ->.
  exists s, out. split_and!; [done|done|].
  apply read_write_wav_Z. by apply (encode_lsb_shape s (enc_message i) out E).
Qed.

(** The page round trip for either engine, shared by C24 and C12. *)
Lemma app_round_trip (t : technique) (d0 d1 : nat) (alpha : Q) (w : wav) (m : message)
    (s : list Z) (p : wav_params) :
  read_wav_bytes w = PyOk (s, p) →
  m ≠ [] →
  @eng_admissible (engine_of t d0 d1 alpha) m →
  (@eng_needed (engine_of t d0 d1 alpha) m ≤ length s)%nat →
  ∃ w' s' extra,
    encode_tab {| enc_file := Some w; enc_message := m; enc_tech := t;
                  enc_d0 := d0; enc_d1 := d1; enc_alpha := alpha; enc_clicked := true |} =
      Success "Encoding successful" ::
      DownloadButton "Download Stego Audio" w' "stego_audio.wav" "audio/wav" :: extra ∧
    read_wav_bytes w' = PyOk (s', p) ∧ length s' = length s ∧
    (@eng_reads_back (engine_of t d0 d1 alpha) s s' m →
     decode_tab {| dec_tech := t; dec_stego := Some w'; dec_original := Some w;
                   dec_d0 := d0; dec_d1 := d1; dec_clicked := true |} = show_result m).
Proof.
  intros Hr Hne Hadm Hcap.
  destruct (@eng_total (engine_of t d0 d1 alpha) _ w s p m Hr) as [[w'|] He].
  - destruct (@eng_output (engine_of t d0 d1 alpha) _ w s p m w' Hr He) as (s' & Hr' & Hl).
    exists w', s', (match t with TechEcho => [Warning "Keep your original audio file! You'll need it to decode the message."] | TechLSB => [] end).
    split_and!; [|done|done|].
    + rewrite (encode_tab_clicked _ w) by done.
      cbn [enc_tech enc_d0 enc_d1 enc_alpha enc_message]. rewrite He. by destruct t.
    + intros Hback. rewrite (decode_tab_clicked _ w w' alpha) by done.
      cbn [dec_tech dec_d0 dec_d1]. by rewrite (@eng_roundtrip (engine_of t d0 d1 alpha) _ w s p m w' s' Hr Hadm He Hr' Hback).
  - apply (@eng_too_large (engine_of t d0 d1 alpha) _ w s p m Hr) in He. lia.
Qed.

(** C24. End to end through the page, for either technique: a message
    the engine can frame, typed into the encode tab with a file that has
    room for it, gives a success and a download button first; the
    downloaded file reads back with the upload's parameters and length;
    and when the engine's condition on the carrier holds (none for LSB;
    for echo hiding, each chunk's correlation test reads back its bit),
    the decode tab with the same technique and delays, given that file
    and the original, shows the message. *)
Theorem app_end_to_end (t : technique) (d0 d1 : nat) (alpha : Q) (w : wav) (m : message)
    (s : list Z) (p : wav_params) :
  read_wav_bytes w = PyOk (s, p) →
  m ≠ [] →
  @eng_admissible (engine_of t d0 d1 alpha) m →
  (@eng_needed (engine_of t d0 d1 alpha) m ≤ length s)%nat →
  ∃ w' s' extra,
    encode_tab {| enc_file := Some w; enc_message := m; enc_tech := t;
                  enc_d0 := d0; enc_d1 := d1; enc_alpha := alpha; enc_clicked := true |} =
      Success "Encoding successful" ::
      DownloadButton "Download Stego Audio" w' "stego_audio.wav" "audio/wav" :: extra ∧
    read_wav_bytes w' = PyOk (s', p) ∧ length s' = length s ∧
    (@eng_reads_back (engine_of t d0 d1 alpha) s s' m →
     decode_tab {| dec_tech := t; dec_stego := Some w'; dec_original := Some w;
                   dec_d0 := d0; dec_d1 := d1; dec_clicked := true |} = show_result m).
Proof. apply app_round_trip. Qed.

(** C12. Echo hiding end to end through the page on a pulse-train
    recording (one int16 pulse [A ≠ 0] every 8192 samples): a message of
    characters in [1..127] without an early ["###"] that fits, encoded
    with delays [0 < d0 ≠ d1 < 8192] and a strength whose echo survives
    the int16 cast, gives a success and a download button, and the
    decode tab with the same delays, given that file and the original,
    shows the message.  No condition on the correlations is left. *)
Theorem app_echo_pulse_roundtrip (n : nat) (A : Z) (m : message) (d0 d1 : nat) (alpha : Q)
    (p : wav_params) :
  0 < d0 < chunk_size → 0 < d1 < chunk_size → d0 ≠ d1 →
  is_int16 A → A ≠ 0%Z → quantize (alpha * inject_Z A) ≠ 0%Z →
  m ≠ [] → Forall (byte_char echo_stop) m → ¬ infix_of terminator (m ++ [hash; hash]) →
  (length (encode_bits m) * chunk_size + Nat.max d0 d1 ≤ n)%nat →
  let w := {| wav_header := p; wav_frames := frames_of_samples (pulse chunk_size n A) |} in
  ∃ w' extra,
    encode_tab {| enc_file := Some w; enc_message := m; enc_tech := TechEcho;
                  enc_d0 := d0; enc_d1 := d1; enc_alpha := alpha; enc_clicked := true |} =
      Success "Encoding successful" ::
      DownloadButton "Download Stego Audio" w' "stego_audio.wav" "audio/wav" :: extra ∧
    decode_tab {| dec_tech := TechEcho; dec_stego := Some w'; dec_original := Some w;
                  dec_d0 := d0; dec_d1 := d1; dec_clicked := true |} = show_result m.
Proof.
  intros Hd0 Hd1 Hne HA16 HA HE Hm Hadm Hinf Hcap w.
  assert (read_wav_bytes w = PyOk (pulse chunk_size n A, p)) as Hr.
  { unfold read_wav_bytes. cbn. by rewrite samples_of_frames_of_samples by by apply pulse_int16. }
  destruct (app_round_trip TechEcho d0 d1 alpha w m _ p Hr Hm (conj Hadm Hinf))
    as (w' & s' & extra & Henc & Hr' & _ & Hdec);
    [cbn; by rewrite length_pulse|].
  exists w', extra. split; [done|]. apply Hdec. cbn [eng_reads_back engine_of echo_engine].
  destruct (encode_echo_samples chunk_size (inject_Z <$> pulse chunk_size n A) m d0 d1 alpha)
    as [out|] eqn:E.
  - assert (w' = write_wav_bytes out p) as ->.
    { rewrite (encode_tab_clicked _ w) in Henc by done.
      cbn [enc_tech enc_d0 enc_d1 enc_alpha enc_message engine_of eng_encode echo_engine] in Henc.
      rewrite encode_echo_pipeline in Henc. unfold pipeline in Henc. rewrite Hr in Henc.
      cbn [mbind pyres_bind] in Henc. rewrite E in Henc. cbn in Henc. by injection Henc as ->. }
    rewrite read_write_wav_any in Hr'. injection Hr' as <-.
    by apply (pulse_reads_back chunk_size n A m d0 d1 alpha out).
  - apply (proj1 (encode_echo_capacity _ _ _ _ _ _)) in E.
    rewrite length_fmap, length_pulse in E. lia.
Qed.

(** C25. A message that does not fit: with a readable file, a non-empty
    message and the button pressed, the page shows exactly the error
    "Message is too large for this audio file", for either technique. *)
Theorem encode_tab_too_large (i : encode_inputs) (w : wav) (s : list Z) (p : wav_params) :
  enc_file i = Some w →
  enc_message i ≠ [] →
  enc_clicked i = true →
  read_wav_bytes w = PyOk (s, p) →
  (length s < samples_needed (enc_tech i) (length (encode_bits (enc_message i)))
                             (enc_d0 i) (enc_d1 i))%nat →
  encode_tab i = [Error "Message is too large for this audio file"].
Proof.
  intros Hf Hne Hc Hr Hlt. rewrite (encode_tab_clicked i w) by done.
  rewrite (samples_needed_engine _ _ _ (enc_alpha i)) in Hlt.
  by rewrite (proj2 (@eng_too_large (engine_of (enc_tech i) (enc_d0 i) (enc_d1 i) (enc_alpha i)) _ w s p _ Hr) Hlt).
Qed.

(** C26. A file whose frames do not read as 16-bit samples is reported,
    not propagated: the encode tab (either technique) and the LSB decode
    tab show one error element carrying [str(e)]. *)
Theorem app_read_error (i : encode_inputs) (w : wav) (d : decode_inputs) :
  read_wav_bytes w = PyRaise ValueError →
  enc_file i = Some w → enc_message i ≠ [] → enc_clicked i = true →
  dec_tech d = TechLSB → dec_stego d = Some w → dec_clicked d = true →
  encode_tab i = [Error "Error during encoding: buffer size must be a multiple of element size"] ∧
  decode_tab d = [Error "Error during decoding: buffer size must be a multiple of element size"].
Proof.
  intros Hr Hf Hne Hc Ht Hs Hdc. split.
  - rewrite (encode_tab_clicked i w) by done. by rewrite (@eng_read_error (engine_of (enc_tech i) (enc_d0 i) (enc_d1 i) (enc_alpha i)) _ w _ _ Hr).
  - rewrite (decode_tab_clicked d w w 0) by (done || congruence). rewrite Ht. cbn.
    unfold decode_lsb. by rewrite Hr.
Qed.

(** C37. Every click of an enabled button gets an answer: the tab then
    shows a success first, or exactly one error; nothing escapes as an
    exception and no click is silently ignored. *)
Theorem app_click_responds (i : encode_inputs) (d : decode_inputs) :
  is_Some (enc_file i) → enc_message i ≠ [] → enc_clicked i = true →
  decode_ready d → dec_clicked d = true →
  status_first (encode_tab i) ∧ status_first (decode_tab d).
Proof.
  intros [f Hf] Hne Hc Hd Hdc. split.
  - rewrite (encode_tab_clicked i f) by done. apply encode_action_status.
  - unfold decode_ready in Hd.
    destruct (dec_tech d) eqn:Ht; [destruct Hd as [st Hs]|destruct Hd as [[o Ho] [st Hs]]].
    + rewrite (decode_tab_clicked d st st 0) by (done || congruence).
      apply decode_action_status.
    + rewrite (decode_tab_clicked d o st 0) by done. apply decode_action_status.
Qed.

Lemma app_end_to_end_witness :
  let w := {| wav_header := {| nchannels := 1; sampwidth := 2; framerate := 8000; nframes := 40;
                               comptype := "NONE"; compname := "not compressed" |};
              wav_frames := replicate 80 Byte.x00 |} in
  ∃ w' s' extra,
    encode_tab {| enc_file := Some w; enc_message := codes "HI"; enc_tech := TechLSB;
                  enc_d0 := 200; enc_d1 := 400; enc_alpha := 1 # 2; enc_clicked := true |} =
      Success "Encoding successful" ::
      DownloadButton "Download Stego Audio" w' "stego_audio.wav" "audio/wav" :: extra ∧
    read_wav_bytes w' = PyOk (s', wav_header w) ∧ length s' = length (replicate 40 0%Z) ∧
    (@eng_reads_back (engine_of TechLSB 200 400 (1 # 2)) (replicate 40 0%Z) s' (codes "HI") →
     decode_tab {| dec_tech := TechLSB; dec_stego := Some w'; dec_original := Some w;
                   dec_d0 := 200; dec_d1 := 400; dec_clicked := true |} = show_result (codes "HI")).
Proof.
  intros w. apply (app_end_to_end TechLSB 200 400 (1 # 2) w (codes "HI") (replicate 40 0%Z)).
  - vm_compute. reflexivity.
  - discriminate.
  - split; [repeat constructor|apply not_infix_of_infixb; reflexivity].
  - apply Nat.leb_le. vm_compute. reflexivity.
Defined.

(** C12 on concrete data: "HI" at the page's default delays 200 and 400
    and strength 1/2, on a pulse train of amplitude 1000 exactly as long
    as the message needs ([40 * 8192 + 400] samples). *)
Lemma app_echo_pulse_roundtrip_witness :
  let p := {| nchannels := 1; sampwidth := 2; framerate := 44100; nframes := 328080;
              comptype := "NONE"; compname := "not compressed" |} in
  let w := {| wav_header := p; wav_frames := frames_of_samples (pulse chunk_size 328080 1000) |} in
  ∃ w' extra,
    encode_tab {| enc_file := Some w; enc_message := codes "HI"; enc_tech := TechEcho;
                  enc_d0 := 200; enc_d1 := 400; enc_alpha := 1 # 2; enc_clicked := true |} =
      Success "Encoding successful" ::
      DownloadButton "Download Stego Audio" w' "stego_audio.wav" "audio/wav" :: extra ∧
    decode_tab {| dec_tech := TechEcho; dec_stego := Some w'; dec_original := Some w;
                  dec_d0 := 200; dec_d1 := 400; dec_clicked := true |} = show_result (codes "HI").
Proof.
  intros p w. apply (app_echo_pulse_roundtrip 328080 1000 (codes "HI") 200 400 (1 # 2) p).
  - split; apply Nat.ltb_lt; reflexivity.
  - split; apply Nat.ltb_lt; reflexivity.
  - discriminate.
  - decide_concrete.
  - discriminate.
  - vm_compute. discriminate.
  - discriminate.
  - repeat constructor.
  - apply not_infix_of_infixb. reflexivity.
  - apply Nat.leb_le. vm_compute. reflexivity.
Defined.

Lemma encode_tab_too_large_witness :
  let w := {| wav_header := {| nchannels := 1; sampwidth := 2; framerate := 8000; nframes := 20;
                               comptype := "NONE"; compname := "not compressed" |};
              wav_frames := replicate 40 Byte.x00 |} in
  encode_tab {| enc_file := Some w; enc_message := codes "HI"; enc_tech := TechLSB;
                enc_d0 := 200; enc_d1 := 400; enc_alpha := 1 # 2; enc_clicked := true |} =
    [Error "Message is too large for this audio file"].
Proof.
  intros w. apply (encode_tab_too_large _ w (replicate 20 0%Z) (wav_header w)).
  - reflexivity.
  - discriminate.
  - reflexivity.
  - vm_compute. reflexivity.
  - vm_compute. lia.
Defined.

Lemma app_read_error_witness :
  let w := {| wav_header := {| nchannels := 1; sampwidth := 2; framerate := 8000; nframes := 1;
                               comptype := "NONE"; compname := "not compressed" |};
              wav_frames := [Byte.x01; Byte.x02; Byte.x03] |} in
  encode_tab {| enc_file := Some w; enc_message := codes "HI"; enc_tech := TechEcho;
                enc_d0 := 200; enc_d1 := 400; enc_alpha := 1 # 2; enc_clicked := true |} =
    [Error "Error during encoding: buffer size must be a multiple of element size"] ∧
  decode_tab {| dec_tech := TechLSB; dec_stego := Some w; dec_original := None;
                dec_d0 := 200; dec_d1 := 400; dec_clicked := true |} =
    [Error "Error during decoding: buffer size must be a multiple of element size"].
Proof.
  intros w. apply (app_read_error _ w); (reflexivity || discriminate).
Defined.

Lemma app_click_responds_witness :
  let w := {| wav_header := {| nchannels := 1; sampwidth := 2; framerate := 8000; nframes := 1;
                               comptype := "NONE"; compname := "not compressed" |};
              wav_frames := [Byte.x01; Byte.x02; Byte.x03] |} in
  status_first (encode_tab {| enc_file := Some w; enc_message := codes "HI"; enc_tech := TechLSB;
                              enc_d0 := 200; enc_d1 := 400; enc_alpha := 1 # 2;
                              enc_clicked := true |}) ∧
  status_first (decode_tab {| dec_tech := TechEcho; dec_stego := Some w; dec_original := Some w;
                              dec_d0 := 200; dec_d1 := 400; dec_clicked := true |}).
Proof.
  intros w. apply app_click_responds; cbn; [by eexists|discriminate|done|split; by eexists|done].
Defined.

End App.
