(* ===== verification/Stoi.v ===== *)
(** * Stoi: the intelligibility script

    [src/stoi.py] reads the original and the two stego files with
    [scipy.io.wavfile.read], refuses files of different sampling rates,
    converts to [float32], averages the channels of a multi-channel
    file, truncates to the shortest file and calls [pystoi.stoi] on each
    stego file against the original (lines 9-29).  [stoi] is a
    variable of the Section: the theorems hold whatever it computes.
    The channel mean is exact here; in [float32] it is exact for one or
    two channels of int16 values.  [pcm] and [row_mean] are shared with
    [Pesq.v].  [wavfile_read] is the reading of lines 5-7 on the int16
    files the page writes, and [stoi_main] the whole script; the last
    theorem runs it on the page's downloads ([App]). *)

From Stdlib Require Import QArith Qround String Strings.Byte.
From S2P Require Import Prelude BitCodec Samples LSB Echo Engine App.

(** [wavfile.read(...)[1]] on a 16-bit file. *)
Inductive pcm : Type :=
| Mono (xs : list Z)
| Multi (rows : list (list Z)).

(** [len(a)]: the number of frames. *)
Definition pcm_len (a : pcm) : nat :=
  match a with Mono xs => length xs | Multi rows => length rows end.

(** [np.mean] of one frame's channel values, exactly. *)
Definition row_mean (row : list Z) : Q :=
  (inject_Z (foldr Z.add 0%Z row) / inject_Z (Z.of_nat (length row)))%Q.

(** The first [k] rows of [c] values of a flat array: [reshape(-1, c)]
    when [c] divides its length and [k] is the quotient. *)
Fixpoint rows_of (c k : nat) (xs : list Z) : list (list Z) :=
  match k with
  | O => []
  | S k' => take c xs :: rows_of c k' (drop c xs)
  end.

(** The shape [wavfile.read] gives the samples of a file with [c]
    channels: one-dimensional for one channel, [reshape(-1, c)]
    otherwise, which fails ([None]) when [c] does not divide the number
    of samples. *)
Definition pcm_of (c : nat) (s : list Z) : option pcm :=
  if bool_decide (c ≤ 1)%nat then Some (Mono s)
  else if bool_decide (length s mod c = 0)%nat then Some (Multi (rows_of c (length s / c) s))
  else None.

(** [a[:n]]: the first [n] frames of an array. *)
Definition pcm_take (n : nat) (a : pcm) : pcm :=
  match a with
  | Mono xs => Mono (take n xs)
  | Multi rows => Multi (take n rows)
  end.

(** The elements of an array in the order [np.sum] and the elementwise
    operations visit them (row after row). *)
Definition pcm_flat (a : pcm) : list Z :=
  match a with
  | Mono xs => xs
  | Multi rows => concat rows
  end.

(** [a.shape]: [(n,)] or the lengths of the rows of an [(n, c)] array. *)
Definition pcm_shape (a : pcm) : nat + list nat :=
  match a with
  | Mono xs => inl (length xs)
  | Multi rows => inr (length <$> rows)
  end.

(** [scipy.io.wavfile.read] of a 16-bit PCM file (stoi.py 5-7): the
    sampling rate and the data; [numpy.frombuffer] and [reshape] raise
    [ValueError] on a malformed data chunk. *)
Definition wavfile_read (w : Samples.wav) : pyres (Z * pcm) :=
  match Samples.samples_of_frames (Samples.wav_frames w) with
  | None => PyRaise ValueError
  | Some s =>
      match pcm_of (Z.to_nat (Samples.nchannels (Samples.wav_header w))) s with
      | Some a => PyOk (Samples.framerate (Samples.wav_header w), a)
      | None => PyRaise ValueError
      end
  end.

Module Stoi.
Import BitCodec Samples LSB Echo Engine App.

Section StoiScript.
(** [pystoi.stoi(clean, processed, fs_sig, extended)] *)
Variable stoi : list Q → list Q → Z → bool → Q.

(** stoi.py 12-21: [astype(np.float32)], then the mean of the channels
    when [ndim > 1]. *)
Definition to_signal (a : pcm) : list Q :=
  match a with
  | Mono xs => inject_Z <$> xs
  | Multi rows => row_mean <$> rows
  end.

(** stoi.py 9-29, after the three [wavfile.read] calls. *)
Definition stoi_script (fs fs1 fs2 : Z) (original stego_lsb stego_echo : pcm) : pyres (Q * Q) :=
  if bool_decide (fs ≠ fs1) || bool_decide (fs ≠ fs2) then PyRaise ValueError
  else
    let o := to_signal original in
    let l := to_signal stego_lsb in
    let e := to_signal stego_echo in
    let n := min_len3 (length o) (length l) (length e) in
    PyOk (stoi (take n o) (take n l) fs false, stoi (take n o) (take n e) fs false).

(** stoi.py 5-29: the whole script on the three files. *)
Definition stoi_main (original stego_lsb stego_echo : wav) : pyres (Q * Q) :=
  '(fs, o) ← wavfile_read original;
  '(fs1, l) ← wavfile_read stego_lsb;
  '(fs2, e) ← wavfile_read stego_echo;
  stoi_script fs fs1 fs2 o l e.
End StoiScript.

Lemma length_to_signal (a : pcm) : length (to_signal a) = pcm_len a.
Proof. destruct a; cbn; by rewrite length_fmap. Qed.

(** The script stops with [ValueError] when a stego file's sampling
    rate differs from the original's, before any metric is computed. *)
Lemma stoi_rate_mismatch (stoi : list Q → list Q → Z → bool → Q) (fs fs1 fs2 : Z)
    (original stego_lsb stego_echo : pcm) :
  fs ≠ fs1 ∨ fs ≠ fs2 →
  stoi_script stoi fs fs1 fs2 original stego_lsb stego_echo = PyRaise ValueError.
Proof.
  intros Hne. unfold stoi_script.
  destruct Hne; [rewrite (bool_decide_eq_true_2 (fs ≠ fs1)) by done
                |rewrite (bool_decide_eq_true_2 (fs ≠ fs2)), orb_true_r by done]; done.
Qed.

Lemma stoi_script_ok (stoi : list Q → list Q → Z → bool → Q) (fs : Z)
    (original stego_lsb stego_echo : pcm) :
  let n := min_len3 (pcm_len original) (pcm_len stego_lsb) (pcm_len stego_echo) in
  ∃ x y z,
    stoi_script stoi fs fs fs original stego_lsb stego_echo =
      PyOk (stoi x y fs false, stoi x z fs false) ∧
    length x = n ∧ length y = n ∧ length z = n ∧
    x `prefix_of` to_signal original ∧ y `prefix_of` to_signal stego_lsb ∧
    z `prefix_of` to_signal stego_echo.
Proof.
  intros n. unfold stoi_script. rewrite !bool_decide_eq_false_2 by auto. cbn.
  rewrite !length_to_signal. fold n.
  eexists _, _, _. split; [reflexivity|].
  unfold n, min_len3. rewrite !length_take, !length_to_signal.
  split_and!; try lia; apply prefix_take.
Qed.

(** C31. With matching rates, [stoi] is called twice on prefixes of the
    mono signals, all three of the length of the shortest file. *)
Theorem stoi_script_aligned (stoi : list Q → list Q → Z → bool → Q) (fs : Z)
    (original stego_lsb stego_echo : pcm) :
  let n := min_len3 (pcm_len original) (pcm_len stego_lsb) (pcm_len stego_echo) in
  ∃ x y z,
    stoi_script stoi fs fs fs original stego_lsb stego_echo =
      PyOk (stoi x y fs false, stoi x z fs false) ∧
    length x = n ∧ length y = n ∧ length z = n ∧
    x `prefix_of` to_signal original ∧ y `prefix_of` to_signal stego_lsb ∧
    z `prefix_of` to_signal stego_echo.
Proof. apply stoi_script_ok. Qed.

(** ** The script on the files the page writes *)

Lemma length_rows_of (c k : nat) (xs : list Z) : length (rows_of c k xs) = k.
Proof. revert xs. induction k as [|k IH]; intros xs; cbn; [done|]. by rewrite IH. Qed.

Lemma concat_rows_of (c k : nat) (xs : list Z) :
  length xs = k * c → concat (rows_of c k xs) = xs.
Proof.
  revert xs. induction k as [|k IH]; intros xs Hl; cbn.
  - by destruct xs; [|cbn in Hl; lia].
  - rewrite IH by (rewrite length_drop; lia). apply take_drop.
Qed.

Lemma rows_of_lengths (c k : nat) (xs : list Z) :
  k * c ≤ length xs → length <$> rows_of c k xs = replicate k c.
Proof.
  revert xs. induction k as [|k IH]; intros xs Hl; cbn; [done|].
  rewrite length_take, IH by (rewrite length_drop; lia). f_equal. lia.
Qed.

(** Two sample buffers of one length get arrays of one shape, each
    holding its own samples in order. *)
Lemma pcm_of_like (c : nat) (s s' : list Z) (a : pcm) :
  length s' = length s → pcm_of c s = Some a →
  ∃ a', pcm_of c s' = Some a' ∧ pcm_len a' = pcm_len a ∧
        pcm_shape a' = pcm_shape a ∧ pcm_flat a' = s'.
Proof.
  unfold pcm_of. intros Hl. case_bool_decide.
  { intros [= <-]. eexists; split_and!; [done|cbn; lia|cbn; by rewrite Hl|done]. }
  rewrite Hl. case_bool_decide as Hm; [|done]. intros [= <-].
  pose proof (Nat.div_mod_eq (length s) c) as Hd. rewrite Hm, Nat.add_0_r in Hd.
  eexists; split_and!; [done|cbn; by rewrite !length_rows_of|cbn|cbn].
  - rewrite !rows_of_lengths; [done|lia|lia].
  - apply concat_rows_of. lia.
Qed.

Lemma wavfile_read_bytes (w : wav) (fs : Z) (a : pcm) :
  wavfile_read w = PyOk (fs, a) →
  ∃ s, read_wav_bytes w = PyOk (s, wav_header w) ∧ fs = framerate (wav_header w) ∧
       pcm_of (Z.to_nat (nchannels (wav_header w))) s = Some a.
Proof.
  unfold wavfile_read, read_wav_bytes. destruct (samples_of_frames _) as [s|]; [|done].
  destruct (pcm_of _ s) eqn:E; [|done]. intros [= <- <-]. eauto.
Qed.

(** A file with the parameters of [w] and as many samples reads as an
    array of the same rate and shape, holding its samples. *)
Lemma wavfile_read_like (w w' : wav) (s s' : list Z) (fs : Z) (a : pcm) :
  wavfile_read w = PyOk (fs, a) → read_wav_bytes w = PyOk (s, wav_header w) →
  read_wav_bytes w' = PyOk (s', wav_header w) → length s' = length s →
  ∃ a', wavfile_read w' = PyOk (fs, a') ∧ pcm_len a' = pcm_len a ∧
        pcm_shape a' = pcm_shape a ∧ pcm_flat a' = s'.
Proof.
  intros Hw Hr Hr' Hl. destruct (wavfile_read_bytes w fs a Hw) as (s0 & Hr0 & -> & Hp).
  rewrite Hr in Hr0. injection Hr0 as <-.
  destruct (pcm_of_like _ s s' a Hl Hp) as (a' & Hp' & Hla).
  unfold read_wav_bytes in Hr'. unfold wavfile_read.
  destruct (samples_of_frames (wav_frames w')) as [s1|]; [|done]. injection Hr' as -> Hh.
  rewrite Hh, Hp'. eauto.
Qed.

(** The array [wavfile.read] gives holds the file's samples. *)
Lemma wavfile_read_flat (w : wav) (s : list Z) (fs : Z) (a : pcm) :
  wavfile_read w = PyOk (fs, a) → read_wav_bytes w = PyOk (s, wav_header w) → pcm_flat a = s.
Proof.
  intros Hw Hr. destruct (wavfile_read_like w w s s fs a Hw Hr Hr eq_refl)
    as (a' & Hw' & _ & _ & <-). rewrite Hw in Hw'. by injection Hw' as <-.
Qed.

(** C30. stoi.py run on an uploaded original and on two files the
    encode tab offered for download from it (by either technique) never
    raises: the page keeps the sampling rate, the channel count and the
    number of frames, so the rates match and [stoi] compares arrays of
    the original's length. *)
Theorem stoi_on_page_downloads (stoi : list Q → list Q → Z → bool → Q)
    (il ie : encode_inputs) (w wl we : wav) (fs : Z) (a : pcm)
    (lab fn mime lab' fn' mime' : string) :
  enc_file il = Some w → enc_file ie = Some w →
  wavfile_read w = PyOk (fs, a) →
  DownloadButton lab wl fn mime ∈ encode_tab il →
  DownloadButton lab' we fn' mime' ∈ encode_tab ie →
  ∃ x y z, stoi_main stoi w wl we = PyOk (stoi x y fs false, stoi x z fs false) ∧
           length x = pcm_len a ∧ length y = pcm_len a ∧ length z = pcm_len a.
Proof.
  intros Hfl Hfe Hw Hl He.
  destruct (encode_tab_download_output il w wl _ _ _ Hfl Hl) as (s & sl & Hr & Hrl & Hll).
  destruct (encode_tab_download_output ie w we _ _ _ Hfe He) as (s' & se & Hr' & Hre & Hle).
  rewrite Hr in Hr'. injection Hr' as <-.
  destruct (wavfile_read_like w wl s sl fs a Hw Hr Hrl Hll) as (al & Hwl & Hal & _).
  destruct (wavfile_read_like w we s se fs a Hw Hr Hre Hle) as (ae & Hwe & Hae & _).
  unfold stoi_main. rewrite Hw, Hwl, Hwe. cbn.
  destruct (stoi_script_ok stoi fs a al ae) as (x & y & z & -> & Hx & Hy & Hz & _).
  exists x, y, z. unfold min_len3 in *. split_and!; [done|lia|lia|lia].
Qed.

Lemma stoi_on_page_downloads_witness :
  let w := {| wav_header := {| nchannels := 1; sampwidth := 2; framerate := 8000; nframes := 40;
                               comptype := "NONE"; compname := "not compressed" |};
              wav_frames := replicate 80 Byte.x00 |} in
  let i := {| enc_file := Some w; enc_message := codes "HI"; enc_tech := TechLSB;
              enc_d0 := 200; enc_d1 := 400; enc_alpha := 1 # 2; enc_clicked := true |} in
  ∃ wl, DownloadButton "Download Stego Audio" wl "stego_audio.wav" "audio/wav" ∈ encode_tab i ∧
    ∃ x y z : list Q, stoi_main (λ _ _ _ _, 0%Q) w wl wl = PyOk (0%Q, 0%Q) ∧
             length x = 40%nat ∧ length y = 40%nat ∧ length z = 40%nat.
Proof.
  intros w i. eexists; split; [vm_compute; right; left|].
  match goal with |- ∃ _ _ _, stoi_main _ _ ?wl _ = _ ∧ _ =>
    destruct (stoi_on_page_downloads (λ _ _ _ _, 0%Q) i i w wl wl 8000 (Mono (replicate 40 0%Z))
                "Download Stego Audio" "stego_audio.wav" "audio/wav"
                "Download Stego Audio" "stego_audio.wav" "audio/wav" eq_refl eq_refl)
      as (x & y & z & H & Hx & Hy & Hz) end.
  - vm_compute. reflexivity.
  - vm_compute. right. left.
  - vm_compute. right. left.
  - exists x, y, z. split_and!; [exact H|exact Hx|exact Hy|exact Hz].
Defined.

End Stoi.

