(* ===== verification/Snr.v ===== *)
(** * Snr: the signal-to-noise script

    [src/snr.py] reads the original recording and the two stego files
    the page writes, truncates them to the shortest, and prints
    [calculate_snr] (lines 17-24) of each stego file against the
    original.  The powers are sums of squares of int16 values, exact in
    [float64] for files of fewer than 2^21 samples; they are [Z] here.
    The ratio and [np.log10] are real-valued ([Rpower.ln]); [np.log10]'s
    [-inf] at zero and the script's [float('inf')] are constructors of
    [pyfloat].  [snr_main] is the whole script, the reads included
    ([wavfile_read] of [Stoi.v]); the arrays are compared elementwise,
    which needs one shape.  The theorems say when the SNR is infinite,
    how much noise the LSB engine and echo hiding on a pulse train add,
    and what the script reports on the files the page writes. *)

From Stdlib Require Import QArith Reals Lra String Strings.Byte.
From S2P Require Import Prelude BitCodec Samples LSB Echo EchoCarrier Engine App Stoi.

(** A [float] result of a script: a real value or one of the infinities
    [np.log10] and [float('inf')] produce. *)
Inductive pyfloat : Type :=
| Finite (r : R)
| PosInf
| NegInf.

(** [log10] on the positive reals. *)
Definition log10 (x : R) : R := (ln x / ln 10)%R.

Module Snr.
Import BitCodec Samples LSB Echo EchoCarrier Engine App Stoi.
Local Open Scope Z_scope.

(** [np.sum(xs)] of an integer array (exact in [float64] for the
    lengths of audio files: see the header). *)
Definition np_sum (xs : list Z) : Z := foldr Z.add 0 xs.

(** [np.sum(original ** 2)] *)
Definition signal_power (original : list Z) : Z := np_sum ((λ x, x * x) <$> original).

(** [np.sum((original - stego) ** 2)] on arrays of one length. *)
Definition noise_power (original stego : list Z) : Z :=
  np_sum ((λ d, d * d) <$> zip_with Z.sub original stego).

(** [np.log10(num / den)] for [num >= 0] and [den > 0]: [-inf] at zero. *)
Definition np_log10_ratio (num den : Z) : pyfloat :=
  if bool_decide (num = 0) then NegInf else Finite (log10 (IZR num / IZR den)).

(** snr.py 17-24. *)
Definition calculate_snr (original stego : list Z) : pyfloat :=
  let signal := signal_power original in
  let noise := noise_power original stego in
  if bool_decide (noise = 0) then PosInf
  else
    match np_log10_ratio signal noise with
    | Finite r => Finite (10 * r)%R
    | v => v
    end.

(** [calculate_snr(original, stego)] on two arrays of [wavfile.read]:
    [original - stego] is elementwise on arrays of one shape and raises
    [ValueError] on shapes that do not broadcast; the sums run over
    every element.  (The broadcasts numpy does accept between different
    shapes, a one-frame array against a multi-channel one or a frame
    count equal to the channel count, are treated as errors here.) *)
Definition calculate_snr_arr (original stego : pcm) : pyres pyfloat :=
  if bool_decide (pcm_shape original = pcm_shape stego)
  then mret (calculate_snr (pcm_flat original) (pcm_flat stego))
  else PyRaise ValueError.

(** snr.py 8-27: [astype(np.float64)] (exact on int16), the truncation
    of the three arrays to the shortest, then the two calls. *)
Definition snr_script (original stego_lsb stego_echo : pcm) : pyres (pyfloat * pyfloat) :=
  let n := min_len3 (pcm_len original) (pcm_len stego_lsb) (pcm_len stego_echo) in
  snr_lsb ← calculate_snr_arr (pcm_take n original) (pcm_take n stego_lsb);
  snr_echo ← calculate_snr_arr (pcm_take n original) (pcm_take n stego_echo);
  mret (snr_lsb, snr_echo).

(** snr.py 4-27: the whole script on the three files. *)
Definition snr_main (original stego_lsb stego_echo : wav) : pyres (pyfloat * pyfloat) :=
  '(fs, o) ← wavfile_read original;
  '(_, l) ← wavfile_read stego_lsb;
  '(_, e) ← wavfile_read stego_echo;
  snr_script o l e.

(** The number of samples whose low bit differs from the bit written
    over it. *)
Definition flipped_bits (s : list Z) (bits : list bool) : nat :=
  length (filter (λ b, b = true) (zip_with (λ x b, negb (Bool.eqb (Z.odd x) b)) s bits)).

(** The squared difference an echo of amplitude [E] makes at sample
    [k] of a pulse train: [E * E] where an echo lands. *)
Definition hit_sq (cs d0 d1 : nat) (bits : list bool) (E : Z) (k : nat) : Z :=
  if echo_hit cs d0 d1 0 bits k then E * E else 0.

(** ** Powers *)

Lemma noise_power_cons (x y : Z) (xs ys : list Z) :
  noise_power (x :: xs) (y :: ys) = (x - y) * (x - y) + noise_power xs ys.
Proof. reflexivity. Qed.

Lemma noise_power_nonneg (o s : list Z) : 0 ≤ noise_power o s.
Proof.
  revert s; induction o as [|x o IH]; intros [|y s]; try (cbn; lia).
  rewrite noise_power_cons. specialize (IH s). pose proof (Z.square_nonneg (x - y)). lia.
Qed.

Lemma noise_power_self (o : list Z) : noise_power o o = 0.
Proof. induction o as [|x o IH]; [done|]. rewrite noise_power_cons, IH. lia. Qed.

Lemma noise_power_zero (o s : list Z) :
  length o = length s → noise_power o s = 0 ↔ o = s.
Proof.
  intros Hl. split; [|intros ->; apply noise_power_self].
  revert s Hl; induction o as [|x o IH]; intros [|y s] Hl; try done.
  rewrite noise_power_cons. pose proof (noise_power_nonneg o s).
  pose proof (Z.square_nonneg (x - y)). intros Hz.
  assert ((x - y) * (x - y) = 0) as [Hxy|Hxy]%Z.mul_eq_0 by lia;
    assert (x = y) as -> by lia; f_equal; apply IH; [by injection Hl|lia| by injection Hl|lia].
Qed.

(** A finite or [-inf] result whenever the noise is not zero. *)
Lemma calculate_snr_noise (o s : list Z) :
  noise_power o s ≠ 0 →
  calculate_snr o s =
    if bool_decide (signal_power o = 0) then NegInf
    else Finite (10 * log10 (IZR (signal_power o) / IZR (noise_power o s)))%R.
Proof.
  intros Hn. unfold calculate_snr, np_log10_ratio.
  rewrite bool_decide_eq_false_2 by done. by case_bool_decide.
Qed.

(** ** The noise an LSB embedding adds *)

Lemma sq_lsb_diff (x : Z) (b : bool) :
  (x - (2 * (x / 2) + Z.b2z b)) * (x - (2 * (x / 2) + Z.b2z b)) =
  Z.of_nat (length (filter (λ c, c = true) [negb (Bool.eqb (Z.odd x) b)])).
Proof.
  pose proof (Z.div_mod x 2 ltac:(lia)) as Hx. rewrite Zmod_odd in Hx.
  destruct (Z.odd x), b; cbn [Z.b2z] in *;
    [replace (x - _) with 0 by lia | replace (x - _) with 1 by lia
    |replace (x - _) with (-1) by lia | replace (x - _) with 0 by lia]; reflexivity.
Qed.

Lemma flipped_bits_cons (x : Z) (s : list Z) (b : bool) (bits : list bool) :
  flipped_bits (x :: s) (b :: bits) =
  (length (filter (λ c, c = true) [negb (Bool.eqb (Z.odd x) b)]) + flipped_bits s bits)%nat.
Proof. unfold flipped_bits. cbn. by destruct (negb _). Qed.

Lemma noise_power_embed (s : list Z) (bits : list bool) :
  (length bits ≤ length s)%nat →
  noise_power s (zip_with (λ x b, 2 * (x / 2) + Z.b2z b) s bits ++ drop (length bits) s) =
  Z.of_nat (flipped_bits s bits).
Proof.
  revert s; induction bits as [|b bits IH]; intros [|x s] Hl; cbn in Hl; try lia.
  - apply noise_power_self.
  - apply noise_power_self.
  - cbn [zip_with app length drop]. rewrite noise_power_cons, IH by lia.
    rewrite flipped_bits_cons, sq_lsb_diff. lia.
Qed.

Lemma flipped_bits_le (s : list Z) (bits : list bool) : (flipped_bits s bits ≤ length bits)%nat.
Proof.
  unfold flipped_bits. etrans; [apply length_filter|].
  rewrite length_zip_with. lia.
Qed.

(** The LSB encoder's output, as a list. *)
Lemma encode_lsb_samples_zip (s : list Z) (m : message) (out : list Z) :
  Forall is_int16 s →
  encode_lsb_samples s m = Some out →
  out = zip_with (λ x b, 2 * (x / 2) + Z.b2z b) s (encode_bits m) ++
        drop (length (encode_bits m)) s.
Proof.
  intros Hs E. pose proof E as Hcap.
  destruct (encode_lsb_samples s m) eqn:E' in Hcap; [|done].
  assert (length (encode_bits m) ≤ length s)%nat.
  { destruct (decide (length s < length (encode_bits m))%nat) as [Hlt|]; [|lia].
    apply encode_lsb_capacity in Hlt. congruence. }
  apply list_eq. intros i. rewrite (lookup_encode_lsb s m out i Hs E).
  destruct (decide (i < length (encode_bits m)))%nat as [Hi|Hi].
  - rewrite lookup_app_l by (rewrite length_zip_with; lia).
    rewrite lookup_zip_with.
    destruct (lookup_lt_is_Some_2 (encode_bits m) i Hi) as [b ->].
    by destruct (s !! i).
  - rewrite lookup_app_r by (rewrite length_zip_with; lia).
    rewrite length_zip_with, lookup_drop, (lookup_ge_None_2 (encode_bits m) i) by lia.
    replace (_ + _)%nat with i by lia.
    by destruct (s !! i).
Qed.

Lemma lsb_noise (s : list Z) (m : message) (out : list Z) :
  Forall is_int16 s →
  encode_lsb_samples s m = Some out →
  noise_power s out = Z.of_nat (flipped_bits s (encode_bits m)).
Proof.
  intros Hs E. rewrite (encode_lsb_samples_zip s m out Hs E).
  apply noise_power_embed.
  destruct (decide (length s < length (encode_bits m))%nat) as [Hlt|]; [|lia].
  apply encode_lsb_capacity in Hlt. congruence.
Qed.

(** ** The noise an echo adds to a pulse train *)

Lemma np_sum_app (xs ys : list Z) : np_sum (xs ++ ys) = np_sum xs + np_sum ys.
Proof. unfold np_sum. induction xs as [|x xs IH]; cbn; lia. Qed.

Lemma np_sum_seq_zero (f : nat → Z) (a len : nat) :
  (∀ k, (a ≤ k < a + len)%nat → f k = 0) → np_sum (f <$> seq a len) = 0.
Proof.
  revert a. induction len as [|len IH]; intros a Hf; [done|].
  change (np_sum (f <$> seq a (S len))) with (f a + np_sum (f <$> seq (S a) len)).
  rewrite Hf, (IH (S a)); [done|intros k Hk; apply Hf; lia|lia].
Qed.

(** A sum over a range where only index [a + t] may be non-zero. *)
Lemma np_sum_seq_one (f : nat → Z) (a len t : nat) :
  (t < len)%nat → (∀ k, (a ≤ k < a + len)%nat → k ≠ (a + t)%nat → f k = 0) →
  np_sum (f <$> seq a len) = f (a + t)%nat.
Proof.
  intros Ht Hf. replace len with (t + S (len - t - 1))%nat by lia.
  rewrite seq_app. cbn [seq]. rewrite fmap_app, fmap_cons, np_sum_app.
  change (np_sum (f (a + t)%nat :: (f <$> seq (S (a + t)) (len - t - 1))))
    with (f (a + t)%nat + np_sum (f <$> seq (S (a + t)) (len - t - 1))).
  rewrite !np_sum_seq_zero; [lia|intros k Hk; apply Hf; lia..].
Qed.

Section EchoNoise.
Variables (cs d0 d1 : nat) (bits : list bool) (E : Z).
Hypothesis Hd0 : (0 < d0 < cs)%nat.
Hypothesis Hd1 : (0 < d1 < cs)%nat.

Lemma echo_hit_chunk (j t : nat) (b : bool) :
  (t < cs)%nat → bits !! j = Some b →
  echo_hit cs d0 d1 0 bits (j * cs + t) = bool_decide (t = delay_of d0 d1 b).
Proof.
  intros Ht Hb. destruct (div_mod_chunk cs j t Ht) as [Hq Hr].
  unfold echo_hit. rewrite Hq, Hr, Nat.sub_0_r, Hb, bool_decide_true by lia. done.
Qed.

Lemma echo_hit_beyond (k : nat) : (length bits * cs ≤ k)%nat → echo_hit cs d0 d1 0 bits k = false.
Proof.
  intros Hk. unfold echo_hit. rewrite Nat.sub_0_r, lookup_ge_None_2, andb_false_r; [done|].
  apply Nat.div_le_lower_bound; lia.
Qed.

Lemma np_sum_hits (j : nat) :
  (j ≤ length bits)%nat → np_sum (hit_sq cs d0 d1 bits E <$> seq 0 (j * cs)) = Z.of_nat j * (E * E).
Proof.
  induction j as [|j IH]; intros Hj; [done|].
  replace (S j * cs)%nat with (j * cs + cs)%nat by lia.
  rewrite seq_app, fmap_app, np_sum_app, IH by lia. cbn [Nat.add].
  destruct (lookup_lt_is_Some_2 bits j ltac:(lia)) as [b Hb].
  pose proof (delay_of_bounds cs d0 d1 Hd0 Hd1 b) as Hδ.
  rewrite (np_sum_seq_one _ _ _ (delay_of d0 d1 b)) by
    (lia || (intros k Hk Hne; unfold hit_sq;
             replace k with (j * cs + (k - j * cs))%nat by lia;
             rewrite (echo_hit_chunk j _ b), bool_decide_false by (done || lia); done)).
  unfold hit_sq. rewrite (echo_hit_chunk j _ b), bool_decide_true by (done || lia). lia.
Qed.
End EchoNoise.

Lemma echo_pulse_noise (cs n d0 d1 : nat) (A : Z) (alpha : Q) (m : message) (out : list Q) :
  (0 < d0 < cs)%nat → (0 < d1 < cs)%nat → is_int16 A →
  encode_echo_samples cs (inject_Z <$> pulse cs n A) m d0 d1 alpha = Some out →
  noise_power (pulse cs n A) (quantize <$> out) =
  Z.of_nat (length (encode_bits m)) * (quantize (alpha * inject_Z A) * quantize (alpha * inject_Z A)).
Proof.
  intros Hd0 Hd1 HA Henc. set (E := quantize (alpha * inject_Z A)).
  set (bits := encode_bits m).
  assert (length bits * cs + Nat.max d0 d1 ≤ n)%nat as Hcap.
  { destruct (decide (n < length bits * cs + Nat.max d0 d1)%nat) as [Hlt|]; [|lia].
    rewrite <- (length_pulse cs n A), <- (length_fmap inject_Z) in Hlt.
    apply (proj2 (encode_echo_capacity cs _ m d0 d1 alpha)) in Hlt. congruence. }
  unfold noise_power.
  assert ((λ d, d * d) <$> zip_with Z.sub (pulse cs n A) (quantize <$> out) =
          hit_sq cs d0 d1 bits E <$> seq 0 n) as ->.
  { apply list_eq. intros k.
    rewrite !list_lookup_fmap, lookup_zip_with, lookup_pulse.
    rewrite (lookup_pulse_stego cs n d0 d1 A alpha Hd0 Hd1 m out HA Henc k).
    destruct (decide (k < n)%nat) as [Hk|Hk].
    - rewrite !bool_decide_true, lookup_seq_lt by lia. cbn. f_equal.
      unfold hit_sq, pulse_stego, pulse_at. fold bits E. case_bool_decide.
      + destruct (echo_hit _ _ _ _ _ _) eqn:Eh; [apply (echo_hit_mod cs d0 d1 Hd0 Hd1) in Eh; lia|lia].
      + destruct (echo_hit _ _ _ _ _ _); lia.
    - rewrite !bool_decide_false, lookup_seq_ge by lia. done. }
  replace n with (length bits * cs + (n - length bits * cs))%nat by lia.
  rewrite seq_app, fmap_app, np_sum_app, np_sum_hits by lia.
  rewrite np_sum_seq_zero; [lia|]. intros k Hk. unfold hit_sq.
  rewrite echo_hit_beyond by lia. done.
Qed.

Lemma length_encode_bits_pos (m : message) : (0 < length (encode_bits m))%nat.
Proof.
  unfold encode_bits. pose proof (length_flat_map_format (m ++ terminator)).
  rewrite length_app in *. cbn in *. lia.
Qed.

(** ** Logarithms *)

Lemma ln_10_pos : (0 < ln 10)%R.
Proof. rewrite <- ln_1. apply ln_increasing; lra. Qed.

Lemma log10_ratio_anti (sig : Z) (k n : nat) :
  0 < sig → (0 < k)%nat → (k ≤ n)%nat →
  (log10 (IZR sig / INR n) <= log10 (IZR sig / INR k))%R.
Proof.
  intros Hs Hk Hkn. apply IZR_lt in Hs.
  apply lt_INR in Hk. apply le_INR in Hkn. cbn in Hk.
  assert (IZR sig / INR n <= IZR sig / INR k)%R as Hle.
  { unfold Rdiv. apply Rmult_le_compat_l; [lra|]. apply Rinv_le_contravar; lra. }
  assert (0 < IZR sig / INR n)%R as Hpos.
  { unfold Rdiv. apply Rmult_lt_0_compat; [lra|]. apply Rinv_0_lt_compat. lra. }
  assert (ln (IZR sig / INR n) <= ln (IZR sig / INR k))%R as Hln.
  { destruct Hle as [Hlt|Heq]; [left; by apply ln_increasing|by rewrite Heq; right]. }
  unfold log10, Rdiv at 1 3. apply Rmult_le_compat_r; [|exact Hln].
  left. apply Rinv_0_lt_compat, ln_10_pos.
Qed.

(** The SNR bound of an LSB embedding, shared by C29 and the script on
    the page's downloads. *)
Lemma lsb_snr_lower (s : list Z) (m : message) (out : list Z) :
  Forall is_int16 s →
  encode_lsb_samples s m = Some out →
  0 < signal_power s →
  calculate_snr s out = PosInf ∨
  ∃ r, calculate_snr s out = Finite r ∧
       (10 * log10 (IZR (signal_power s) / INR (length (encode_bits m))) <= r)%R.
Proof.
  intros Hs E Hsig. pose proof (lsb_noise s m out Hs E) as Hn.
  pose proof (flipped_bits_le s (encode_bits m)).
  destruct (decide (flipped_bits s (encode_bits m) = 0%nat)) as [Hk|Hk].
  - left. unfold calculate_snr. rewrite bool_decide_eq_true_2; [done|lia].
  - right. rewrite calculate_snr_noise by lia. rewrite bool_decide_eq_false_2 by lia.
    eexists; split; [reflexivity|]. rewrite Hn, <- INR_IZR_INZ.
    apply Rmult_le_compat_l; [lra|]. apply log10_ratio_anti; lia.
Qed.


Lemma pcm_take_all (n : nat) (a : pcm) : (pcm_len a ≤ n)%nat → pcm_take n a = a.
Proof. destruct a; cbn; intros; by rewrite take_ge. Qed.

(** [calculate_snr] on two arrays of one shape is [calculate_snr] on
    their elements. *)
Lemma calculate_snr_arr_same (a b : pcm) :
  pcm_shape b = pcm_shape a →
  calculate_snr_arr a b = PyOk (calculate_snr (pcm_flat a) (pcm_flat b)).
Proof. intros Hs. unfold calculate_snr_arr. by rewrite Hs, bool_decide_eq_true_2. Qed.

(** C27. [calculate_snr] returns [float('inf')] exactly when the two
    arrays (of one length) are equal: any change to the signal gives a
    finite or [-inf] value. *)
Theorem calculate_snr_inf (o s : list Z) :
  length o = length s → calculate_snr o s = PosInf ↔ o = s.
Proof.
  intros Hl. destruct (decide (noise_power o s = 0)) as [Hz|Hz].
  - unfold calculate_snr. rewrite bool_decide_eq_true_2 by done.
    split; [|done]. intros _. by apply noise_power_zero.
  - rewrite calculate_snr_noise by done. split; [by case_bool_decide|].
    intros ->. by rewrite noise_power_self in Hz.
Qed.

(** C28. The noise power an LSB embedding adds is the number of samples
    whose low bit differs from the bit written over it: each changes by
    exactly one. *)
Theorem lsb_noise_power (s : list Z) (m : message) (out : list Z) :
  Forall is_int16 s →
  encode_lsb_samples s m = Some out →
  noise_power s out = Z.of_nat (flipped_bits s (encode_bits m)).
Proof. apply lsb_noise. Qed.

(** C29. Hence the SNR of an LSB stego buffer against its original is
    infinite or at least [10 * log10(signal_power / n)] dB, [n] the
    number of bits of the framed message, whatever the samples are. *)
Theorem lsb_snr_bound (s : list Z) (m : message) (out : list Z) :
  Forall is_int16 s →
  encode_lsb_samples s m = Some out →
  0 < signal_power s →
  calculate_snr s out = PosInf ∨
  ∃ r, calculate_snr s out = Finite r ∧
       (10 * log10 (IZR (signal_power s) / INR (length (encode_bits m))) <= r)%R.
Proof. apply lsb_snr_lower. Qed.

(** C36. snr.py run on an uploaded original and on two files the
    encode tab offered for download from it, the first by LSB, never
    raises, and the SNR it prints for the LSB file is infinite or at
    least [10 * log10(signal_power / n)] dB, [n] the number of framed
    bits of the message typed in: the page keeps the header and the
    frame count, so the arrays have one shape and are not truncated,
    and the LSB file holds exactly what [encode_lsb] computed. *)
Theorem snr_on_page_downloads (il ie : encode_inputs) (w wl we : wav) (fs : Z) (a : pcm)
    (lab fn mime lab' fn' mime' : string) :
  enc_tech il = TechLSB → enc_file il = Some w → enc_file ie = Some w →
  wavfile_read w = PyOk (fs, a) → 0 < signal_power (pcm_flat a) →
  DownloadButton lab wl fn mime ∈ encode_tab il →
  DownloadButton lab' we fn' mime' ∈ encode_tab ie →
  ∃ x y, snr_main w wl we = PyOk (x, y) ∧
    (x = PosInf ∨
     ∃ r, x = Finite r ∧
          (10 * log10 (IZR (signal_power (pcm_flat a)) /
                       INR (length (encode_bits (enc_message il)))) <= r)%R).
Proof.
  intros Ht Hfl Hfe Hw Hsig Hl He.
  destruct (encode_tab_lsb_download il w wl _ _ _ Ht Hfl Hl) as (s & out & Hr & E & Hrl).
  destruct (encode_tab_download_output ie w we _ _ _ Hfe He) as (s' & se & Hr' & Hre & Hle).
  rewrite Hr in Hr'. injection Hr' as <-.
  rewrite (wavfile_read_flat w s fs a Hw Hr) in Hsig |- *.
  destruct (wavfile_read_like w wl s out fs a Hw Hr Hrl (proj1 (encode_lsb_shape s _ out E)))
    as (al & Hwl & Hal & Hsl & Hfl').
  destruct (wavfile_read_like w we s se fs a Hw Hr Hre Hle) as (ae & Hwe & Hae & Hse & _).
  unfold snr_main. rewrite Hw, Hwl, Hwe. cbn [mbind pyres_bind]. unfold snr_script.
  rewrite Hal, Hae, min_len3_same, !pcm_take_all by lia.
  rewrite !calculate_snr_arr_same by done. cbn [mbind pyres_bind mret pyres_ret].
  rewrite (wavfile_read_flat w s fs a Hw Hr), Hfl'. eexists _, _. split; [reflexivity|].
  exact (lsb_snr_lower s _ out (read_wav_bytes_int16 w s _ Hr) E Hsig).
Qed.

(** C35. On a pulse-train carrier (one int16 pulse [A] per chunk) the
    echo encoder adds exactly one echo sample [E], the cast of
    [alpha * A], per framed bit: the noise power is [n * E^2] for [n]
    framed bits, [E^2] times the most an LSB embedding of the same
    message can add (C28), and the SNR the script prints is
    [10 * log10(signal_power / (n * E^2))] whenever [E ≠ 0]. *)
Theorem echo_pulse_noise_power (cs n d0 d1 : nat) (A : Z) (alpha : Q) (m : message)
    (out : list Q) :
  (0 < d0 < cs)%nat → (0 < d1 < cs)%nat → is_int16 A →
  encode_echo_samples cs (inject_Z <$> pulse cs n A) m d0 d1 alpha = Some out →
  let E := quantize (alpha * inject_Z A) in
  noise_power (pulse cs n A) (quantize <$> out) = Z.of_nat (length (encode_bits m)) * (E * E) ∧
  (E ≠ 0 → 0 < signal_power (pulse cs n A) →
   calculate_snr (pulse cs n A) (quantize <$> out) =
     Finite (10 * log10 (IZR (signal_power (pulse cs n A)) /
                         IZR (Z.of_nat (length (encode_bits m)) * (E * E))))%R).
Proof.
  intros Hd0 Hd1 HA Henc E. pose proof (echo_pulse_noise cs n d0 d1 A alpha m out Hd0 Hd1 HA Henc) as Hn.
  split; [done|]. intros HE Hsig.
  pose proof (length_encode_bits_pos m).
  assert (0 < E * E) by (pose proof (Z.square_nonneg E); assert (E * E ≠ 0) by (intros [|]%Z.mul_eq_0; tauto); lia).
  rewrite calculate_snr_noise by (rewrite Hn; lia). rewrite bool_decide_false by lia.
  by rewrite Hn.
Qed.

Lemma calculate_snr_inf_witness :
  calculate_snr [1; -2; 3] [1; -2; 3] = PosInf ∧ calculate_snr [1; -2; 3] [1; -3; 3] ≠ PosInf.
Proof.
  split.
  - apply (calculate_snr_inf [1; -2; 3] [1; -2; 3] eq_refl). reflexivity.
  - intros H. apply (calculate_snr_inf [1; -2; 3] [1; -3; 3] eq_refl) in H. discriminate.
Defined.

Lemma lsb_noise_power_witness :
  ∃ out, encode_lsb_samples (seqZ (-20) 41) (codes "HI") = Some out ∧
         noise_power (seqZ (-20) 41) out =
           Z.of_nat (flipped_bits (seqZ (-20) 41) (encode_bits (codes "HI"))).
Proof.
  eexists; split; [vm_compute; reflexivity|].
  apply lsb_noise_power; [decide_concrete|vm_compute; reflexivity].
Defined.

Lemma lsb_snr_bound_witness :
  ∃ out, encode_lsb_samples (seqZ (-20) 41) (codes "HI") = Some out ∧
    (calculate_snr (seqZ (-20) 41) out = PosInf ∨
     ∃ r, calculate_snr (seqZ (-20) 41) out = Finite r ∧
          (10 * log10 (IZR (signal_power (seqZ (-20) 41)) /
                       INR (length (encode_bits (codes "HI")))) <= r)%R).
Proof.
  eexists; split; [vm_compute; reflexivity|].
  apply lsb_snr_bound; [decide_concrete|vm_compute; reflexivity|vm_compute; reflexivity].
Defined.

Lemma echo_pulse_noise_power_witness :
  ∃ out, encode_echo_samples 16 (inject_Z <$> pulse 16 645 1000) (codes "HI") 2 5 (1 # 2) = Some out ∧
    let E := quantize ((1 # 2) * inject_Z 1000) in
    noise_power (pulse 16 645 1000) (quantize <$> out) =
      Z.of_nat (length (encode_bits (codes "HI"))) * (E * E) ∧
    (E ≠ 0 → 0 < signal_power (pulse 16 645 1000) →
     calculate_snr (pulse 16 645 1000) (quantize <$> out) =
       Finite (10 * log10 (IZR (signal_power (pulse 16 645 1000)) /
                           IZR (Z.of_nat (length (encode_bits (codes "HI"))) * (E * E))))%R).
Proof.
  eexists; split; [vm_compute; reflexivity|].
  apply (echo_pulse_noise_power 16 645 2 5 1000 (1 # 2) (codes "HI")); [lia|lia|decide_concrete|].
  vm_compute. reflexivity.
Defined.

(** C36 on a 40-frame mono file of samples 257 carrying "HI" by LSB;
    the second download is the same file. *)
Lemma snr_on_page_downloads_witness :
  let w := {| wav_header := {| nchannels := 1; sampwidth := 2; framerate := 8000; nframes := 40;
                               comptype := "NONE"; compname := "not compressed" |};
              wav_frames := replicate 80 Byte.x01 |} in
  let i := {| enc_file := Some w; enc_message := codes "HI"; enc_tech := TechLSB;
              enc_d0 := 200; enc_d1 := 400; enc_alpha := 1 # 2; enc_clicked := true |} in
  ∃ wl, DownloadButton "Download Stego Audio" wl "stego_audio.wav" "audio/wav" ∈ encode_tab i ∧
    ∃ x y, snr_main w wl wl = PyOk (x, y) ∧
      (x = PosInf ∨
       ∃ r, x = Finite r ∧
            (10 * log10 (IZR (signal_power (replicate 40 257%Z)) / INR 40%nat) <= r)%R).
Proof.
  intros w i. eexists; split; [vm_compute; right; left|].
  match goal with |- ∃ _ _, snr_main _ ?wl _ = _ ∧ _ =>
    exact (snr_on_page_downloads i i w wl wl 8000 (Mono (replicate 40 257))
             "Download Stego Audio" "stego_audio.wav" "audio/wav"
             "Download Stego Audio" "stego_audio.wav" "audio/wav"
             eq_refl eq_refl eq_refl ltac:(vm_compute; reflexivity) ltac:(vm_compute; reflexivity)
             ltac:(vm_compute; right; left) ltac:(vm_compute; right; left)) end.
Defined.

End Snr.

