(* ===== verification/Pesq.v ===== *)
(** * Pesq: the perceptual-quality script

    [src/pesq_eval.py] reads the three files, mixes multi-channel files
    down to int16 mono ([convert_to_mono]), resamples to 16 kHz unless
    the original is at 8 or 16 kHz ([resample_audio]), truncates to the
    shortest file and calls [pesq] in wide-band mode at 16 kHz and
    narrow-band mode at 8 kHz (lines 11-67); [pesq_main] is the whole
    script on the three files.  [scipy.signal.resample] and [pesq] are
    variables of the Section. *)

From Stdlib Require Import QArith Qround String Strings.Byte.
From S2P Require Import Prelude BitCodec Samples LSB Echo Engine App Stoi.

Module Pesq.
Import BitCodec Samples LSB Echo Engine App Stoi.

(** The [mode] argument of [pesq]: ['wb'] or ['nb']. *)
Inductive pesq_mode : Type := WB | NB.

Section PesqScript.
(** [scipy.signal.resample(x, num)] *)
Variable resample : list Z → nat → list Q.
(** [pesq(fs, ref, deg, mode)] *)
Variable pesq : Z → list Z → list Z → pesq_mode → Q.

(** pesq_eval.py 11-18: [audio.mean(axis=1).astype(np.int16)] for a
    two-dimensional array, the array itself otherwise. *)
Definition convert_to_mono (a : pcm) : list Z :=
  match a with
  | Multi rows => (λ r, q_trunc (row_mean r)) <$> rows
  | Mono xs => xs
  end.

(** [astype(np.int16)] of a [float64]: truncation toward zero, then the
    low sixteen bits (what the x86 conversion does out of range). *)
Definition float_to_int16 (x : Q) : Z := to_i16 (q_trunc x).

(** pesq_eval.py 20-31. *)
Definition resample_audio (audio : list Z) (orig_rate target_rate : Z) : pyres (list Z * Z) :=
  if bool_decide (orig_rate = target_rate) then mret (audio, target_rate)
  else if bool_decide (orig_rate = 0%Z) then PyRaise ZeroDivisionError
  else
    let num_samples :=
      Z.to_nat (q_trunc (inject_Z (Z.of_nat (length audio) * target_rate) / inject_Z orig_rate)) in
    mret (float_to_int16 <$> resample audio num_samples, target_rate).

(** pesq_eval.py 42-65: what the two [pesq] calls receive. *)
Definition pesq_inputs (rate_orig rate_lsb rate_echo : Z) (original stego_lsb stego_echo : pcm)
    : pyres (Z * list Z * list Z * list Z * pesq_mode) :=
  let o := convert_to_mono original in
  let l := convert_to_mono stego_lsb in
  let e := convert_to_mono stego_echo in
  let target_rate := if bool_decide (rate_orig ≠ 8000%Z) then 16000%Z else 8000%Z in
  '(o, r, l, e) ←
    (if bool_decide (rate_orig ∉ [8000%Z; 16000%Z]) then
       '(o', r') ← resample_audio o rate_orig target_rate;
       '(l', _) ← resample_audio l rate_lsb target_rate;
       '(e', _) ← resample_audio e rate_echo target_rate;
       mret (o', r', l', e')
     else mret (o, rate_orig, l, e));
  let n := min_len3 (length o) (length l) (length e) in
  let mode := if bool_decide (r = 16000%Z) then WB else NB in
  mret (r, take n o, take n l, take n e, mode).

(** pesq_eval.py 33-67. *)
Definition pesq_script (rate_orig rate_lsb rate_echo : Z) (original stego_lsb stego_echo : pcm)
    : pyres (Q * Q) :=
  '(r, o, l, e, mode) ← pesq_inputs rate_orig rate_lsb rate_echo original stego_lsb stego_echo;
  mret (pesq r o l mode, pesq r o e mode).

(** pesq_eval.py 33-67: the whole script on the three files. *)
Definition pesq_main (original stego_lsb stego_echo : wav) : pyres (Q * Q) :=
  '(rate_orig, o) ← wavfile_read original;
  '(rate_lsb, l) ← wavfile_read stego_lsb;
  '(rate_echo, e) ← wavfile_read stego_echo;
  pesq_script rate_orig rate_lsb rate_echo o l e.
End PesqScript.

(** ** Properties *)

Lemma resample_audio_rate (resample : list Z → nat → list Q) (a a' : list Z) (o t r : Z) :
  resample_audio resample a o t = PyOk (a', r) → r = t.
Proof.
  unfold resample_audio. case_bool_decide; [by intros [= _ <-]|].
  case_bool_decide; [done|]. by intros [= _ <-].
Qed.

Lemma take_min_len3_lengths {A B C} (o : list A) (l : list B) (e : list C) :
  let n := min_len3 (length o) (length l) (length e) in
  length (take n o) = n ∧ length (take n l) = n ∧ length (take n e) = n.
Proof. unfold min_len3. rewrite !length_take. lia. Qed.

(** The resampling branch, when it succeeds, ends at the target rate. *)
Lemma pesq_inputs_cases (resample : list Z → nat → list Q)
    (ro rl re : Z) (a b c : pcm) r o l e mode :
  pesq_inputs resample ro rl re a b c = PyOk (r, o, l, e, mode) →
  (r = ro ∧ ro ∈ [8000%Z; 16000%Z] ∨ r = 16000%Z) ∧
  mode = (if bool_decide (r = 16000%Z) then WB else NB) ∧
  length o = length l ∧ length l = length e.
Proof.
  unfold pesq_inputs. case_bool_decide as Hin.
  - destruct (resample_audio _ _ ro _) as [[o' r']|] eqn:Eo; [|done]. cbn.
    destruct (resample_audio _ _ rl _) as [[l' ?]|]; [|done]. cbn.
    destruct (resample_audio _ _ re _) as [[e' ?]|]; [|done]. cbn.
    intros [= <- <- <- <- <-]. apply resample_audio_rate in Eo.
    rewrite bool_decide_eq_true_2 in Eo
      by (intros ->; apply Hin; constructor).
    destruct (take_min_len3_lengths o' l' e') as (? & ? & ?).
    split_and!; [by right|done|congruence|congruence].
  - cbn. intros [= <- <- <- <- <-].
    destruct (take_min_len3_lengths (convert_to_mono a) (convert_to_mono b)
                (convert_to_mono c)) as (? & ? & ?).
    split_and!; [left; split; [done|]; destruct (decide (ro ∈ [8000%Z; 16000%Z])); tauto
                |done|congruence|congruence].
Qed.

(** C32. PESQ is always run at 8 kHz in narrow-band mode or at 16 kHz
    in wide-band mode, on a reference and two degraded signals of one
    length. *)
Theorem pesq_inputs_rate_mode (resample : list Z → nat → list Q)
    (ro rl re : Z) (a b c : pcm) r o l e mode :
  pesq_inputs resample ro rl re a b c = PyOk (r, o, l, e, mode) →
  ((r = 8000%Z ∧ mode = NB) ∨ (r = 16000%Z ∧ mode = WB)) ∧
  length o = length l ∧ length l = length e.
Proof.
  intros E. destruct (pesq_inputs_cases _ _ _ _ _ _ _ _ _ _ _ _ E) as (Hr & -> & Hl).
  split; [|done].
  destruct Hr as [[-> Hin]| ->]; [|by right; rewrite bool_decide_eq_true_2].
  apply elem_of_cons in Hin as [->|Hin]; [by left|].
  apply list_elem_of_singleton in Hin as ->. by right.
Qed.

(** No resampling at 8 and 16 kHz. *)
Lemma pesq_inputs_no_resample (resample : list Z → nat → list Q)
    (ro rl re : Z) (a b c : pcm) :
  ro ∈ [8000%Z; 16000%Z] →
  let o := convert_to_mono a in
  let l := convert_to_mono b in
  let e := convert_to_mono c in
  let n := min_len3 (length o) (length l) (length e) in
  pesq_inputs resample ro rl re a b c =
    PyOk (ro, take n o, take n l, take n e, if bool_decide (ro = 16000%Z) then WB else NB).
Proof.
  intros Hin. unfold pesq_inputs. rewrite bool_decide_eq_false_2 by auto. reflexivity.
Qed.

(** C33. When the original is at 8 or 16 kHz nothing is resampled: the
    stego files are compared as read, whatever their own sampling rates
    ([rl] and [re] do not occur on the right). *)
Theorem pesq_ignores_stego_rate (resample : list Z → nat → list Q)
    (ro rl re : Z) (a b c : pcm) :
  ro ∈ [8000%Z; 16000%Z] →
  let o := convert_to_mono a in
  let l := convert_to_mono b in
  let e := convert_to_mono c in
  let n := min_len3 (length o) (length l) (length e) in
  pesq_inputs resample ro rl re a b c =
    PyOk (ro, take n o, take n l, take n e, if bool_decide (ro = 16000%Z) then WB else NB).
Proof. apply pesq_inputs_no_resample. Qed.

Lemma sum_bounds (lo hi : Z) (r : list Z) :
  Forall (λ x, lo ≤ x ≤ hi)%Z r →
  (Z.of_nat (length r) * lo ≤ foldr Z.add 0 r ≤ Z.of_nat (length r) * hi)%Z.
Proof. induction 1; cbn; lia. Qed.

Lemma row_mean_bounds (lo hi : Z) (r : list Z) :
  r ≠ [] → Forall (λ x, lo ≤ x ≤ hi)%Z r →
  (inject_Z lo <= row_mean r <= inject_Z hi)%Q.
Proof.
  intros Hne Hr. apply sum_bounds in Hr.
  assert (0 < Z.of_nat (length r))%Z by (destruct r; [done|cbn; lia]).
  assert (0 < inject_Z (Z.of_nat (length r)))%Q by (change 0%Q with (inject_Z 0); rewrite <- Zlt_Qlt; lia).
  unfold row_mean. split.
  - apply Qle_shift_div_l; [done|]. rewrite <- inject_Z_mult, <- Zle_Qle. lia.
  - apply Qle_shift_div_r; [done|]. rewrite <- inject_Z_mult, <- Zle_Qle. lia.
Qed.

(** C34. The mono mix of a multi-channel int16 file is an int16 array:
    the mean of int16 values, truncated, stays in range. *)
Theorem convert_to_mono_int16 (rows : list (list Z)) :
  Forall (λ r, r ≠ [] ∧ Forall is_int16 r) rows →
  Forall is_int16 (convert_to_mono (Multi rows)).
Proof.
  intros Hrows. cbn. apply Forall_fmap. eapply Forall_impl; [|exact Hrows].
  intros r [Hne Hr]. cbn. destruct (row_mean_bounds int16_min int16_max r Hne Hr).
  apply q_trunc_bounds; [cbv; intuition discriminate|done|done].
Qed.

Lemma resample_audio_ok (resample : list Z → nat → list Q) (a : list Z) (o t : Z) :
  o ≠ 0%Z → ∃ a', resample_audio resample a o t = PyOk (a', t).
Proof.
  intros Ho. unfold resample_audio. case_bool_decide as Hot; [subst; by eexists|].
  rewrite bool_decide_eq_false_2 by done. by eexists.
Qed.

(** With no rate of zero the inputs are always computed. *)
Lemma pesq_inputs_ok (resample : list Z → nat → list Q) (ro rl re : Z) (a b c : pcm) :
  ro ≠ 0%Z → rl ≠ 0%Z → re ≠ 0%Z →
  ∃ r o l e mode, pesq_inputs resample ro rl re a b c = PyOk (r, o, l, e, mode).
Proof.
  intros Ho Hl He. unfold pesq_inputs. case_bool_decide; [|by repeat eexists].
  destruct (resample_audio_ok resample (convert_to_mono a) ro
              (if bool_decide (ro ≠ 8000%Z) then 16000%Z else 8000%Z) Ho) as [o' ->].
  destruct (resample_audio_ok resample (convert_to_mono b) rl
              (if bool_decide (ro ≠ 8000%Z) then 16000%Z else 8000%Z) Hl) as [l' ->].
  destruct (resample_audio_ok resample (convert_to_mono c) re
              (if bool_decide (ro ≠ 8000%Z) then 16000%Z else 8000%Z) He) as [e' ->].
  cbn. by repeat eexists.
Qed.

Lemma length_convert_to_mono (a : pcm) : length (convert_to_mono a) = pcm_len a.
Proof. destruct a; cbn; by rewrite ?length_fmap. Qed.

(** An original file with a sampling rate of 0 makes the script
    stop with [ZeroDivisionError] in [resample_audio]. *)
Lemma pesq_zero_rate (resample : list Z → nat → list Q) (ro rl re : Z) (a b c : pcm) :
  ro = 0%Z →
  pesq_inputs resample ro rl re a b c = PyRaise ZeroDivisionError.
Proof.
  intros ->. reflexivity.
Qed.

(** C39. pesq_eval.py run on an uploaded original (at any rate but 0)
    and on two files the encode tab offered for download from it never
    raises; when the original is at 8 or 16 kHz, [pesq] compares the
    whole mono original, at its own rate, with mono stego signals of
    its length. *)
Theorem pesq_on_page_downloads (resample : list Z → nat → list Q)
    (pesq : Z → list Z → list Z → pesq_mode → Q) (il ie : encode_inputs) (w wl we : wav)
    (fs : Z) (a : pcm) (lab fn mime lab' fn' mime' : string) :
  enc_file il = Some w → enc_file ie = Some w →
  wavfile_read w = PyOk (fs, a) → fs ≠ 0%Z →
  DownloadButton lab wl fn mime ∈ encode_tab il →
  DownloadButton lab' we fn' mime' ∈ encode_tab ie →
  ∃ r x y z mode, pesq_main resample pesq w wl we = PyOk (pesq r x y mode, pesq r x z mode) ∧
    (fs ∈ [8000%Z; 16000%Z] →
     r = fs ∧ x = convert_to_mono a ∧ length y = length x ∧ length z = length x).
Proof.
  intros Hfl Hfe Hw Hfs Hl He.
  destruct (encode_tab_download_output il w wl _ _ _ Hfl Hl) as (s & sl & Hr & Hrl & Hll).
  destruct (encode_tab_download_output ie w we _ _ _ Hfe He) as (s' & se & Hr' & Hre & Hle).
  rewrite Hr in Hr'. injection Hr' as <-.
  destruct (wavfile_read_like w wl s sl fs a Hw Hr Hrl Hll) as (al & Hwl & Hal & _).
  destruct (wavfile_read_like w we s se fs a Hw Hr Hre Hle) as (ae & Hwe & Hae & _).
  unfold pesq_main. rewrite Hw, Hwl, Hwe. cbn [mbind pyres_bind]. unfold pesq_script.
  destruct (decide (fs ∈ [8000%Z; 16000%Z])) as [Hin|Hnin].
  - rewrite (pesq_inputs_no_resample resample fs fs fs a al ae Hin).
    cbn [mbind pyres_bind mret pyres_ret].
    rewrite !length_convert_to_mono, Hal, Hae, min_len3_same, <- (length_convert_to_mono a),
      take_ge by lia.
    do 5 eexists. split; [reflexivity|]. intros _.
    rewrite !length_take, !length_convert_to_mono. split_and!; [done|done|lia|lia].
  - destruct (pesq_inputs_ok resample fs fs fs a al ae Hfs Hfs Hfs) as (r & o & l & e & mode & Hp).
    rewrite Hp. cbn [mbind pyres_bind mret pyres_ret]. do 5 eexists. split; [reflexivity|].
    by intros Hin.
Qed.

Lemma pesq_inputs_rate_mode_witness :
  ((16000%Z = 8000%Z ∧ WB = NB) ∨ (16000%Z = 16000%Z ∧ WB = WB)) ∧
  length [0%Z; 0%Z; 0%Z] = length [0%Z; 0%Z; 0%Z] ∧
  length [0%Z; 0%Z; 0%Z] = length [0%Z; 0%Z; 0%Z].
Proof.
  apply (pesq_inputs_rate_mode (λ _ n, replicate n 0%Q) 44100 44100 44100
           (Mono (seqZ 0 10)) (Mono (seqZ 0 10)) (Multi (replicate 12 [1%Z; 2%Z]))).
  vm_compute. reflexivity.
Defined.

Lemma pesq_ignores_stego_rate_witness :
  pesq_inputs (λ _ n, replicate n 0%Q) 16000 44100 8000
    (Mono [1%Z; 2%Z; 3%Z]) (Mono [1%Z; 2%Z]) (Multi [[5%Z; 6%Z]; [7%Z; 8%Z]; [9%Z; 9%Z]]) =
  PyOk (16000%Z, [1%Z; 2%Z], [1%Z; 2%Z], [5%Z; 7%Z], WB).
Proof. apply (pesq_ignores_stego_rate _ 16000 44100 8000). decide_concrete. Defined.

Lemma convert_to_mono_int16_witness :
  Forall is_int16 (convert_to_mono (Multi [[1%Z; 2%Z]; [(-32768)%Z; (-32767)%Z]; [32767%Z]])).
Proof. apply convert_to_mono_int16. decide_concrete. Defined.

(** C39 on a 40-frame silent mono file at 8 kHz carrying "HI" by LSB,
    both downloads the same file, with stand-ins for the two library
    functions. *)
Lemma pesq_on_page_downloads_witness :
  let w := {| wav_header := {| nchannels := 1; sampwidth := 2; framerate := 8000; nframes := 40;
                               comptype := "NONE"; compname := "not compressed" |};
              wav_frames := replicate 80 Byte.x00 |} in
  let i := {| enc_file := Some w; enc_message := codes "HI"; enc_tech := TechLSB;
              enc_d0 := 200; enc_d1 := 400; enc_alpha := 1 # 2; enc_clicked := true |} in
  ∃ wl, DownloadButton "Download Stego Audio" wl "stego_audio.wav" "audio/wav" ∈ encode_tab i ∧
    ∃ r (x y z : list Z) (mode : pesq_mode),
      pesq_main (λ _ n, replicate n 0%Q) (λ _ _ _ _, 0%Q) w wl wl = PyOk (0%Q, 0%Q) ∧
      r = 8000%Z ∧ x = replicate 40 0%Z ∧ length y = length x ∧ length z = length x.
Proof.
  intros w i. eexists; split; [vm_compute; right; left|].
  match goal with |- ∃ _ _ _ _ _, pesq_main _ _ _ ?wl _ = _ ∧ _ =>
    destruct (pesq_on_page_downloads (λ _ n, replicate n 0%Q) (λ _ _ _ _, 0%Q) i i w wl wl
                8000 (Mono (replicate 40 0%Z))
                "Download Stego Audio" "stego_audio.wav" "audio/wav"
                "Download Stego Audio" "stego_audio.wav" "audio/wav"
                eq_refl eq_refl ltac:(vm_compute; reflexivity) ltac:(discriminate)
                ltac:(vm_compute; right; left) ltac:(vm_compute; right; left))
      as (r & x & y & z & mode & H & Hc) end.
  destruct (Hc ltac:(constructor)) as (-> & -> & Hy & Hz).
  exists 8000%Z, (convert_to_mono (Mono (replicate 40 0%Z))), y, z, mode.
  split_and!; [exact H|reflexivity|reflexivity|exact Hy|exact Hz].
Defined.

End Pesq.
